(** * major_disaster_analysis: tables, store and the three reporters

    A shallow embedding of [custom_code/major_disaster_analysis.py].

    The module is glue over pandas: every computation is a column lookup, a
    boolean mask, a group-by, a merge or a sort.  The embedding therefore has
    three layers:

    - the pandas operations the module calls, as functions on frames whose
      cells are integers, text or NaN;
    - a store of DataFrame objects addressed by reference, in which the
      operations allocate their results and [df[c] = ...] updates in place;
    - the three entry points and the dashboard callback, statement by
      statement, in a state-and-exception monad over that store.

    Numeric cells are integers: the dataset's measures are counts and amounts
    in thousands of dollars.  Sums are taken in exact arithmetic; pandas adds
    in int64 or float64, which gives the same as long as the absolute values
    summed stay within 2^53, and the properties of sums are stated under that
    bound.  Comparing a column that holds text with a number, summing such a
    column, and merging a text key with a numeric key fail as in pandas, so
    the properties are stated for tables typed as the dataset is: years and
    measures are numbers or missing, country codes are text or missing. *)

From stdpp Require Import base option list strings sorting numbers.

Local Open Scope Z_scope.

(** ** Cells, rows, frames *)

Inductive value :=
  | NaN
  | Num (z : Z)
  | Str (s : string).

Global Instance value_eq_dec : EqDecision value.
Proof. solve_decision. Defined.

Definition isna (v : value) : bool :=
  match v with NaN => true | _ => false end.

Definition num_of (v : value) : option Z :=
  match v with Num z => Some z | _ => None end.

Definition is_text (v : value) : bool :=
  match v with Str _ => true | _ => false end.

Definition is_number (v : value) : bool :=
  match v with Num _ => true | _ => false end.

(** A row is an index label and its cells keyed by column name. *)
Abbreviation cells := (list (string * value)).
Abbreviation row := (value * cells)%type.

Fixpoint cell (c : string) (r : cells) : value :=
  match r with
  | [] => NaN
  | (n, v) :: r' => if decide (n = c) then v else cell c r'
  end.

Record Frame := mkFrame { columns : list string; rows : list row }.

(** A Series: index labels with one value each. *)
Abbreviation Series := (list (value * value)).

Definition index (f : Frame) : list value := map fst (rows f).

Definition range_index (l : list cells) : list row :=
  imap (λ i r, (Num (Z.of_nat i), r)) l.

(** ** Exceptions *)

(** [AssertionError] is what the module's own [assert] raises; the others
    come out of pandas and datetime. *)
Inductive exn := AssertionError | KeyError | TypeError | ValueError | OverflowError.

Global Instance exn_eq_dec : EqDecision exn.
Proof. solve_decision. Defined.

(** ** pandas operations *)

(** [df[c]] *)
Definition column (c : string) (f : Frame) : Series :=
  map (λ r : row, (r.1, cell c r.2)) (rows f).

(** A column holds text when one of its cells is text: pandas then keeps
    it as an object column. *)
Definition series_holds_text (s : Series) : Prop :=
  Exists (λ x : value * value, is_text x.2) s.

(** [a <= s], [s <= a], [s > a]: a number cannot be compared with text
    (TypeError); comparisons with NaN are False. *)
Definition truth (p : Z → bool) (s : Series) : list bool :=
  map (λ x : value * value, from_option p false (num_of x.2)) s.

Definition compare (p : Z → bool) (s : Series) : exn + list bool :=
  if decide (series_holds_text s) then inl TypeError else inr (truth p s).

Definition scalar_le_series (a : Z) (s : Series) : exn + list bool :=
  compare (λ z, bool_decide (a ≤ z)) s.

Definition series_le_scalar (s : Series) (a : Z) : exn + list bool :=
  compare (λ z, bool_decide (z ≤ a)) s.

Definition series_gt_scalar (s : Series) (a : Z) : exn + list bool :=
  compare (λ z, bool_decide (a < z)) s.

(** [m1 & m2] *)
Definition mask_and (m1 m2 : list bool) : list bool := zip_with andb m1 m2.

(** [df[mask]] *)
Fixpoint select {A} (m : list bool) (l : list A) : list A :=
  match m, l with
  | b :: m', x :: l' => if b then x :: select m' l' else select m' l'
  | _, _ => []
  end.

Definition getitem_mask (m : list bool) (f : Frame) : Frame :=
  mkFrame (columns f) (select m (rows f)).

(** [df[[c1, c2, ...]]] *)
Definition getitem_columns (cs : list string) (f : Frame) : Frame :=
  mkFrame cs (map (λ r : row, (r.1, map (λ c, (c, cell c r.2)) cs)) (rows f)).

(** [df.dropna()]: drop the rows holding a NaN in any column. *)
Definition complete (cs : list string) (r : cells) : Prop :=
  Forall (λ c, cell c r ≠ NaN) cs.

Definition dropna (f : Frame) : Frame :=
  mkFrame (columns f) (filter (λ r : row, complete (columns f) r.2) (rows f)).

(** [df.fillna(v)] *)
Definition fill (v x : value) : value := if isna x then v else x.

Definition fillna (v : value) (f : Frame) : Frame :=
  mkFrame (columns f)
          (map (λ r : row, (r.1, map (λ c : string * value, (c.1, fill v c.2)) r.2)) (rows f)).

(** [pd.merge(left, right, how='left', left_on=..., right_on=...)].

    A left row is paired with every right row holding the same key values
    (NaN keys match NaN keys), in the right frame's order; a left row without
    a partner is kept once with NaN in the right columns.  A key column named
    alike on both sides appears once.  pandas renames any other column found
    on both sides with the suffixes _x and _y; neither reporter reads a
    suffixed column, so these are left out of the merged frame. *)
Definition key_of (on : list string) (r : cells) : list value :=
  map (λ k, cell k r) on.

Definition merge_cells (lcols rcols : list string) (l : cells) (m : option cells) : cells :=
  map (λ c, (c, cell c l)) lcols ++ map (λ c, (c, from_option (cell c) NaN m)) rcols.

Definition same_keys (left_on right_on : list string) : list string :=
  omap (λ p : string * string, if decide (p.1 = p.2) then Some p.1 else None)
       (zip left_on right_on).

Definition merge_left (left right : Frame) (left_on right_on : list string) : Frame :=
  let shared := same_keys left_on right_on in
  let lcols := filter (λ c, c ∉ columns right ∨ c ∈ shared) (columns left) in
  let rcols := filter (λ c, c ∉ columns left) (columns right) in
  mkFrame (lcols ++ rcols)
    (range_index
       (rows left ≫= λ l : row,
          match filter (λ r : row, key_of right_on r.2 = key_of left_on l.2) (rows right) with
          | [] => [merge_cells lcols rcols l.2 None]
          | ms => map (λ r : row, merge_cells lcols rcols l.2 (Some r.2)) ms
          end)).

(** [df.groupby(key)]: the group keys are the distinct non-missing values of
    the key column, in sorted order (numbers before text). *)
Definition value_le (a b : value) : Prop :=
  match a, b with
  | NaN, _ => True
  | Num _, NaN => False
  | Num x, Num y => x ≤ y
  | Num _, Str _ => True
  | Str x, Str y => String.le x y
  | Str _, _ => False
  end.

Global Instance value_le_dec : RelDecision value_le.
Proof. intros [] []; simpl; apply _. Defined.

Definition group_keys (key : string) (f : Frame) : list value :=
  merge_sort value_le
    (remove_dups (filter (λ v, v ≠ NaN) (map (λ r : row, cell key r.2) (rows f)))).

Definition group (key : string) (f : Frame) (k : value) : list row :=
  filter (λ r : row, cell key r.2 = k) (rows f).

(** [grouped[c].sum()] on a column of numbers: NaN is skipped, so a group
    without any value sums to 0.  The sum is exact; pandas' int64 or float64
    sum gives the same when the absolute values add up to at most 2^53. *)
Definition sumZ (l : list Z) : Z := foldr Z.add 0 l.

Definition group_sum (key c : string) (f : Frame) : Series :=
  map (λ k, (k, Num (sumZ (omap (λ r : row, num_of (cell c r.2)) (group key f k)))))
      (group_keys key f).

(** [grouped[c].count()]: the number of non-missing cells. *)
Definition group_count (key c : string) (f : Frame) : Series :=
  map (λ k, (k, Num (Z.of_nat (length (filter (λ r : row, cell c r.2 ≠ NaN) (group key f k))))))
      (group_keys key f).

(** Python dicts, in insertion order; keys are unique. *)
Fixpoint dict_get {V} (k : string) (d : list (string * V)) : option V :=
  match d with
  | [] => None
  | (k', v) :: d' => if decide (k' = k) then Some v else dict_get k d'
  end.

Fixpoint dict_set {V} (k : string) (v : V) (d : list (string * V)) : list (string * V) :=
  match d with
  | [] => [(k, v)]
  | (k', v') :: d' => if decide (k' = k) then (k, v) :: d' else (k', v') :: dict_set k v d'
  end.

(** [pd.DataFrame(data=d)] for a dict of Series.  The Series handed over by
    the reporters come out of one group-by and carry one and the same index,
    which becomes the frame's index; a label a Series lacks gives NaN. *)
Fixpoint at_label (k : value) (s : Series) : value :=
  match s with
  | [] => NaN
  | (k', v) :: s' => if decide (k' = k) then v else at_label k s'
  end.

Definition DataFrame_of_dict (d : list (string * Series)) : Frame :=
  mkFrame (map fst d)
    (map (λ k, (k, map (λ e : string * Series, (e.1, at_label k e.2)) d))
         (match d with [] => [] | e :: _ => map fst e.2 end)).

(** [df.rename(columns=m)] *)
Definition renamed (m : list (string * string)) (c : string) : string :=
  default c (dict_get c m).

Definition rename_columns (m : list (string * string)) (f : Frame) : Frame :=
  mkFrame (map (renamed m) (columns f))
          (map (λ r : row, (r.1, map (λ c : string * value, (renamed m c.1, c.2)) r.2)) (rows f)).

(** [df[c] = vals], on the frame itself. *)
Definition set_column (c : string) (vals : list value) (f : Frame) : Frame :=
  mkFrame (if decide (c ∈ columns f) then columns f else columns f ++ [c])
          (zip_with (λ (r : row) v, (r.1, dict_set c v r.2)) (rows f) vals).

(** [df.sort_values(c, ascending=False)]: largest first, NaN last.  pandas
    does not fix the order among equal values (its default sort is not
    stable); the order this sort leaves among them is one of the possible
    ones, and no property below is stated of it. *)
Definition desc_le (c : string) (r1 r2 : row) : Prop :=
  match num_of (cell c r1.2), num_of (cell c r2.2) with
  | Some a, Some b => b ≤ a
  | Some _, None => True
  | None, Some _ => False
  | None, None => True
  end.

Global Instance desc_le_dec c : RelDecision (desc_le c).
Proof. intros r1 r2. unfold desc_le. repeat case_match; apply _. Defined.

Definition sort_values_desc (c : string) (f : Frame) : Frame :=
  mkFrame (columns f) (merge_sort (desc_le c) (rows f)).

(** [df.iloc[:n]] *)
Definition iloc_head (n : nat) (f : Frame) : Frame :=
  mkFrame (columns f) (take n (rows f)).

(** [s.min()], [s.max()].  A column all of whose cells are numbers is an
    integer column and its extremum an integer; a column holding a NaN is a
    float column; an empty column has the float nan for extremum. *)
Inductive scalar :=
  | IntS (z : Z)
  | FloatS (x : option Z).

Definition extremum (op : Z → Z → Z) (s : Series) : scalar :=
  match omap (λ x : value * value, num_of x.2) s with
  | [] => FloatS None
  | z :: zs =>
      if bool_decide (Forall (λ x : value * value, is_Some (num_of x.2)) s)
      then IntS (foldr op z zs) else FloatS (Some (foldr op z zs))
  end.

Definition series_min : Series → scalar := extremum Z.min.
Definition series_max : Series → scalar := extremum Z.max.

Definition scalar_add (a : scalar) (n : Z) : scalar :=
  match a with
  | IntS z => IntS (z + n)
  | FloatS x => FloatS ((λ z, z + n) <$> x)
  end.

(** ** Python values, the store *)

(** [datetime.datetime] *)
Record datetime := mkDatetime { year : Z; month : Z; day : Z }.

Definition MINYEAR : Z := 1.
Definition MAXYEAR : Z := 9999.

(** [dt.datetime(y, m, d)] for a valid month and day: a float year is a
    TypeError, a year out of range a ValueError, and a year that does not fit
    a C int an OverflowError. *)
Definition dt_datetime (y : scalar) (m d : Z) : exn + datetime :=
  match y with
  | IntS z => if bool_decide (MINYEAR ≤ z ≤ MAXYEAR) then inr (mkDatetime z m d)
              else if bool_decide (- 2 ^ 31 ≤ z < 2 ^ 31) then inl ValueError
              else inl OverflowError
  | FloatS _ => inl TypeError
  end.

(** The values a caller can pass. *)
Inductive pyval :=
  | Ref (l : nat)
  | PyNone
  | PyBool (b : bool)
  | PyInt (z : Z)
  | PyStr (s : string).

(** What [plt.show()] puts on screen. *)
Record figure := Scatter { scatter_x : string; scatter_y : string;
                           scatter_points : list (value * value) }.

(** The store: the DataFrame objects alive, the Natural Earth country table
    on disk, the figures shown so far. *)
Record state := mkState {
  heap : list Frame;
  naturalearth_lowres : Frame;
  figures : list figure
}.

Definition M (A : Type) : Type := state → (exn + A) * state.

Definition ret {A} (a : A) : M A := λ s, (inr a, s).

Definition raise {A} (e : exn) : M A := λ s, (inl e, s).

Definition bind {A B} (m : M A) (k : A → M B) : M B :=
  λ s, match m s with
       | (inr a, s') => k a s'
       | (inl e, s') => (inl e, s')
       end.

Notation "'let*' x ':=' m 'in' k" := (bind m (λ x, k))
  (at level 10, x pattern, m at level 100, k at level 200).
Notation "m ';;;' k" := (bind m (λ _, k))
  (at level 100, k at level 200, right associativity).

Definition lift {A} (r : exn + A) : M A :=
  match r with inl e => raise e | inr a => ret a end.

(** [assert b] *)
Definition assert (b : bool) : M unit :=
  if b then ret tt else raise AssertionError.

(** The object a value refers to, if it refers to one. *)
Definition deref (s : state) (v : pyval) : option Frame :=
  match v with
  | Ref l => heap s !! l
  | _ => None
  end.

(** The store with one more object, with an object replaced, with one more
    figure on screen. *)
Definition push (f : Frame) (s : state) : state :=
  mkState (heap s ++ [f]) (naturalearth_lowres s) (figures s).

Definition update (l : nat) (f : Frame) (s : state) : state :=
  mkState (<[l := f]> (heap s)) (naturalearth_lowres s) (figures s).

Definition show (g : figure) (s : state) : state :=
  mkState (heap s) (naturalearth_lowres s) (figures s ++ [g]).

(** [isinstance(v, pd.DataFrame)], [isinstance(v, bool)] *)
Definition is_DataFrame (s : state) (v : pyval) : bool :=
  bool_decide (is_Some (deref s v)).

Definition isinstance_DataFrame (v : pyval) : M bool :=
  λ s, (inr (is_DataFrame s v), s).

Definition isinstance_bool (v : pyval) : bool :=
  match v with PyBool _ => true | _ => false end.

Definition frame_of (v : pyval) : M Frame :=
  λ s, match deref s v with
       | Some f => (inr f, s)
       | None => (inl TypeError, s)
       end.

(** A new object. *)
Definition alloc (f : Frame) : M pyval :=
  λ s, (inr (Ref (length (heap s))), push f s).

(** Column lookups fail with KeyError. *)
Definition require_columns (cs : list string) (f : Frame) : M unit :=
  if decide (cs ⊆ columns f) then ret tt else raise KeyError.

(** ** pandas on the store

    Every operation reads its operands and allocates its result; only
    [setitem] writes to an object that exists. *)

Definition pd_getitem (df : pyval) (c : string) : M Series :=
  let* f := frame_of df in
  require_columns [c] f ;;;
  ret (column c f).

Definition pd_getitem_mask (df : pyval) (m : list bool) : M pyval :=
  let* f := frame_of df in
  alloc (getitem_mask m f).

Definition pd_getitem_columns (df : pyval) (cs : list string) : M pyval :=
  let* f := frame_of df in
  require_columns cs f ;;;
  alloc (getitem_columns cs f).

Definition pd_dropna (df : pyval) : M pyval :=
  let* f := frame_of df in
  alloc (dropna f).

Definition pd_fillna (df : pyval) (v : value) : M pyval :=
  let* f := frame_of df in
  alloc (fillna v f).

(** pandas refuses to merge a key column that holds text with one that
    holds none, numbers or nothing but NaN (ValueError), unless one of the
    two frames has no row. *)
Definition holds_text (c : string) (f : Frame) : Prop :=
  Exists (λ r : row, is_text (cell c r.2)) (rows f).

Definition refused (l r : Frame) (left_on right_on : list string) : Prop :=
  rows l ≠ [] ∧ rows r ≠ []
  ∧ Exists (λ k : string * string, ¬ (holds_text k.1 l ↔ holds_text k.2 r))
           (zip left_on right_on).

Definition pd_merge (left right : pyval) (left_on right_on : list string) : M pyval :=
  let* l := frame_of left in
  let* r := frame_of right in
  require_columns right_on r ;;;
  require_columns left_on l ;;;
  if decide (refused l r left_on right_on) then raise ValueError
  else alloc (merge_left l r left_on right_on).

(** A GroupBy object keeps a reference to its frame. *)
Record GroupBy := mkGroupBy { grouped_obj : pyval; grouped_key : string }.

Definition pd_groupby (df : pyval) (key : string) : M GroupBy :=
  let* f := frame_of df in
  require_columns [key] f ;;;
  ret (mkGroupBy df key).

(** Text cannot be added to a number (TypeError).  A group that holds
    nothing but text pandas would concatenate; the model raises there too,
    and no property below is stated of such a column. *)
Definition groupby_sum (g : GroupBy) (c : string) : M Series :=
  let* f := frame_of (grouped_obj g) in
  require_columns [c] f ;;;
  if decide (holds_text c f) then raise TypeError
  else ret (group_sum (grouped_key g) c f).

Definition groupby_count (g : GroupBy) (c : string) : M Series :=
  let* f := frame_of (grouped_obj g) in
  require_columns [c] f ;;;
  ret (group_count (grouped_key g) c f).

Definition pd_DataFrame (d : list (string * Series)) : M pyval :=
  alloc (DataFrame_of_dict d).

Definition pd_rename (df : pyval) (m : list (string * string)) : M pyval :=
  let* f := frame_of df in
  alloc (rename_columns m f).

Definition pd_index (df : pyval) : M (list value) :=
  let* f := frame_of df in
  ret (index f).

Definition setitem (df : pyval) (c : string) (vals : list value) : M unit :=
  let* f := frame_of df in
  λ s, match df with
       | Ref l => (inr tt, update l (set_column c vals f) s)
       | _ => (inl TypeError, s)
       end.

Definition pd_sort_values_desc (df : pyval) (c : string) : M pyval :=
  let* f := frame_of df in
  require_columns [c] f ;;;
  alloc (sort_values_desc c f).

Definition pd_iloc_head (df : pyval) (n : nat) : M pyval :=
  let* f := frame_of df in
  alloc (iloc_head n f).

(** [geopandas.read_file(geopandas.datasets.get_path('naturalearth_lowres'))]:
    a fresh frame on every call. *)
Definition read_naturalearth_lowres : M pyval :=
  λ s, alloc (naturalearth_lowres s) s.

(** [df.plot.scatter(x=, y=)] followed by [plt.show()] *)
Definition plot_scatter (df : pyval) (x y : string) : M unit :=
  let* f := frame_of df in
  require_columns [x; y] f ;;;
  λ s, (inr tt, show (Scatter x y (map (λ r : row, (cell x r.2, cell y r.2)) (rows f))) s).

(** The two holoviews elements: the data they were given and the dimensions
    they show. *)
Record Polygons := mkPolygons {
  polygons_data : Frame;
  polygons_vdims : list (string * string);
  polygons_color_index : option string;
  polygons_size : option (Z * Z)
}.

Record Bars := mkBars {
  bars_data : Frame;
  bars_kdim : string * string;
  bars_vdim : string * string;
  bars_size : Z * Z
}.

Definition gv_Polygons (df : pyval) (vdims : list (string * string))
    (color_index : option string) (size : option (Z * Z)) : M Polygons :=
  let* f := frame_of df in
  ret (mkPolygons f vdims color_index size).

Definition hv_Bars (df : pyval) (kdim vdim : string * string) (size : Z * Z) : M Bars :=
  let* f := frame_of df in
  ret (mkBars f kdim vdim size).

(** The values drawn, in drawing order. *)
Definition bars_values (b : Bars) : list value :=
  map (λ r : row, cell (bars_vdim b).1 r.2) (rows (bars_data b)).

Definition bars_entries (b : Bars) : list (value * value) :=
  map (λ r : row, (cell (bars_kdim b).1 r.2, cell (bars_vdim b).1 r.2)) (rows (bars_data b)).

(** ** The module *)

(** [death_vs_gdp(natural_disaster_df, gdp_df)] *)
Definition death_vs_gdp (natural_disaster_df gdp_df : pyval) : M unit :=
  let* ok := isinstance_DataFrame natural_disaster_df in
  assert ok ;;;
  let* ok := isinstance_DataFrame gdp_df in
  assert ok ;;;
  let* new_df := pd_merge natural_disaster_df gdp_df ["ISO"; "Year"] ["Code"; "Year"] in
  let* deaths := pd_getitem new_df "Total Deaths" in
  let* mask := lift (series_gt_scalar deaths 5000) in
  let* new_df := pd_getitem_mask new_df mask in
  let* new_df := pd_getitem_columns new_df ["Total Deaths"; "GDP per capita"] in
  let* new_df := pd_dropna new_df in
  plot_scatter new_df "Total Deaths" "GDP per capita".

(** [major_disaster_distribution(natural_disaster_df)] *)
Definition major_disaster_distribution (natural_disaster_df : pyval) : M Polygons :=
  let* ok := isinstance_DataFrame natural_disaster_df in
  assert ok ;;;
  let* grouped := pd_groupby natural_disaster_df "ISO" in
  let* country_count := groupby_count grouped "Year" in
  let* world := read_naturalearth_lowres in
  let* country_count := pd_DataFrame [("Year", country_count)] in
  let* country_count := pd_rename country_count [("Year", "Year_2")] in
  let* idx := pd_index country_count in
  setitem country_count "inde" idx ;;;
  let* world := pd_merge world country_count ["iso_a3"] ["inde"] in
  let* world := pd_fillna world (Num 0) in
  gv_Polygons world [("Year_2", "# disasters"); ("name", "Country")] None (Some (600, 500)).

(** [selector_opts] *)
Record selector_opt := mkOpt {
  dep_var : string;
  dep_var_2 : string;
  feature_name : string;
  group_op : string
}.

Definition selector_opts : list (string * selector_opt) :=
  [ ("# Disasters", mkOpt "Year" "Year_2" "# Disasters" "count");
    ("# Deaths", mkOpt "Total Deaths" "TD_2" "# Deaths" "sum");
    ("# Injured", mkOpt "No Injured" "num_inj" "# Injured" "sum");
    ("# Affected", mkOpt "No Affected" "num_aff" "# Affected" "sum");
    ("# Homeless", mkOpt "No Homeless" "num_homeless" "# Homeless" "sum");
    ("Reconstruction Costs",
       mkOpt "Reconstruction Costs ('000 US$)" "num_recon_costs" "Reconstruction Costs" "sum");
    ("Total Damanges",
       mkOpt "Total Damages ('000 US$)" "num_damages" "Total Damanges" "sum") ].

Definition dict_keys {V} (d : list (string * V)) : list string := map fst d.

(** [d[k]] *)
Definition dict_getitem {V} (d : list (string * V)) (k : option string) : M V :=
  match k with
  | Some k => match dict_get k d with
              | Some v => ret v
              | None => raise KeyError
              end
  | None => raise KeyError
  end.

(** The loop filling [country_var_dict]. *)
Fixpoint aggregate (grouped : GroupBy) (keys : list string)
    (country_var_dict : list (string * Series)) : M (list (string * Series)) :=
  match keys with
  | [] => ret country_var_dict
  | i :: keys' =>
      let* o := dict_getitem selector_opts (Some i) in
      let* country_var_dict :=
        if decide (group_op o = "sum") then
          let* s := groupby_sum grouped (dep_var o) in
          ret (dict_set (dep_var o) s country_var_dict)
        else if decide (group_op o = "count") then
          let* s := groupby_count grouped (dep_var o) in
          ret (dict_set (dep_var o) s country_var_dict)
        else ret country_var_dict in
      aggregate grouped keys' country_var_dict
  end.

(** [{selector_opts[v]['dep_var']: selector_opts[v]['dep_var_2'] for v in selector_opts.keys()}] *)
Definition columns_names : list (string * string) :=
  foldl (λ d (e : string * selector_opt), dict_set (dep_var e.2) (dep_var_2 e.2) d)
        [] selector_opts.

Definition keyDims : list (string * string) :=
  ("name", "Country") :: map (λ e : string * selector_opt, (dep_var_2 e.2, feature_name e.2)) selector_opts.

(** [int(300*scale)], [int(250*scale)] for [scale = 3/2+1/7]. *)
Definition width : Z := (300 * 23) `quot` 14.
Definition height : Z := (250 * 23) `quot` 14.

(** The callback [major_disaster_map(start_time, end_time, vis_type=None)];
    [natural_disaster_df] is the reference its closure captured. *)
Definition major_disaster_map (natural_disaster_df : pyval)
    (start_time end_time : datetime) (vis_type : option string) : M (Polygons * Bars) :=
  let* years := pd_getitem natural_disaster_df "Year" in
  let* lower := lift (scalar_le_series (year start_time) years) in
  let* years := pd_getitem natural_disaster_df "Year" in
  let* upper := lift (series_le_scalar years (year end_time)) in
  let* restricted_df := pd_getitem_mask natural_disaster_df (mask_and lower upper) in
  let* grouped := pd_groupby restricted_df "ISO" in
  let* country_var_dict := aggregate grouped (dict_keys selector_opts) [] in
  let* world := read_naturalearth_lowres in
  let* country_var := pd_DataFrame country_var_dict in
  let* country_var := pd_rename country_var columns_names in
  let* idx := pd_index country_var in
  setitem country_var "inde" idx ;;;
  let* world := pd_merge world country_var ["iso_a3"] ["inde"] in
  let* world := pd_fillna world (Num 0) in
  let* o := dict_getitem selector_opts vis_type in
  let* ax := gv_Polygons world keyDims (Some (dep_var_2 o)) (Some (width, height)) in
  let* o := dict_getitem selector_opts vis_type in
  let* sorted := pd_sort_values_desc country_var (dep_var_2 o) in
  let* top := pd_iloc_head sorted 10 in
  let* o := dict_getitem selector_opts vis_type in
  let* bar := hv_Bars top ("inde", "Country") (dep_var_2 o, feature_name o) (width, height) in
  ret (ax, bar).

(** What [map_distribution_cases] hands back: the slider, the selector, the
    dynamic map bound to the callback, and whether the layout was wrapped
    with [pn.ipywidget].  Wrapping renders the layout, which draws the
    dynamic map once: the callback runs at the widgets' initial values, the
    slider's full range and the selector's first option, and what it raises
    comes out of [map_distribution_cases]. *)
Record Dashboard := mkDashboard {
  dateslider_start : datetime;
  dateslider_end : datetime;
  dateslider_value : datetime * datetime;
  selector_options : list string;
  captured_df : pyval;
  as_ipywidget : bool
}.

(** [map_distribution_cases(natural_disaster_df, voila=True)] *)
Definition map_distribution_cases (natural_disaster_df voila : pyval) : M Dashboard :=
  let* ok := isinstance_DataFrame natural_disaster_df in
  assert ok ;;;
  assert (isinstance_bool voila) ;;;
  let* years := pd_getitem natural_disaster_df "Year" in
  let* min_date := lift (dt_datetime (series_min years) 1 1) in
  let* years := pd_getitem natural_disaster_df "Year" in
  let* max_date := lift (dt_datetime (scalar_add (series_max years) 1) 1 1) in
  let options := dict_keys selector_opts in
  match voila with
  | PyBool true =>
      major_disaster_map natural_disaster_df min_date max_date (head options) ;;;
      ret (mkDashboard min_date max_date (min_date, max_date) options
                       natural_disaster_df true)
  | _ =>
      ret (mkDashboard min_date max_date (min_date, max_date) options
                       natural_disaster_df false)
  end.

(** A recompute of the dashboard: the bound callback run at the widgets'
    current values. *)
Definition recompute (d : Dashboard) (start_time end_time : datetime)
    (vis_type : option string) : M (Polygons * Bars) :=
  major_disaster_map (captured_df d) start_time end_time vis_type.

(** ** The frames the reporters derive

    The tables each reporter builds on its way, as functions of the frames it
    was given; the run lemmas below show the reporters compute exactly these. *)

(** [death_vs_gdp]: the join, its rows above 5000 deaths, the two columns
    without missing values, and the points plotted. *)
Definition joined (nd gdp : Frame) : Frame :=
  merge_left nd gdp ["ISO"; "Year"] ["Code"; "Year"].

Definition major (nd gdp : Frame) : Frame :=
  getitem_mask (truth (λ z, bool_decide (5000 < z)) (column "Total Deaths" (joined nd gdp)))
               (joined nd gdp).

Definition deaths_gdp (nd gdp : Frame) : Frame :=
  dropna (getitem_columns ["Total Deaths"; "GDP per capita"] (major nd gdp)).

Definition points (x y : string) (f : Frame) : list (value * value) :=
  map (λ r : row, (cell x r.2, cell y r.2)) (rows f).

(** [major_disaster_distribution]: the per-country counts and the map. *)
Definition country_count_frame (f : Frame) : Frame :=
  let country_count :=
    rename_columns [("Year", "Year_2")]
                   (DataFrame_of_dict [("Year", group_count "ISO" "Year" f)]) in
  set_column "inde" (index country_count) country_count.

Definition distribution_world (geo f : Frame) : Frame :=
  fillna (Num 0) (merge_left geo (country_count_frame f) ["iso_a3"] ["inde"]).

(** [major_disaster_map]: the rows in the date range, the per-country table
    of all metrics, the map, and the ten rows of the bar chart. *)
Definition restricted (a b : Z) (f : Frame) : Frame :=
  getitem_mask (mask_and (truth (λ z, bool_decide (a ≤ z)) (column "Year" f))
                         (truth (λ z, bool_decide (z ≤ b)) (column "Year" f))) f.

Definition country_var_dict_of (f : Frame) : list (string * Series) :=
  foldl (λ d (e : string * selector_opt),
           if decide (group_op e.2 = "sum") then
             dict_set (dep_var e.2) (group_sum "ISO" (dep_var e.2) f) d
           else if decide (group_op e.2 = "count") then
             dict_set (dep_var e.2) (group_count "ISO" (dep_var e.2) f) d
           else d)
        [] selector_opts.

Definition country_var_frame (f : Frame) : Frame :=
  let country_var := rename_columns columns_names (DataFrame_of_dict (country_var_dict_of f)) in
  set_column "inde" (index country_var) country_var.

Definition dashboard_world (geo f : Frame) : Frame :=
  fillna (Num 0) (merge_left geo (country_var_frame f) ["iso_a3"] ["inde"]).

Definition top10 (c : string) (f : Frame) : Frame :=
  iloc_head 10 (sort_values_desc c (country_var_frame f)).

(** ** The vocabulary of the properties *)

(** The columns the dashboard reads from the disaster table, the columns of
    the per-country frames, and the aliases under which the dashboard shows
    its metrics. *)
Definition dashboard_columns : list string :=
  "ISO" :: map (λ e : string * selector_opt, dep_var e.2) selector_opts.

Definition country_count_columns : list string := ["Year_2"; "inde"].

Definition country_var_columns : list string :=
  ["Year_2"; "TD_2"; "num_inj"; "num_aff"; "num_homeless"; "num_recon_costs";
   "num_damages"; "inde"].

Definition metric_columns : list string :=
  map (λ e : string * selector_opt, dep_var_2 e.2) selector_opts.

(** The country table has a key column and shares no column name with a
    per-country frame. *)
Definition geo_ok (geo : Frame) (cols : list string) : Prop :=
  "iso_a3" ∈ columns geo ∧ Forall (λ c, c ∉ cols) (columns geo).

(** Tables typed as the dataset is.  A column of numbers holds numbers and
    NaN, a column of text holds text and NaN; every polygon of the country
    table carries a code, which is text. *)
Definition number_column (c : string) (f : Frame) : Prop :=
  Forall (λ r : row, ¬ is_text (cell c r.2)) (rows f).

Definition text_column (c : string) (f : Frame) : Prop :=
  Forall (λ r : row, ¬ is_number (cell c r.2)) (rows f).

Definition coded (geo : Frame) : Prop :=
  Forall (λ g : row, is_text (cell "iso_a3" g.2)) (rows geo).

(** The columns the dashboard aggregates, and those among them it sums. *)
Definition measures : list string :=
  map (λ e : string * selector_opt, dep_var e.2) selector_opts.

Definition summed : list string :=
  map (λ e : string * selector_opt, dep_var e.2)
      (filter (λ e : string * selector_opt, group_op e.2 = "sum") selector_opts).

(** A disaster table for the dashboard: country codes are text, years and
    measures are numbers. *)
Definition typed (f : Frame) : Prop :=
  text_column "ISO" f ∧ Forall (λ c, number_column c f) measures.

(** The absolute values of a column add up to at most 2^53: within that
    bound, sums in int64 and in float64 are the exact sums. *)
Definition magnitude (c : string) (l : list row) : Z :=
  sumZ (map (λ r : row, Z.abs (default 0 (num_of (cell c r.2)))) l).

Definition bounded (f : Frame) : Prop :=
  Forall (λ c, magnitude c (rows f) ≤ 2 ^ 53) summed.

(** A disaster table and a GDP table for [death_vs_gdp]: codes are text,
    years, deaths and GDP per capita are numbers, and the two code columns
    are of one kind (both hold text, or neither does) unless a table has no
    row. *)
Definition joinable (nd gdp : Frame) : Prop :=
  text_column "ISO" nd ∧ text_column "Code" gdp
  ∧ number_column "Year" nd ∧ number_column "Year" gdp
  ∧ number_column "Total Deaths" nd ∧ number_column "GDP per capita" gdp
  ∧ (rows nd = [] ∨ rows gdp = [] ∨ (holds_text "ISO" nd ↔ holds_text "Code" gdp)).

(** A row's year lies in [[a, b]], both bounds included. *)
Definition in_range (a b : Z) (r : row) : Prop :=
  match num_of (cell "Year" r.2) with
  | Some y => a ≤ y ≤ b
  | None => False
  end.

Global Instance in_range_dec a b r : Decision (in_range a b r).
Proof. unfold in_range. case_match; apply _. Defined.

(** The disaster rows of one year. *)
Definition rows_in_year (y : Z) (f : Frame) : Frame :=
  mkFrame (columns f) (filter (λ r : row, cell "Year" r.2 = Num y) (rows f)).

(** The rows of a country, and pandas' sum and count of a column over rows. *)
Definition rows_of (k : value) (f : Frame) : list row :=
  filter (λ r : row, cell "ISO" r.2 = k) (rows f).

Definition column_sum (c : string) (l : list row) : Z :=
  sumZ (omap (λ r : row, num_of (cell c r.2)) l).

Definition column_count (c : string) (l : list row) : Z :=
  Z.of_nat (length (filter (λ r : row, cell c r.2 ≠ NaN) l)).

(** The cells of a country's row in the per-country frames. *)
Definition country_count_cells (f : Frame) (k : value) : cells :=
  [("Year_2", Num (column_count "Year" (rows_of k f))); ("inde", k)].

Definition country_var_cells (f : Frame) (k : value) : cells :=
  [("Year_2", Num (column_count "Year" (rows_of k f)));
   ("TD_2", Num (column_sum "Total Deaths" (rows_of k f)));
   ("num_inj", Num (column_sum "No Injured" (rows_of k f)));
   ("num_aff", Num (column_sum "No Affected" (rows_of k f)));
   ("num_homeless", Num (column_sum "No Homeless" (rows_of k f)));
   ("num_recon_costs", Num (column_sum "Reconstruction Costs ('000 US$)" (rows_of k f)));
   ("num_damages", Num (column_sum "Total Damages ('000 US$)" (rows_of k f)));
   ("inde", k)].

(** The per-country row a polygon is joined with, if any. *)
Definition partner (F : value → cells) (keys : list value) (k : value) : option cells :=
  if decide (k ∈ keys) then Some (F k) else None.

(** [out] is the left join of the country table [geo] with the per-country
    frame [agg] on [iso_a3] = [inde], zero-filled.  It has one row per
    polygon, in the table's order, with the polygon's own cells.  In the
    columns [filled], which come from the aggregation, a polygon carries the
    cells of the aggregation's row for its code, and 0 when the aggregation
    has no row for it.  The aggregation has one row per code. *)
Definition left_join_zero_filled (geo agg : Frame) (filled : list string)
    (out : Frame) : Prop :=
  length (rows out) = length (rows geo)
  ∧ NoDup (map (λ a : row, cell "inde" a.2) (rows agg))
  ∧ ∀ i g, rows geo !! i = Some g →
      ∃ r, rows out !! i = Some r
           ∧ (∀ c, c ∈ columns geo → cell c r.2 = fill (Num 0) (cell c g.2))
           ∧ (∀ a, a ∈ rows agg → cell "inde" a.2 = cell "iso_a3" g.2 →
                ∀ c, c ∈ filled → cell c r.2 = fill (Num 0) (cell c a.2))
           ∧ ((∀ a, a ∈ rows agg → cell "inde" a.2 ≠ cell "iso_a3" g.2) →
                ∀ c, c ∈ filled → cell c r.2 = Num 0).

(** Descending order of plotted values: each value at least (strictly: more
    than) the next. *)
Definition value_ge (a b : value) : Prop :=
  match a, b with Num x, Num y => y ≤ x | _, _ => False end.

Definition value_gt (a b : value) : Prop :=
  match a, b with Num x, Num y => y < x | _, _ => False end.

Definition descending (vs : list value) : Prop := Sorted value_ge vs.
Definition strictly_descending (vs : list value) : Prop := Sorted value_gt vs.

(** A row's value in column [c] is a number above [n]. *)
Definition exceeds (c : string) (n : Z) (r : row) : Prop :=
  match num_of (cell c r.2) with
  | Some z => n < z
  | None => False
  end.

Global Instance exceeds_dec c n r : Decision (exceeds c n r).
Proof. unfold exceeds. case_match; apply _. Defined.

(** The rows of the join with more than 5000 deaths and with both deaths and
    GDP per capita on record. *)
Definition major_complete (nd gdp : Frame) : list row :=
  filter (λ r : row, exceeds "Total Deaths" 5000 r
                     ∧ cell "Total Deaths" r.2 ≠ NaN
                     ∧ cell "GDP per capita" r.2 ≠ NaN)
         (rows (joined nd gdp)).

(** Reading a result off: the point sets of the figures shown, the pairs
    (country code, value of column [c]) of a map, and the pairs (country,
    value) of a bar chart. *)
Definition shown (g : list figure) : list (list (value * value)) :=
  map scatter_points g.

Definition polygon_values {E} (c : string) (r : E + Polygons) : list (value * value) :=
  match r with
  | inr p => points "iso_a3" c (polygons_data p)
  | inl _ => []
  end.

Definition bar_chart {E} (r : E + Polygons * Bars) : list (value * value) :=
  match r with
  | inr (_, b) => bars_entries b
  | inl _ => []
  end.

(** The years on record in a table, and a table all of whose years are
    numbers. *)
Definition years (f : Frame) : list Z :=
  omap (λ r : row, num_of (cell "Year" r.2)) (rows f).

Definition numeric_years (f : Frame) : Prop :=
  Forall (λ r : row, is_Some (num_of (cell "Year" r.2))) (rows f).

(** The aggregate of a metric of the selector over a list of rows, and what
    one row adds to it. *)
Definition metric_of (o : selector_opt) (l : list row) : Z :=
  if decide (group_op o = "sum") then column_sum (dep_var o) l
  else column_count (dep_var o) l.

Definition weight (o : selector_opt) (r : row) : Z :=
  if decide (group_op o = "sum") then default 0 (num_of (cell (dep_var o) r.2))
  else if decide (cell (dep_var o) r.2 ≠ NaN) then 1 else 0.

(** [map_distribution_cases]: the bounds of the date slider,
    [dt.datetime(Year.min(), 1, 1)] and [dt.datetime(Year.max() + 1, 1, 1)],
    or the first exception raised on the way. *)
Definition slider_bounds (f : Frame) : exn + datetime * datetime :=
  match dt_datetime (series_min (column "Year" f)) 1 1 with
  | inl e => inl e
  | inr min_date =>
      match dt_datetime (scalar_add (series_max (column "Year" f)) 1) 1 1 with
      | inl e => inl e
      | inr max_date => inr (min_date, max_date)
      end
  end.

(** [death_vs_gdp] read as a join of its two arguments: for every disaster
    row, the GDP rows of the same code and year, in the GDP table's order;
    a pair gives a point when the disaster has more than 5000 deaths and the
    GDP row a GDP per capita. *)
Definition inner_join_points (nd gdp : Frame) : list (value * value) :=
  rows nd ≫= λ d : row,
    filter (λ g : row, key_of ["Code"; "Year"] g.2 = key_of ["ISO"; "Year"] d.2) (rows gdp)
    ≫= λ g : row,
      if decide (exceeds "Total Deaths" 5000 d ∧ cell "GDP per capita" g.2 ≠ NaN)
      then [(cell "Total Deaths" d.2, cell "GDP per capita" g.2)] else [].

(** ** Judgements on computations *)

(** [m] never fails an [assert]. *)
Definition never_asserts {A} (m : M A) : Prop :=
  ∀ s, (m s).1 ≠ inl AssertionError.

(** [s] still holds every object of [s0], unchanged and at its reference,
    and the same country table on disk. *)
Definition kept (s0 s : state) : Prop :=
  take (length (heap s0)) (heap s) = heap s0
  ∧ naturalearth_lowres s = naturalearth_lowres s0.

(** A reference to an object that did not exist in [s0]. *)
Definition fresh (s0 : state) (v : pyval) : Prop :=
  match v with
  | Ref l => (length (heap s0) ≤ l)%nat
  | _ => False
  end.

(** Started from a store that kept [s0], [m] ends in one that kept [s0], and
    its result satisfies [Q]. *)
Definition keeps {A} (s0 : state) (m : M A) (Q : A → Prop) : Prop :=
  ∀ s, kept s0 s → kept s0 (m s).2 ∧ ∀ a, (m s).1 = inr a → Q a.

(** The dashboard at work: the callback run once for every change of the
    widgets, each run in the store the previous one left. *)
Definition recomputes (d : Dashboard) (events : list (datetime * datetime * option string))
    (s : state) : state :=
  foldl (λ s (e : datetime * datetime * option string),
           (recompute d e.1.1 e.1.2 e.2 s).2) s events.

(** *** Two runs side by side

    Two runs are compared, one started in [b1], the other in [b2].  The first
    [n0] objects are the ones both runs were given; the objects a run creates
    sit past the end of its starting store. *)
Section side_by_side.
Context (n0 : nat) (b1 b2 : state).

(** The stores of the two runs agree: on the objects given, on the objects
    created so far, on the country table, on the figures shown so far. *)
Definition sim (s1 s2 : state) : Prop :=
  take n0 (heap s1) = take n0 (heap b1)
  ∧ take n0 (heap s2) = take n0 (heap b1)
  ∧ drop (length (heap b1)) (heap s1) = drop (length (heap b2)) (heap s2)
  ∧ (length (heap b1) ≤ length (heap s1))%nat
  ∧ (length (heap b2) ≤ length (heap s2))%nat
  ∧ naturalearth_lowres s1 = naturalearth_lowres s2
  ∧ drop (length (figures b1)) (figures s1) = drop (length (figures b2)) (figures s2)
  ∧ (length (figures b1) ≤ length (figures s1))%nat
  ∧ (length (figures b2) ≤ length (figures s2))%nat.

(** Two references to the same created object, one in each run. *)
Definition vfresh (v1 v2 : pyval) : Prop :=
  ∃ i, v1 = Ref (length (heap b1) + i) ∧ v2 = Ref (length (heap b2) + i).

(** The same value in both runs: the same given object, the same created
    object, or the same plain value. *)
Definition vsim (v1 v2 : pyval) : Prop :=
  (v1 = v2 ∧ match v1 with Ref l => (l < n0)%nat | _ => True end) ∨ vfresh v1 v2.

Definition gsim (g1 g2 : GroupBy) : Prop :=
  vsim (grouped_obj g1) (grouped_obj g2) ∧ grouped_key g1 = grouped_key g2.

(** The two computations do the same in agreeing stores: they leave agreeing
    stores, and fail alike or return results related by [R]. *)
Definition rel {A} (R : A → A → Prop) (m1 m2 : M A) : Prop :=
  ∀ s1 s2, sim s1 s2 →
    sim (m1 s1).2 (m2 s2).2
    ∧ match (m1 s1).1, (m2 s2).1 with
      | inr a1, inr a2 => R a1 a2
      | inl e1, inl e2 => e1 = e2
      | _, _ => False
      end.
End side_by_side.

(** What a call created and what it drew. *)
Definition derived (s s' : state) : list Frame := drop (length (heap s)) (heap s').
Definition drawn (s s' : state) : list figure := drop (length (figures s)) (figures s').

(** Calling [m] again, in the store the first call left, gives the same
    result, the same derived tables and the same figures. *)
Definition same_again {A} (m : M A) (s : state) : Prop :=
  let s1 := (m s).2 in
  let s2 := (m s1).2 in
  (m s1).1 = (m s).1 ∧ derived s1 s2 = derived s s1 ∧ drawn s1 s2 = drawn s s1.

(** ** Sample tables *)

Definition disaster_columns : list string :=
  ["ISO"; "Year"; "Total Deaths"; "No Injured"; "No Affected"; "No Homeless";
   "Reconstruction Costs ('000 US$)"; "Total Damages ('000 US$)"].

Definition disaster (i : Z) (iso year deaths injured : value) : row :=
  (Num i, [("ISO", iso); ("Year", year); ("Total Deaths", deaths); ("No Injured", injured);
           ("No Affected", Num 10); ("No Homeless", NaN);
           ("Reconstruction Costs ('000 US$)", NaN); ("Total Damages ('000 US$)", Num 7)]).

Definition gdp_columns : list string := ["Entity"; "Code"; "Year"; "GDP per capita"].

Definition gdp_row (i : Z) (entity : string) (code year gdp : value) : row :=
  (Num i, [("Entity", Str entity); ("Code", code); ("Year", year); ("GDP per capita", gdp)]).

(** The columns of the Natural Earth low-resolution country table, and a few
    of its polygons; France is one of the countries it files under "-99". *)
Definition naturalearth_columns : list string :=
  ["pop_est"; "continent"; "name"; "iso_a3"; "gdp_md_est"; "geometry"].

Definition polygon (i : Z) (name iso : string) : row :=
  (Num i, [("pop_est", Num 1000); ("continent", Str "-"); ("name", Str name);
           ("iso_a3", Str iso); ("gdp_md_est", Num 1); ("geometry", Str "POLYGON")]).

Definition sample_world : Frame :=
  mkFrame naturalearth_columns
    [polygon 0 "United States of America" "USA"; polygon 1 "France" "-99";
     polygon 2 "China" "CHN"; polygon 3 "Haiti" "HTI"].

Definition sample_disasters : Frame :=
  mkFrame disaster_columns
    [disaster 0 (Str "HTI") (Num 2000) (Num 6000) (Num 5);
     disaster 1 (Str "USA") (Num 2000) (Num 3000) NaN;
     disaster 2 (Str "USA") (Num 2001) (Num 40) NaN;
     disaster 3 (Str "CHN") (Num 2000) NaN NaN;
     disaster 4 (Str "USA") (Num 2000) (Num 2) (Num 1)].

Definition sample_gdp : Frame :=
  mkFrame gdp_columns
    [gdp_row 0 "Haiti" (Str "HTI") (Num 2000) (Num 500);
     gdp_row 1 "United States" (Str "USA") (Num 2000) (Num 700)].

(** A store holding a disaster table at reference 0 and the GDP table at
    reference 1. *)
Definition state_of (f : Frame) : state := mkState [f; sample_gdp] sample_world [].

Definition sample_state : state := state_of sample_disasters.

(** One event whose year went unrecorded. *)
Definition undated_disasters : Frame :=
  mkFrame disaster_columns [disaster 0 (Str "USA") NaN (Num 12) NaN].

(** Two countries hit equally hard. *)
Definition tied_disasters : Frame :=
  mkFrame disaster_columns
    [disaster 0 (Str "USA") (Num 2000) (Num 5) NaN;
     disaster 1 (Str "CHN") (Num 2000) (Num 5) NaN].

Definition empty_disasters : Frame := mkFrame disaster_columns [].

(** A table with nothing but codes and years. *)
Definition bare_disasters : Frame :=
  mkFrame ["ISO"; "Year"]
    [(Num 0, [("ISO", Str "USA"); ("Year", Num 2000)]);
     (Num 1, [("ISO", Str "HTI"); ("Year", Num 2010)])].

(** A GDP table with two rows for one country and year. *)
Definition doubled_gdp : Frame :=
  mkFrame gdp_columns
    [gdp_row 0 "Haiti" (Str "HTI") (Num 2000) (Num 500);
     gdp_row 1 "Haiti" (Str "HTI") (Num 2000) (Num 510)].

(** * Properties *)

(** ** Running the monad *)

Lemma bind_run {A B} (m : M A) (k : A → M B) s a s' :
  m s = (inr a, s') → bind m k s = k a s'.
Proof. unfold bind. by intros ->. Qed.

Lemma bind_fail {A B} (m : M A) (k : A → M B) s e s' :
  m s = (inl e, s') → bind m k s = (inl e, s').
Proof. unfold bind. by intros ->. Qed.

Lemma deref_push_new f s : deref (push f s) (Ref (length (heap s))) = Some f.
Proof. simpl. by apply list_lookup_middle. Qed.

Lemma deref_push_old f s v g : deref s v = Some g → deref (push f s) v = Some g.
Proof. destruct v; simpl; try done. apply lookup_app_l_Some. Qed.

Lemma update_push f g s : update (length (heap s)) g (push f s) = push g s.
Proof.
  unfold update, push. simpl. f_equal.
  rewrite insert_app_r_alt by lia. by rewrite Nat.sub_diag.
Qed.

Create HintDb store discriminated.
#[local] Hint Resolve deref_push_new deref_push_old : store.

Lemma subseteq_singleton_list (c : string) (l : list string) : c ∈ l → [c] ⊆ l.
Proof. intros ? x Hx. apply list_elem_of_singleton in Hx. by subst. Qed.

Lemma subseteq_cons_list (c : string) (cs l : list string) : c ∈ l → cs ⊆ l → c :: cs ⊆ l.
Proof. intros ?? x [->|?]%elem_of_cons; auto. Qed.

#[local] Hint Resolve subseteq_singleton_list subseteq_cons_list : store.

Lemma require_columns_run cs f s :
  cs ⊆ columns f → require_columns cs f s = (inr tt, s).
Proof. intros. unfold require_columns. by rewrite decide_True. Qed.

Lemma require_columns_fail cs f s :
  ¬ cs ⊆ columns f → require_columns cs f s = (inl KeyError, s).
Proof. intros. unfold require_columns. by rewrite decide_False. Qed.

Lemma frame_of_run v f s : deref s v = Some f → frame_of v s = (inr f, s).
Proof. unfold frame_of. by intros ->. Qed.

Section primitives.
Context (s : state) (df : pyval) (f : Frame).
Hypothesis Hdf : deref s df = Some f.

Lemma pd_getitem_run c :
  c ∈ columns f → pd_getitem df c s = (inr (column c f), s).
Proof.
  intros. unfold pd_getitem.
  erewrite bind_run by by apply frame_of_run.
  erewrite bind_run by (apply require_columns_run; auto with store). done.
Qed.

Lemma pd_getitem_mask_run m :
  pd_getitem_mask df m s = (inr (Ref (length (heap s))), push (getitem_mask m f) s).
Proof. unfold pd_getitem_mask. by erewrite bind_run by by apply frame_of_run. Qed.

Lemma pd_getitem_columns_run cs :
  cs ⊆ columns f →
  pd_getitem_columns df cs s = (inr (Ref (length (heap s))), push (getitem_columns cs f) s).
Proof.
  intros. unfold pd_getitem_columns.
  erewrite bind_run by by apply frame_of_run.
  by erewrite bind_run by by apply require_columns_run.
Qed.

Lemma pd_dropna_run :
  pd_dropna df s = (inr (Ref (length (heap s))), push (dropna f) s).
Proof. unfold pd_dropna. by erewrite bind_run by by apply frame_of_run. Qed.

Lemma pd_fillna_run v :
  pd_fillna df v s = (inr (Ref (length (heap s))), push (fillna v f) s).
Proof. unfold pd_fillna. by erewrite bind_run by by apply frame_of_run. Qed.

Lemma pd_merge_run right r left_on right_on :
  deref s right = Some r → left_on ⊆ columns f → right_on ⊆ columns r →
  ¬ refused f r left_on right_on →
  pd_merge df right left_on right_on s
  = (inr (Ref (length (heap s))), push (merge_left f r left_on right_on) s).
Proof.
  intros. unfold pd_merge.
  do 2 erewrite bind_run by by apply frame_of_run.
  do 2 erewrite bind_run by by apply require_columns_run.
  by rewrite decide_False.
Qed.

Lemma pd_groupby_run key :
  key ∈ columns f → pd_groupby df key s = (inr (mkGroupBy df key), s).
Proof.
  intros. unfold pd_groupby.
  erewrite bind_run by by apply frame_of_run.
  erewrite bind_run by (apply require_columns_run; auto with store). done.
Qed.

Lemma groupby_sum_run key c :
  c ∈ columns f → ¬ holds_text c f →
  groupby_sum (mkGroupBy df key) c s = (inr (group_sum key c f), s).
Proof.
  intros. unfold groupby_sum.
  erewrite bind_run by by apply frame_of_run.
  erewrite bind_run by (apply require_columns_run; auto with store).
  by rewrite decide_False.
Qed.

Lemma groupby_count_run key c :
  c ∈ columns f → groupby_count (mkGroupBy df key) c s = (inr (group_count key c f), s).
Proof.
  intros. unfold groupby_count.
  erewrite bind_run by by apply frame_of_run.
  erewrite bind_run by (apply require_columns_run; auto with store). done.
Qed.

Lemma pd_rename_run m :
  pd_rename df m s = (inr (Ref (length (heap s))), push (rename_columns m f) s).
Proof. unfold pd_rename. by erewrite bind_run by by apply frame_of_run. Qed.

Lemma pd_index_run : pd_index df s = (inr (index f), s).
Proof. unfold pd_index. by erewrite bind_run by by apply frame_of_run. Qed.

Lemma pd_sort_values_desc_run c :
  c ∈ columns f →
  pd_sort_values_desc df c s = (inr (Ref (length (heap s))), push (sort_values_desc c f) s).
Proof.
  intros. unfold pd_sort_values_desc.
  erewrite bind_run by by apply frame_of_run.
  erewrite bind_run by (apply require_columns_run; auto with store). done.
Qed.

Lemma pd_iloc_head_run n :
  pd_iloc_head df n s = (inr (Ref (length (heap s))), push (iloc_head n f) s).
Proof. unfold pd_iloc_head. by erewrite bind_run by by apply frame_of_run. Qed.

Lemma plot_scatter_run x y :
  x ∈ columns f → y ∈ columns f →
  plot_scatter df x y s
  = (inr tt, show (Scatter x y (map (λ r : row, (cell x r.2, cell y r.2)) (rows f))) s).
Proof.
  intros. unfold plot_scatter.
  erewrite bind_run by by apply frame_of_run.
  erewrite bind_run by (apply require_columns_run; auto with store). done.
Qed.

Lemma gv_Polygons_run vdims ci size :
  gv_Polygons df vdims ci size s = (inr (mkPolygons f vdims ci size), s).
Proof. unfold gv_Polygons. by erewrite bind_run by by apply frame_of_run. Qed.

Lemma hv_Bars_run kdim vdim size :
  hv_Bars df kdim vdim size s = (inr (mkBars f kdim vdim size), s).
Proof. unfold hv_Bars. by erewrite bind_run by by apply frame_of_run. Qed.

Lemma isinstance_DataFrame_run :
  isinstance_DataFrame df s = (inr true, s).
Proof.
  unfold isinstance_DataFrame, is_DataFrame. rewrite Hdf.
  by rewrite bool_decide_eq_true_2.
Qed.
End primitives.

(** Comparing a column of numbers. *)
Lemma series_holds_text_column c f : series_holds_text (column c f) ↔ holds_text c f.
Proof. unfold series_holds_text, column, holds_text. by rewrite Exists_fmap. Qed.

Lemma number_column_no_text c f : number_column c f ↔ ¬ holds_text c f.
Proof.
  unfold number_column, holds_text. split.
  - apply Forall_not_Exists.
  - apply not_Exists_Forall. intros ?; apply _.
Qed.

Lemma compare_run p c f (s : state) :
  number_column c f → lift (compare p (column c f)) s = (inr (truth p (column c f)), s).
Proof.
  intros H%number_column_no_text. unfold compare.
  rewrite decide_False; [done|]. by rewrite series_holds_text_column.
Qed.

Lemma compare_fail p c f (s : state) :
  holds_text c f → lift (compare p (column c f)) s = (inl TypeError, s).
Proof.
  intros H. unfold compare. rewrite decide_True; [done|].
  by rewrite series_holds_text_column.
Qed.

Lemma setitem_last_run f s c vals :
  setitem (Ref (length (heap s))) c vals (push f s) = (inr tt, push (set_column c vals f) s).
Proof.
  unfold setitem. erewrite bind_run by (apply frame_of_run, deref_push_new).
  by rewrite update_push.
Qed.

Lemma pd_DataFrame_run d s :
  pd_DataFrame d s = (inr (Ref (length (heap s))), push (DataFrame_of_dict d) s).
Proof. done. Qed.

Lemma read_naturalearth_lowres_run s :
  read_naturalearth_lowres s
  = (inr (Ref (length (heap s))), push (naturalearth_lowres s) s).
Proof. done. Qed.

(** ** Tactics, and columns of the derived frames *)

Ltac run lem := erewrite bind_run by (eapply lem; eauto with store).

Ltac in_list :=
  apply list_elem_of_In; simpl; by repeat first [ left; reflexivity | left; assumption | right ].
Ltac in_list_of H := repeat (destruct H as [<-|H]; [in_list|]); destruct H.

Ltac decide_it := apply (bool_decide_unpack _); vm_compute; exact I.

(** Column names of the derived frames are literals: membership is computed. *)
Ltac has_columns :=
  repeat first [ apply subseteq_singleton_list | apply subseteq_cons_list ];
  try assumption; try (apply (bool_decide_unpack _); vm_compute; exact I).

Lemma country_count_frame_columns f : columns (country_count_frame f) = ["Year_2"; "inde"].
Proof. reflexivity. Qed.

Lemma columns_merge_left l r lo ro c :
  c ∈ columns (merge_left l r lo ro) ↔
  (c ∈ columns l ∧ (c ∉ columns r ∨ c ∈ same_keys lo ro)) ∨ (c ∈ columns r ∧ c ∉ columns l).
Proof. simpl. rewrite elem_of_app, !list_elem_of_filter. tauto. Qed.

Lemma selector_opts_cases vis o :
  dict_get vis selector_opts = Some o → (vis, o) ∈ selector_opts.
Proof.
  unfold selector_opts. cbn [dict_get].
  repeat case_decide; intros [= <-]; subst vis; in_list.
Qed.

Lemma country_var_frame_columns f :
  columns (country_var_frame f)
  = ["Year_2"; "TD_2"; "num_inj"; "num_aff"; "num_homeless"; "num_recon_costs";
     "num_damages"; "inde"].
Proof. reflexivity. Qed.

Lemma alias_in_country_var vis o f :
  dict_get vis selector_opts = Some o → dep_var_2 o ∈ columns (country_var_frame f).
Proof.
  intros H%selector_opts_cases. rewrite country_var_frame_columns.
  apply list_elem_of_In in H. simpl in H.
  repeat (destruct H as [[= <- <-]|H]; [in_list|]).
  done.
Qed.

(** ** Frames: masks, groups, labels *)

Lemma select_map {A} (p : A → bool) (l : list A) :
  select (map p l) l = filter (λ x, p x) l.
Proof.
  induction l as [|x l IH]; [done|]. simpl. rewrite IH.
  destruct (p x) eqn:E.
  - rewrite filter_cons_True; [done|rewrite E; exact I].
  - rewrite filter_cons_False; [done|rewrite E; intros []].
Qed.

Lemma rows_restricted a b f :
  rows (restricted a b f) = filter (in_range a b) (rows f).
Proof.
  unfold restricted, getitem_mask, mask_and, truth, column.
  cbn [rows]. rewrite !map_map.
  rewrite zip_with_fmap_l, zip_with_fmap_r, zip_with_diag.
  change (λ x : row, ?g x) with g. 
  rewrite (select_map (λ r : row,
     from_option (λ z, bool_decide (a ≤ z)) false (num_of (cell "Year" r.2))
     && from_option (λ z, bool_decide (z ≤ b)) false (num_of (cell "Year" r.2)))).
  apply list_filter_iff. intros r. unfold in_range.
  destruct (num_of (cell "Year" r.2)); simpl; [|tauto].
  rewrite andb_True, !bool_decide_spec. tauto.
Qed.

Lemma columns_restricted a b f : columns (restricted a b f) = columns f.
Proof. done. Qed.

Lemma elem_of_group_keys key f k :
  k ∈ group_keys key f ↔ k ≠ NaN ∧ ∃ r, r ∈ rows f ∧ cell key r.2 = k.
Proof.
  unfold group_keys. rewrite merge_sort_Permutation, elem_of_remove_dups.
  rewrite list_elem_of_filter, list_elem_of_fmap.
  split; intros [? (r & ? & ?)]; eauto.
Qed.

Lemma NoDup_group_keys key f : NoDup (group_keys key f).
Proof. unfold group_keys. rewrite merge_sort_Permutation. apply NoDup_remove_dups. Qed.

Lemma group_keys_nil key cs : group_keys key (mkFrame cs []) = [].
Proof. reflexivity. Qed.

Lemma at_label_tabulate (h : value → value) (keys : list value) k :
  k ∈ keys → at_label k (map (λ k, (k, h k)) keys) = h k.
Proof.
  induction keys as [|k' keys IH]; [by intros ?%elem_of_nil|].
  simpl. case_decide; [by subst|]. intros [?|?]%elem_of_cons; [by subst|auto].
Qed.

Lemma zip_with_map_map {A B C D} (g : B → C → D) (u : A → B) (v : A → C) (l : list A) :
  zip_with g (map u l) (map v l) = map (λ x, g (u x) (v x)) l.
Proof. induction l; simpl; congruence. Qed.

Lemma rows_country_count_frame f :
  rows (country_count_frame f)
  = map (λ k, (k, country_count_cells f k)) (group_keys "ISO" f).
Proof.
  unfold country_count_frame, set_column, index, rename_columns, DataFrame_of_dict, group_count.
  cbn [rows columns map fst snd]. rewrite !map_map. cbn [fst snd].
  rewrite zip_with_map_map.
  apply map_ext_in. intros k Hk%list_elem_of_In. cbn.
  rewrite (at_label_tabulate (λ k, Num _)) by done. done.
Qed.

Lemma rows_country_var_frame f :
  rows (country_var_frame f)
  = map (λ k, (k, country_var_cells f k)) (group_keys "ISO" f).
Proof.
  unfold country_var_frame, set_column, index, rename_columns, DataFrame_of_dict.
  change (country_var_dict_of f) with
    [("Year", group_count "ISO" "Year" f);
     ("Total Deaths", group_sum "ISO" "Total Deaths" f);
     ("No Injured", group_sum "ISO" "No Injured" f);
     ("No Affected", group_sum "ISO" "No Affected" f);
     ("No Homeless", group_sum "ISO" "No Homeless" f);
     ("Reconstruction Costs ('000 US$)", group_sum "ISO" "Reconstruction Costs ('000 US$)" f);
     ("Total Damages ('000 US$)", group_sum "ISO" "Total Damages ('000 US$)" f)].
  unfold group_count, group_sum.
  cbn [rows columns map fst snd]. rewrite !map_map. cbn [fst snd].
  rewrite zip_with_map_map.
  apply map_ext_in. intros k Hk%list_elem_of_In. cbn.
  rewrite (at_label_tabulate (λ k, Num (Z.of_nat _))) by done.
  rewrite !(at_label_tabulate (λ k, Num (sumZ _))) by done. done.
Qed.

(** ** Cells *)

Lemma cell_tabulate (h : string → value) cs c :
  cell c (map (λ c, (c, h c)) cs) = if decide (c ∈ cs) then h c else NaN.
Proof.
  induction cs as [|c' cs IH]; [done|]. simpl.
  destruct (decide (c' = c)) as [->|Hne].
  - by rewrite decide_True by apply list_elem_of_here.
  - rewrite IH. destruct (decide (c ∈ cs)).
    + rewrite decide_True; [done|]. by apply list_elem_of_further.
    + rewrite decide_False; [done|]. intros [?|?]%elem_of_cons; [congruence|done].
Qed.

Lemma names_tabulate (h : string → value) (cs : list string) :
  (map (λ c, (c, h c)) cs).*1 = cs.
Proof. induction cs as [|c cs IH]; [done|]. csimpl. by f_equal. Qed.

Lemma cell_app c (a b : cells) :
  cell c (a ++ b) = if decide (c ∈ a.*1) then cell c a else cell c b.
Proof.
  induction a as [|[n v] a IH]; [done|]. simpl.
  destruct (decide (n = c)) as [->|Hne].
  - by rewrite decide_True by apply list_elem_of_here.
  - rewrite IH. destruct (decide (c ∈ a.*1)).
    + rewrite decide_True; [done|]. by apply list_elem_of_further.
    + rewrite decide_False; [done|]. intros [?|?]%elem_of_cons; [congruence|done].
Qed.

Lemma cell_fill v c (r : cells) :
  c ∈ r.*1 → cell c (map (λ e : string * value, (e.1, fill v e.2)) r) = fill v (cell c r).
Proof.
  induction r as [|[n x] r IH]; [by intros ?%elem_of_nil|]. simpl.
  destruct (decide (n = c)); [done|]. intros [?|?]%elem_of_cons; [congruence|auto].
Qed.

Lemma merge_cells_names lcols rcols l m :
  (merge_cells lcols rcols l m).*1 = lcols ++ rcols.
Proof. unfold merge_cells. by rewrite fmap_app, !names_tabulate. Qed.

Lemma cell_merge_left lcols rcols l m c :
  c ∈ lcols → cell c (merge_cells lcols rcols l m) = cell c l.
Proof.
  intros Hc. unfold merge_cells.
  rewrite cell_app, names_tabulate, decide_True, cell_tabulate, decide_True; done.
Qed.

Lemma cell_merge_right lcols rcols l m c :
  c ∉ lcols → c ∈ rcols →
  cell c (merge_cells lcols rcols l m) = from_option (cell c) NaN m.
Proof.
  intros Hl Hr. unfold merge_cells.
  rewrite cell_app, names_tabulate, decide_False, cell_tabulate, decide_True; done.
Qed.

(** ** Joining the polygons with a per-country frame *)

Lemma bind_singletons {A B} (g : A → list B) (h : A → B) (l : list A) :
  (∀ x, g x = [h x]) → l ≫= g = map h l.
Proof. intros Hg. induction l as [|x l IH]; [done|]. by rewrite bind_cons, Hg, IH. Qed.

Lemma matches_unique (F : value → cells) (keys : list value) x :
  NoDup keys → (∀ k, k ∈ keys → cell "inde" (F k) = k) →
  filter (λ r : row, key_of ["inde"] r.2 = [x]) (map (λ k, (k, F k)) keys)
  = if decide (x ∈ keys) then [(x, F x)] else [].
Proof.
  intros Hnd HF. induction Hnd as [|k keys Hk Hnd IH]; [done|].
  cbn [map]. rewrite filter_cons.
  rewrite IH by (intros; apply HF; by apply list_elem_of_further).
  cbn [key_of map snd]. rewrite HF by apply list_elem_of_here.
  destruct (decide (k = x)) as [->|Hne].
  - rewrite (decide_True (P := [x] = [x])) by done.
    rewrite (decide_False (P := x ∈ keys)) by done.
    by rewrite decide_True by apply list_elem_of_here.
  - rewrite (decide_False (P := [k] = [x])) by congruence.
    destruct (decide (x ∈ keys)).
    + rewrite decide_True; [done|]. by apply list_elem_of_further.
    + rewrite decide_False; [done|]. intros [?|?]%elem_of_cons; [congruence|done].
Qed.

Lemma rows_merge_unique geo cv (F : value → cells) keys :
  rows cv = map (λ k, (k, F k)) keys →
  NoDup keys → (∀ k, k ∈ keys → cell "inde" (F k) = k) →
  let lcols := filter (λ c, c ∉ columns cv ∨ c ∈ same_keys ["iso_a3"] ["inde"]) (columns geo) in
  let rcols := filter (λ c, c ∉ columns geo) (columns cv) in
  rows (merge_left geo cv ["iso_a3"] ["inde"])
  = range_index (map (λ g : row, merge_cells lcols rcols g.2
                                   (partner F keys (cell "iso_a3" g.2)))
                     (rows geo)).
Proof.
  intros Hrows Hnd HF lcols rcols. unfold merge_left. cbn [rows]. f_equal.
  apply bind_singletons. intros g. rewrite Hrows.
  change (key_of ["iso_a3"] g.2) with [cell "iso_a3" g.2].
  rewrite matches_unique by done. unfold partner.
  by destruct (decide (cell "iso_a3" g.2 ∈ keys)).
Qed.

Section polygons.
Context (geo cv : Frame) (F : value → cells) (keys : list value).
Hypothesis Hrows : rows cv = map (λ k, (k, F k)) keys.
Hypothesis Hnodup : NoDup keys.
Hypothesis Hinde : ∀ k, k ∈ keys → cell "inde" (F k) = k.
Hypothesis Hgeo : geo_ok geo (columns cv).

Lemma geo_disjoint c : c ∈ columns geo → c ∉ columns cv.
Proof. destruct Hgeo as [_ H]. rewrite list.Forall_forall in H. apply H. Qed.

Lemma length_world :
  length (rows (fillna (Num 0) (merge_left geo cv ["iso_a3"] ["inde"]))) = length (rows geo).
Proof.
  unfold fillna. cbn [rows]. rewrite length_map.
  rewrite (rows_merge_unique geo cv F keys) by done. unfold range_index.
  by rewrite length_imap, length_map.
Qed.

(** Every polygon is kept, in place; its own cells are kept; the
    per-country cells are those of its partner, or 0 without one. *)
Lemma world_row i g :
  rows geo !! i = Some g →
  ∃ r, rows (fillna (Num 0) (merge_left geo cv ["iso_a3"] ["inde"])) !! i = Some r
       ∧ (∀ c, c ∈ columns geo → cell c r.2 = fill (Num 0) (cell c g.2))
       ∧ (∀ c, c ∈ columns cv →
            cell c r.2 = fill (Num 0) (from_option (cell c) NaN
                                         (partner F keys (cell "iso_a3" g.2)))).
Proof.
  intros Hg. unfold fillna. cbn [rows].
  rewrite (rows_merge_unique geo cv F keys) by done. unfold range_index.
  rewrite list_lookup_fmap, list_lookup_imap, list_lookup_fmap, Hg. cbn.
  eexists. split; [done|]. cbn [snd].
  split; intros c Hc.
  - rewrite cell_fill.
    + rewrite cell_merge_left; [done|].
      apply list_elem_of_filter. split; [|done]. left. by apply geo_disjoint.
    + rewrite merge_cells_names. apply elem_of_app. left.
      apply list_elem_of_filter. split; [|done]. left. by apply geo_disjoint.
  - assert (Hng : c ∉ columns geo) by (intros ?; by apply (geo_disjoint c)).
    rewrite cell_fill.
    + rewrite cell_merge_right; [done| |].
      * intros [_ ?]%list_elem_of_filter. done.
      * by apply list_elem_of_filter.
    + rewrite merge_cells_names. apply elem_of_app. right.
      by apply list_elem_of_filter.
Qed.
End polygons.

(** ** The per-country frames *)

Lemma index_country_count_frame f : index (country_count_frame f) = group_keys "ISO" f.
Proof.
  unfold index. rewrite rows_country_count_frame, map_map. apply map_id.
Qed.

Lemma index_country_var_frame f : index (country_var_frame f) = group_keys "ISO" f.
Proof.
  unfold index. rewrite rows_country_var_frame, map_map. apply map_id.
Qed.

Lemma filter_none {A} (P : A → Prop) `{!∀ x, Decision (P x)} (l : list A) :
  (∀ x, x ∈ l → ¬ P x) → filter P l = [].
Proof.
  induction l as [|x l IH]; [done|]. intros Hl.
  rewrite filter_cons_False by apply Hl, list_elem_of_here.
  apply IH. intros y Hy. by apply Hl, list_elem_of_further.
Qed.

Lemma rows_of_absent k f :
  k ≠ NaN → k ∉ group_keys "ISO" f → rows_of k f = [].
Proof.
  intros Hk Hn. unfold rows_of. apply filter_none.
  intros r Hr Heq. apply Hn, elem_of_group_keys. eauto.
Qed.

Lemma column_count_populated c (l : list row) :
  Forall (λ r : row, cell c r.2 ≠ NaN) l → column_count c l = Z.of_nat (length l).
Proof.
  intros H. unfold column_count. f_equal. f_equal.
  induction H as [|r l Hr Hl IH]; [done|]. by rewrite filter_cons_True, IH.
Qed.

Lemma column_sum_missing c (l : list row) :
  Forall (λ r : row, cell c r.2 = NaN) l → column_sum c l = 0.
Proof.
  intros H. unfold column_sum.
  induction H as [|r l Hr Hl IH]; [done|]. cbn. by rewrite Hr.
Qed.

Lemma partner_country_count f c k :
  k ≠ NaN → c ∈ country_count_columns →
  fill (Num 0) (from_option (cell c) NaN
                  (partner (country_count_cells f) (group_keys "ISO" f) k))
  = if decide (c = "inde")
    then (if decide (k ∈ group_keys "ISO" f) then k else Num 0)
    else Num (column_count "Year" (rows_of k f)).
Proof.
  intros Hk Hc. unfold partner.
  destruct (decide (k ∈ group_keys "ISO" f)) as [Hin|Hout]; cbn [from_option].
  - apply list_elem_of_In in Hc. simpl in Hc.
    destruct Hc as [<-|[<-|[]]]; cbn; [done|]. by destruct k.
  - rewrite rows_of_absent by done.
    by destruct (decide (c = "inde")).
Qed.

(** ** Typed tables *)

Lemma Forall_select {A} (P : A → Prop) (m : list bool) (l : list A) :
  Forall P l → Forall P (select m l).
Proof.
  intros H. revert m. induction H as [|x l Hx Hl IH]; intros [|b m]; try constructor.
  cbn [select]. destruct b; [by constructor|done].
Qed.

Lemma number_column_getitem_mask c m f :
  number_column c f → number_column c (getitem_mask m f).
Proof. apply Forall_select. Qed.

Lemma no_text_getitem_mask c m f : ¬ holds_text c f → ¬ holds_text c (getitem_mask m f).
Proof. rewrite <- !number_column_no_text. apply number_column_getitem_mask. Qed.

Lemma no_text_no_rows c f : rows f = [] → ¬ holds_text c f.
Proof. intros H. unfold holds_text. rewrite H. by intros ?%Exists_nil. Qed.

Lemma typed_measure c f : typed f → c ∈ measures → number_column c f.
Proof. intros [_ H]. rewrite list.Forall_forall in H. apply H. Qed.

Lemma typed_year f : typed f → number_column "Year" f.
Proof. intros H. apply typed_measure; [done|]. decide_it. Qed.

Lemma typed_summed c f : typed f → c ∈ summed → ¬ holds_text c f.
Proof.
  intros H Hc. apply number_column_no_text, typed_measure; [done|].
  apply list_elem_of_fmap in Hc as (e & -> & [_ He]%list_elem_of_filter).
  apply list_elem_of_fmap. by exists e.
Qed.

Lemma not_a_number_is_text (v : value) : v ≠ NaN → ¬ is_number v → is_text v.
Proof. by destruct v. Qed.

Lemma group_key_is_text f k :
  text_column "ISO" f → k ∈ group_keys "ISO" f → is_text k.
Proof.
  intros Ht [Hk (r & Hr & <-)]%elem_of_group_keys.
  apply not_a_number_is_text; [done|]. unfold text_column in Ht.
  rewrite list.Forall_forall in Ht. by apply Ht.
Qed.

(** No merge below is refused. *)
Lemma not_refused_no_rows l r lo ro : rows l = [] ∨ rows r = [] → ¬ refused l r lo ro.
Proof. intros [H|H] (Hl & Hr & _); congruence. Qed.

Lemma not_refused_codes geo cv :
  coded geo → (∀ a, a ∈ rows cv → is_text (cell "inde" a.2)) →
  ¬ refused geo cv ["iso_a3"] ["inde"].
Proof.
  intros Hgeo Hcv (Hl & Hr & Hex). cbn [zip zip_with] in Hex.
  apply Exists_cons in Hex as [Hex|[]%Exists_nil]. apply Hex. cbn [fst snd]. split; intros _.
  - destruct (rows cv) as [|a l] eqn:E; [done|]. unfold holds_text. rewrite E.
    apply Exists_cons_hd, Hcv, list_elem_of_here.
  - destruct (rows geo) as [|g l] eqn:E; [done|]. unfold holds_text. rewrite E.
    apply Exists_cons_hd. unfold coded in Hgeo. rewrite E in Hgeo.
    by apply Forall_cons_1 in Hgeo as [? _].
Qed.

Lemma not_refused_country_count geo f :
  coded geo → text_column "ISO" f →
  ¬ refused geo (country_count_frame f) ["iso_a3"] ["inde"].
Proof.
  intros Hgeo Ht. apply not_refused_codes; [done|].
  intros a Ha. rewrite rows_country_count_frame in Ha.
  apply list_elem_of_fmap in Ha as (k & -> & Hk). by apply (group_key_is_text f).
Qed.

Lemma not_refused_country_var geo f :
  coded geo → text_column "ISO" f →
  ¬ refused geo (country_var_frame f) ["iso_a3"] ["inde"].
Proof.
  intros Hgeo Ht. apply not_refused_codes; [done|].
  intros a Ha. rewrite rows_country_var_frame in Ha.
  apply list_elem_of_fmap in Ha as (k & -> & Hk). by apply (group_key_is_text f).
Qed.

Lemma not_refused_joinable nd gdp :
  joinable nd gdp → ¬ refused nd gdp ["ISO"; "Year"] ["Code"; "Year"].
Proof.
  intros (_ & _ & Hy1%number_column_no_text & Hy2%number_column_no_text & _ & _ & Hk)
         (Hl & Hr & Hex).
  cbn [zip zip_with] in Hex.
  apply Exists_cons in Hex as [Hex|Hex]; cbn [fst snd] in Hex.
  - destruct Hk as [?|[?|Hk]]; done.
  - apply Exists_cons in Hex as [Hex|[]%Exists_nil]. cbn [fst snd] in Hex. tauto.
Qed.

(** The cells of a merged row. *)
Lemma cell_merge_cells lcols rcols l m c :
  cell c (merge_cells lcols rcols l m)
  = if decide (c ∈ lcols) then cell c l
    else if decide (c ∈ rcols) then from_option (cell c) NaN m else NaN.
Proof.
  unfold merge_cells. rewrite cell_app, names_tabulate, !cell_tabulate.
  by destruct (decide (c ∈ lcols)).
Qed.

Lemma number_column_merge_left c l r lo ro :
  number_column c l → number_column c r → number_column c (merge_left l r lo ro).
Proof.
  intros Hl Hr. unfold number_column, merge_left, range_index in *. cbn [rows].
  rewrite list.Forall_forall in Hl, Hr. apply list.Forall_forall.
  intros x (i & Hi)%list_elem_of_lookup_1. rewrite list_lookup_imap in Hi.
  destruct (_ !! i) as [cs|] eqn:Hcs; [|done]. injection Hi as <-. cbn [snd].
  apply list_elem_of_lookup_2, list_elem_of_bind in Hcs as (d & Hcs & Hd).
  assert (Hcell : ∀ m, (∀ g, m = Some g → ∃ g', g' ∈ rows r ∧ g = g'.2) →
            ¬ is_text (cell c (merge_cells
               (filter (λ c, c ∉ columns r ∨ c ∈ same_keys lo ro) (columns l))
               (filter (λ c, c ∉ columns l) (columns r)) d.2 m))).
  { intros m Hm. rewrite cell_merge_cells. repeat case_decide; [by apply Hl| |by intros []].
    destruct m as [g|]; [|by intros []]. destruct (Hm g eq_refl) as (g' & Hg' & ->).
    by apply Hr. }
  destruct (filter _ (rows r)) as [|g ms] eqn:Hms.
  - apply list_elem_of_singleton in Hcs as ->. apply Hcell. by intros ? [=].
  - apply list_elem_of_fmap in Hcs as (g' & -> & Hin). apply Hcell.
    intros ? [= <-]. exists g'. split; [|done]. rewrite <- Hms in Hin.
    by apply list_elem_of_filter in Hin as [_ ?].
Qed.

Lemma number_column_joined nd gdp :
  joinable nd gdp → "Total Deaths" ∉ columns gdp →
  number_column "Total Deaths" (joined nd gdp).
Proof.
  intros (_ & _ & _ & _ & Hd & _) Hn. unfold joined, number_column, merge_left, range_index.
  cbn [rows]. unfold number_column in Hd. rewrite list.Forall_forall in Hd.
  apply list.Forall_forall.
  intros x (i & Hi)%list_elem_of_lookup_1. rewrite list_lookup_imap in Hi.
  destruct (_ !! i) as [cs|] eqn:Hcs; [|done]. injection Hi as <-. cbn [snd].
  apply list_elem_of_lookup_2, list_elem_of_bind in Hcs as (d & Hcs & Hdin).
  assert (Hcell : ∀ m,
            ¬ is_text (cell "Total Deaths" (merge_cells
               (filter (λ c, c ∉ columns gdp ∨ c ∈ same_keys ["ISO"; "Year"] ["Code"; "Year"])
                       (columns nd))
               (filter (λ c, c ∉ columns nd) (columns gdp)) d.2 m))).
  { intros m. rewrite cell_merge_cells. case_decide; [by apply Hd|].
    rewrite decide_False; [by intros []|]. by intros [_ ?]%list_elem_of_filter. }
  destruct (filter _ (rows gdp)) as [|g ms] eqn:Hms.
  - by apply list_elem_of_singleton in Hcs as ->.
  - by apply list_elem_of_fmap in Hcs as (g' & -> & Hin).
Qed.

(** ** The reporters compute the derived frames *)

Lemma major_disaster_distribution_run s df f :
  deref s df = Some f →
  "ISO" ∈ columns f → "Year" ∈ columns f →
  "iso_a3" ∈ columns (naturalearth_lowres s) →
  ¬ refused (naturalearth_lowres s) (country_count_frame f) ["iso_a3"] ["inde"] →
  let geo := naturalearth_lowres s in
  let merged := merge_left geo (country_count_frame f) ["iso_a3"] ["inde"] in
  major_disaster_distribution df s
  = (inr (mkPolygons (distribution_world geo f)
                     [("Year_2", "# disasters"); ("name", "Country")] None (Some (600, 500))),
     push (distribution_world geo f)
       (push merged
          (push (country_count_frame f)
             (push (DataFrame_of_dict [("Year", group_count "ISO" "Year" f)])
                (push geo s))))).
Proof.
  intros Hdf HISO HYear Hgeo Hacc geo merged. unfold major_disaster_distribution.
  run isinstance_DataFrame_run. run (@eq_refl _ (assert true s)).
  run pd_groupby_run. run groupby_count_run.
  run read_naturalearth_lowres_run. run pd_DataFrame_run.
  run pd_rename_run. run pd_index_run. run setitem_last_run.
  erewrite bind_run; cycle 1.
  { eapply pd_merge_run; eauto with store. has_columns. }
  run pd_fillna_run.
  erewrite gv_Polygons_run by eauto with store. done.
Qed.

Lemma death_vs_gdp_run s v1 v2 nd gdp :
  deref s v1 = Some nd → deref s v2 = Some gdp →
  ["ISO"; "Year"; "Total Deaths"] ⊆ columns nd →
  ["Code"; "Year"; "GDP per capita"] ⊆ columns gdp →
  "Total Deaths" ∉ columns gdp → "GDP per capita" ∉ columns nd →
  ¬ refused nd gdp ["ISO"; "Year"] ["Code"; "Year"] →
  number_column "Total Deaths" (joined nd gdp) →
  death_vs_gdp v1 v2 s
  = (inr tt,
     show (Scatter "Total Deaths" "GDP per capita"
                   (points "Total Deaths" "GDP per capita" (deaths_gdp nd gdp)))
       (push (deaths_gdp nd gdp)
          (push (getitem_columns ["Total Deaths"; "GDP per capita"] (major nd gdp))
             (push (major nd gdp) (push (joined nd gdp) s))))).
Proof.
  intros H1 H2 Hnd Hgdp Hd Hg Hacc Hnum. unfold death_vs_gdp.
  assert (Hjd : "Total Deaths" ∈ columns (joined nd gdp)).
  { apply columns_merge_left. left. split; [apply Hnd; in_list|by left]. }
  assert (Hjg : "GDP per capita" ∈ columns (joined nd gdp)).
  { apply columns_merge_left. right. split; [apply Hgdp; in_list|done]. }
  run isinstance_DataFrame_run. run (@eq_refl _ (assert true s)).
  run isinstance_DataFrame_run. run (@eq_refl _ (assert true s)).
  erewrite bind_run; cycle 1.
  { eapply pd_merge_run; eauto with store; intros c Hc; [apply Hnd|apply Hgdp];
    apply list_elem_of_In in Hc; simpl in Hc; in_list_of Hc. }
  run pd_getitem_run. erewrite bind_run by by apply compare_run.
  run pd_getitem_mask_run.
  erewrite bind_run; cycle 1.
  { eapply pd_getitem_columns_run; eauto with store. }
  run pd_dropna_run.
  erewrite plot_scatter_run; eauto with store; by has_columns.
Qed.

Lemma aggregate_run s df f :
  deref s df = Some f → dashboard_columns ⊆ columns f →
  (∀ c, c ∈ summed → ¬ holds_text c f) →
  aggregate (mkGroupBy df "ISO") (dict_keys selector_opts) [] s
  = (inr (country_var_dict_of f), s).
Proof.
  intros Hdf Hc Hnum.
  assert (Hin : ∀ c, c ∈ dashboard_columns → c ∈ columns f) by exact Hc.
  cbn [aggregate dict_keys selector_opts map fst].
  repeat (erewrite bind_run by reflexivity;
          cbn [group_op dep_var];
          rewrite ?decide_True by done; rewrite ?decide_False by done;
          rewrite ?decide_True by done;
          erewrite bind_run;
          [| erewrite bind_run;
             [reflexivity
             | first [ eapply groupby_sum_run | eapply groupby_count_run ]; eauto;
               first [ apply Hin; in_list | apply Hnum; decide_it ] ] ]).
  reflexivity.
Qed.

Lemma major_disaster_map_run s df f start_time end_time vis o :
  deref s df = Some f →
  "Year" ∈ columns f → dashboard_columns ⊆ columns f →
  "iso_a3" ∈ columns (naturalearth_lowres s) →
  dict_get vis selector_opts = Some o →
  let geo := naturalearth_lowres s in
  let rf := restricted (year start_time) (year end_time) f in
  number_column "Year" f →
  (∀ c, c ∈ summed → ¬ holds_text c rf) →
  ¬ refused geo (country_var_frame rf) ["iso_a3"] ["inde"] →
  major_disaster_map df start_time end_time (Some vis) s
  = (inr (mkPolygons (dashboard_world geo rf) keyDims (Some (dep_var_2 o)) (Some (width, height)),
          mkBars (top10 (dep_var_2 o) rf) ("inde", "Country")
                 (dep_var_2 o, feature_name o) (width, height)),
     push (top10 (dep_var_2 o) rf)
       (push (sort_values_desc (dep_var_2 o) (country_var_frame rf))
          (push (dashboard_world geo rf)
             (push (merge_left geo (country_var_frame rf) ["iso_a3"] ["inde"])
                (push (country_var_frame rf)
                   (push (DataFrame_of_dict (country_var_dict_of rf))
                      (push geo (push rf s)))))))).
Proof.
  intros Hdf HYear Hcols Hgeo Hvis geo rf Hnum Hsum Hacc. unfold major_disaster_map.
  run pd_getitem_run. erewrite bind_run by by apply compare_run.
  run pd_getitem_run. erewrite bind_run by by apply compare_run.
  run pd_getitem_mask_run.
  erewrite bind_run; cycle 1.
  { eapply pd_groupby_run; eauto with store. apply Hcols. in_list. }
  run aggregate_run.
  run read_naturalearth_lowres_run. run pd_DataFrame_run.
  run pd_rename_run. run pd_index_run. run setitem_last_run.
  erewrite bind_run; cycle 1.
  { eapply pd_merge_run; eauto with store. has_columns. }
  run pd_fillna_run.
  assert (Hget : ∀ s', dict_getitem selector_opts (Some vis) s' = (inr o, s')).
  { intros s'. unfold dict_getitem. by rewrite Hvis. }
  erewrite bind_run by apply Hget.
  run gv_Polygons_run.
  erewrite bind_run by apply Hget.
  erewrite bind_run; cycle 1.
  { eapply pd_sort_values_desc_run; eauto with store.
    eapply alias_in_country_var; eauto. }
  run pd_iloc_head_run.
  erewrite bind_run by apply Hget.
  run hv_Bars_run. done.
Qed.

(** The callback on a typed table. *)
Lemma major_disaster_map_typed s df f start_time end_time vis o :
  deref s df = Some f → dashboard_columns ⊆ columns f → typed f →
  "iso_a3" ∈ columns (naturalearth_lowres s) → coded (naturalearth_lowres s) →
  dict_get vis selector_opts = Some o →
  let geo := naturalearth_lowres s in
  let rf := restricted (year start_time) (year end_time) f in
  major_disaster_map df start_time end_time (Some vis) s
  = (inr (mkPolygons (dashboard_world geo rf) keyDims (Some (dep_var_2 o)) (Some (width, height)),
          mkBars (top10 (dep_var_2 o) rf) ("inde", "Country")
                 (dep_var_2 o, feature_name o) (width, height)),
     push (top10 (dep_var_2 o) rf)
       (push (sort_values_desc (dep_var_2 o) (country_var_frame rf))
          (push (dashboard_world geo rf)
             (push (merge_left geo (country_var_frame rf) ["iso_a3"] ["inde"])
                (push (country_var_frame rf)
                   (push (DataFrame_of_dict (country_var_dict_of rf))
                      (push geo (push rf s)))))))).
Proof.
  intros Hdf Hcols Ht Hgeo Hcoded Hvis geo rf.
  apply major_disaster_map_run; try done.
  - apply Hcols. in_list.
  - by apply typed_year.
  - intros c Hc. apply no_text_getitem_mask. by apply typed_summed.
  - apply not_refused_country_var; [done|]. apply Forall_select, Ht.
Qed.

(** ** The static map *)

Lemma distribution_polygon geo f i g :
  geo_ok geo country_count_columns →
  rows geo !! i = Some g → cell "iso_a3" g.2 ≠ NaN →
  ∃ r, rows (distribution_world geo f) !! i = Some r
       ∧ (∀ c, c ∈ columns geo → cell c r.2 = fill (Num 0) (cell c g.2))
       ∧ cell "Year_2" r.2 = Num (column_count "Year" (rows_of (cell "iso_a3" g.2) f)).
Proof.
  intros Hgeo Hg Hk.
  destruct (world_row geo (country_count_frame f) (country_count_cells f)
              (group_keys "ISO" f) (rows_country_count_frame f)
              (NoDup_group_keys "ISO" f) (λ _ _, eq_refl) Hgeo i g Hg)
    as (r & Hr & Hleft & Hright).
  exists r. split; [done|]. split; [done|].
  rewrite Hright by in_list. by rewrite partner_country_count by (done || in_list).
Qed.

(** C6 (amended).  On a table whose country codes are text or missing,
    [major_disaster_distribution] keeps every polygon of the country table
    and gives it the number of disaster rows that carry its country code and
    a non-missing [Year]: the count of the [Year] column per group.  That is
    the number of the country's rows whenever [Year] is populated in every
    row, and 0 for a country without any row. *)
Theorem distribution_counts_dated_rows s df f :
  deref s df = Some f →
  "ISO" ∈ columns f → "Year" ∈ columns f → text_column "ISO" f →
  geo_ok (naturalearth_lowres s) country_count_columns →
  coded (naturalearth_lowres s) →
  ∃ p s',
    major_disaster_distribution df s = (inr p, s')
    ∧ length (rows (polygons_data p)) = length (rows (naturalearth_lowres s))
    ∧ ∀ i g, rows (naturalearth_lowres s) !! i = Some g → cell "iso_a3" g.2 ≠ NaN →
        ∃ r, rows (polygons_data p) !! i = Some r
             ∧ cell "Year_2" r.2
               = Num (column_count "Year" (rows_of (cell "iso_a3" g.2) f))
             ∧ (Forall (λ d : row, cell "Year" d.2 ≠ NaN) (rows f) →
                cell "Year_2" r.2
                = Num (Z.of_nat (length (rows_of (cell "iso_a3" g.2) f))))
             ∧ (rows_of (cell "iso_a3" g.2) f = [] → cell "Year_2" r.2 = Num 0).
Proof.
  intros Hdf HISO HYear Htext Hgeo Hcoded.
  eexists _, _. split.
  { apply major_disaster_distribution_run; try done;
      [apply Hgeo|by apply not_refused_country_count]. }
  cbn [polygons_data]. split.
  { eapply (length_world _ _ (country_count_cells f));
      eauto using rows_country_count_frame, NoDup_group_keys. }
  intros i g Hg Hk.
  destruct (distribution_polygon _ f i g Hgeo Hg Hk) as (r & Hr & _ & Hcount).
  exists r. split; [done|]. split; [done|]. split.
  - intros Hall. rewrite Hcount. f_equal. apply column_count_populated.
    apply list.Forall_forall. intros d [_ Hd]%list_elem_of_filter.
    rewrite list.Forall_forall in Hall. by apply Hall.
  - intros Hnone. by rewrite Hcount, Hnone.
Qed.

Lemma distribution_counts_dated_rows_witness :
  ∃ p s',
    major_disaster_distribution (Ref 0%nat) sample_state = (inr p, s')
    ∧ length (rows (polygons_data p)) = 4%nat.
Proof.
  destruct (distribution_counts_dated_rows sample_state (Ref 0%nat) sample_disasters)
    as (p & s' & Hrun & Hlen & _);
    [reflexivity | decide_it | decide_it | decide_it | split; decide_it | decide_it |].
  by exists p, s'.
Defined.

(** C6, as stated, fails on an event without a year: the United States have
    one disaster row, and the map shows 0. *)
Lemma distribution_misses_undated_row :
  polygon_values "Year_2"
    (major_disaster_distribution (Ref 0%nat) (state_of undated_disasters)).1
  = [(Str "USA", Num 0); (Str "-99", Num 0); (Str "CHN", Num 0); (Str "HTI", Num 0)]
  ∧ length (rows_of (Str "USA") undated_disasters) = 1%nat.
Proof. split; vm_compute; reflexivity. Qed.

(** ** The dashboard's table *)

Lemma in_range_point y r : in_range y y r ↔ cell "Year" r.2 = Num y.
Proof.
  unfold in_range. destruct (cell "Year" r.2) as [|z|]; simpl; [by split|..|by split].
  split; [intros ?; f_equal; lia|intros [= ->]; lia].
Qed.

Lemma restricted_point y f : restricted y y f = rows_in_year y f.
Proof.
  transitivity (mkFrame (columns (restricted y y f)) (rows (restricted y y f)));
    [by destruct (restricted y y f)|].
  rewrite rows_restricted, columns_restricted. unfold rows_in_year. f_equal.
  apply list_filter_iff. intros r. apply in_range_point.
Qed.

Lemma elem_of_rows_restricted a b f r :
  r ∈ rows (restricted a b f) ↔ r ∈ rows f ∧ in_range a b r.
Proof. rewrite rows_restricted, list_elem_of_filter. tauto. Qed.

Lemma metric_columns_cases c :
  c ∈ metric_columns →
  c = "Year_2" ∨ c = "TD_2" ∨ c = "num_inj" ∨ c = "num_aff" ∨ c = "num_homeless"
  ∨ c = "num_recon_costs" ∨ c = "num_damages".
Proof. intros H%list_elem_of_In. simpl in H. intuition. Qed.

Lemma metric_in_country_var c : c ∈ metric_columns → c ∈ country_var_columns.
Proof. intros H%metric_columns_cases. apply list_elem_of_In. simpl. intuition. Qed.

Lemma alias_is_metric vis o :
  dict_get vis selector_opts = Some o → dep_var_2 o ∈ metric_columns.
Proof.
  intros H%selector_opts_cases. unfold metric_columns.
  apply list_elem_of_fmap. by exists (vis, o).
Qed.

Lemma metric_is_number f k c :
  c ∈ metric_columns → ∃ z, cell c (country_var_cells f k) = Num z.
Proof.
  intros H%metric_columns_cases.
  repeat (destruct H as [->|H]; [eexists; reflexivity|]). subst. eexists; reflexivity.
Qed.

Lemma metric_of_absent f k c :
  rows_of k f = [] → c ∈ metric_columns → cell c (country_var_cells f k) = Num 0.
Proof.
  intros Hk H%metric_columns_cases. unfold country_var_cells. rewrite Hk.
  repeat (destruct H as [->|H]; [reflexivity|]). by subst.
Qed.

Lemma elem_of_rows_country_var f r :
  r ∈ rows (country_var_frame f) ↔
  r.1 ∈ group_keys "ISO" f ∧ r.2 = country_var_cells f r.1.
Proof.
  rewrite rows_country_var_frame, list_elem_of_fmap. split.
  - by intros (k & -> & ?).
  - intros [? ?]. exists r.1. split; [|done]. destruct r; simpl in *; congruence.
Qed.

Lemma dashboard_polygon geo f i g :
  geo_ok geo country_var_columns →
  rows geo !! i = Some g →
  ∃ r, rows (dashboard_world geo f) !! i = Some r
       ∧ (∀ c, c ∈ columns geo → cell c r.2 = fill (Num 0) (cell c g.2))
       ∧ (cell "iso_a3" g.2 ∉ index (country_var_frame f) →
          ∀ c, c ∈ country_var_columns → cell c r.2 = Num 0)
       ∧ (cell "iso_a3" g.2 ≠ NaN →
          ∀ c, c ∈ metric_columns →
               cell c r.2 = cell c (country_var_cells f (cell "iso_a3" g.2))).
Proof.
  intros Hgeo Hg.
  destruct (world_row geo (country_var_frame f) (country_var_cells f)
              (group_keys "ISO" f) (rows_country_var_frame f)
              (NoDup_group_keys "ISO" f) (λ _ _, eq_refl) Hgeo i g Hg)
    as (r & Hr & Hleft & Hright).
  exists r. split; [done|]. split; [done|]. rewrite index_country_var_frame.
  split.
  - intros Hout c Hc. rewrite Hright by done. unfold partner.
    by rewrite decide_False.
  - intros Hk c Hc. rewrite Hright by by apply metric_in_country_var.
    unfold partner. destruct (decide (cell "iso_a3" g.2 ∈ group_keys "ISO" f)).
    + cbn [from_option]. destruct (metric_is_number f (cell "iso_a3" g.2) c Hc) as [z ->].
      done.
    + cbn [from_option]. by rewrite metric_of_absent by auto using rows_of_absent.
Qed.

Lemma length_dashboard_world geo f :
  geo_ok geo country_var_columns →
  length (rows (dashboard_world geo f)) = length (rows geo).
Proof.
  intros. eapply (length_world _ _ (country_var_cells f));
    eauto using rows_country_var_frame, NoDup_group_keys.
Qed.

(** ** Sorting and the bar chart *)

Global Instance desc_le_total c : Total (desc_le c).
Proof.
  intros r1 r2. unfold desc_le.
  destruct (num_of (cell c r1.2)), (num_of (cell c r2.2)); try tauto. lia.
Qed.

Global Instance desc_le_trans c : Transitive (desc_le c).
Proof.
  intros r1 r2 r3. unfold desc_le.
  destruct (num_of (cell c r1.2)), (num_of (cell c r2.2)), (num_of (cell c r3.2));
    try tauto. lia.
Qed.

Lemma StronglySorted_take {A} (R : relation A) n (l : list A) :
  StronglySorted R l → StronglySorted R (take n l).
Proof.
  intros H. rewrite <- (take_drop n l) in H. by apply StronglySorted_app_1_l in H.
Qed.

Lemma descending_column c (l : list row) :
  (∀ r, r ∈ l → ∃ z, cell c r.2 = Num z) →
  StronglySorted (desc_le c) l →
  descending (map (λ r : row, cell c r.2) l).
Proof.
  intros Hnum Hs. unfold descending.
  induction Hs as [|r l Hs IH Hall]; [constructor|].
  cbn [map]. constructor.
  - apply IH. intros r' ?. apply Hnum. by apply list_elem_of_further.
  - destruct l as [|r' l]; [constructor|]. cbn [map]. constructor.
    apply Forall_cons_1 in Hall as [Hle _]. unfold desc_le in Hle.
    destruct (Hnum r) as [z Hz]; [apply list_elem_of_here|].
    destruct (Hnum r') as [z' Hz']; [apply list_elem_of_further, list_elem_of_here|].
    rewrite Hz, Hz' in *. done.
Qed.

Lemma rows_top10 c f :
  rows (top10 c f) = take 10 (merge_sort (desc_le c) (rows (country_var_frame f))).
Proof. done. Qed.

Lemma elem_of_rows_top10 c f r :
  r ∈ rows (top10 c f) → r ∈ rows (country_var_frame f).
Proof.
  rewrite rows_top10. intros (i & Hi & _)%elem_of_take.
  apply list_elem_of_lookup_2 in Hi. by rewrite merge_sort_Permutation in Hi.
Qed.

Lemma top10_descending c f :
  c ∈ metric_columns → descending (map (λ r : row, cell c r.2) (rows (top10 c f))).
Proof.
  intros Hc. apply descending_column.
  - intros r Hr%elem_of_rows_top10. apply elem_of_rows_country_var in Hr as [_ ->].
    by apply metric_is_number.
  - rewrite rows_top10. apply StronglySorted_take, StronglySorted_merge_sort; apply _.
Qed.

(** ** Both maps are zero-filled left joins *)

Lemma geo_ok_weaken geo cols cols' :
  cols' ⊆ cols → geo_ok geo cols → geo_ok geo cols'.
Proof.
  intros Hsub [? H]. split; [done|].
  rewrite list.Forall_forall in H. apply list.Forall_forall.
  intros c Hc ?. by apply (H c), Hsub.
Qed.

Lemma country_count_in_country_var : country_count_columns ⊆ country_var_columns.
Proof. intros c Hc. apply list_elem_of_In in Hc. simpl in Hc. in_list_of Hc. Qed.

Lemma partner_of_row (F : value → cells) (keys : list value) (a : row) code :
  (∀ k, k ∈ keys → cell "inde" (F k) = k) →
  a ∈ map (λ k, (k, F k)) keys → cell "inde" a.2 = code →
  partner F keys code = Some a.2.
Proof.
  intros HF (k & -> & Hk)%list_elem_of_fmap Hcode. cbn [snd] in *.
  rewrite HF in Hcode by done. subst code. unfold partner. by rewrite decide_True.
Qed.

Lemma partner_of_none (F : value → cells) (keys : list value) code :
  (∀ k, k ∈ keys → cell "inde" (F k) = k) →
  (∀ a, a ∈ map (λ k, (k, F k)) keys → cell "inde" a.2 ≠ code) →
  partner F keys code = None.
Proof.
  intros HF Hnone. unfold partner. rewrite decide_False; [done|]. intros Hk.
  apply (Hnone (code, F code)); [|by apply HF].
  apply list_elem_of_fmap. by exists code.
Qed.

Lemma NoDup_inde (F : value → cells) (keys : list value) :
  (∀ k, k ∈ keys → cell "inde" (F k) = k) → NoDup keys →
  NoDup (map (λ a : row, cell "inde" a.2) (map (λ k, (k, F k)) keys)).
Proof.
  intros HF Hnd. rewrite map_map. cbn [snd].
  erewrite map_ext_in; [by rewrite map_id|].
  intros k Hk%list_elem_of_In. by apply HF.
Qed.

(** The zero-filled left join of the country table with a per-country frame
    that has one row per code. *)
Lemma world_left_join geo cv (F : value → cells) keys :
  rows cv = map (λ k, (k, F k)) keys → NoDup keys →
  (∀ k, k ∈ keys → cell "inde" (F k) = k) →
  geo_ok geo (columns cv) →
  left_join_zero_filled geo cv (columns cv)
                        (fillna (Num 0) (merge_left geo cv ["iso_a3"] ["inde"])).
Proof.
  intros Hrows Hnd HF Hgeo. split; [by eapply length_world|]. split.
  { rewrite Hrows. by apply NoDup_inde. }
  intros i g Hg.
  destruct (world_row geo cv F keys Hrows Hnd HF Hgeo i g Hg) as (r & Hr & Hleft & Hright).
  exists r. split; [done|]. split; [done|]. split.
  - intros a Ha Hcode c Hc. rewrite Hright by done. rewrite Hrows in Ha.
    by rewrite (partner_of_row F keys a).
  - intros Hnone c Hc. rewrite Hright by done. rewrite Hrows in Hnone.
    by rewrite partner_of_none.
Qed.

Lemma left_join_weaken geo agg filled filled' out :
  filled' ⊆ filled →
  left_join_zero_filled geo agg filled out → left_join_zero_filled geo agg filled' out.
Proof.
  intros Hsub (Hlen & Hnd & Hrow). split; [done|]. split; [done|].
  intros i g Hg. destruct (Hrow i g Hg) as (r & Hr & Hleft & Hsome & Hnone).
  exists r. split; [done|]. split; [done|]. split.
  - intros a Ha Hcode c Hc. by apply Hsome, Hsub.
  - intros Hno c Hc. by apply Hnone, Hsub.
Qed.

Lemma distribution_world_left_join geo f :
  geo_ok geo country_count_columns →
  left_join_zero_filled geo (country_count_frame f) country_count_columns
                        (distribution_world geo f).
Proof.
  intros Hgeo.
  apply (world_left_join geo (country_count_frame f) (country_count_cells f)
           (group_keys "ISO" f));
    auto using rows_country_count_frame, NoDup_group_keys.
Qed.

Lemma dashboard_world_left_join geo f :
  geo_ok geo country_var_columns →
  left_join_zero_filled geo (country_var_frame f) country_var_columns
                        (dashboard_world geo f).
Proof.
  intros Hgeo.
  apply (world_left_join geo (country_var_frame f) (country_var_cells f)
           (group_keys "ISO" f));
    auto using rows_country_var_frame, NoDup_group_keys.
Qed.

(** C3.  In both map builders the merge onto the country table is a left
    join with the country table on the left, zero-filled.  The merged frame
    has one row per polygon, in the table's order, carrying the polygon's own
    cells.  A polygon whose code has a row in the (date-filtered) aggregation
    carries that row's value in every column that comes from the aggregation,
    the metric columns among them; a polygon whose code has none has 0 there.
    The static map needs the columns [ISO] and [Year] only. *)
Theorem maps_are_zero_filled_left_joins s df f :
  deref s df = Some f → coded (naturalearth_lowres s) →
  let geo := naturalearth_lowres s in
  ("ISO" ∈ columns f → "Year" ∈ columns f → text_column "ISO" f →
   geo_ok geo country_count_columns →
   ∃ p s',
     major_disaster_distribution df s = (inr p, s')
     ∧ polygons_data p
       = fillna (Num 0) (merge_left geo (country_count_frame f) ["iso_a3"] ["inde"])
     ∧ left_join_zero_filled geo (country_count_frame f) ["Year_2"] (polygons_data p))
  ∧ (∀ start_time end_time vis o,
       dashboard_columns ⊆ columns f → typed f → bounded f →
       geo_ok geo country_var_columns →
       dict_get vis selector_opts = Some o →
       let slice := restricted (year start_time) (year end_time) f in
       ∃ ax bar s',
         major_disaster_map df start_time end_time (Some vis) s = (inr (ax, bar), s')
         ∧ polygons_data ax
           = fillna (Num 0) (merge_left geo (country_var_frame slice) ["iso_a3"] ["inde"])
         ∧ left_join_zero_filled geo (country_var_frame slice) metric_columns
                                 (polygons_data ax)).
Proof.
  intros Hdf Hcoded geo. split.
  - intros HISO HYear Htext Hgeo. eexists _, _. split.
    { apply major_disaster_distribution_run; try done;
        [apply Hgeo|by apply not_refused_country_count]. }
    split; [done|]. cbn [polygons_data].
    eapply left_join_weaken; [|by apply distribution_world_left_join].
    intros c ->%list_elem_of_singleton. in_list.
  - intros start_time end_time vis o Hcols Htyped _ Hgeo Hvis slice.
    eexists _, _, _. split.
    { eapply major_disaster_map_typed; eauto. apply Hgeo. }
    split; [done|]. cbn [polygons_data].
    eapply left_join_weaken; [|by apply dashboard_world_left_join].
    intros c. apply metric_in_country_var.
Qed.

Lemma maps_are_zero_filled_left_joins_witness :
  (∃ p s',
     major_disaster_distribution (Ref 0%nat) sample_state = (inr p, s')
     ∧ left_join_zero_filled sample_world (country_count_frame sample_disasters)
         ["Year_2"] (polygons_data p))
  ∧ (∃ ax bar s',
       major_disaster_map (Ref 0%nat) (mkDatetime 2000 1 1) (mkDatetime 2000 12 31)
                          (Some "# Deaths") sample_state = (inr (ax, bar), s')
       ∧ left_join_zero_filled sample_world
           (country_var_frame (restricted 2000 2000 sample_disasters))
           metric_columns (polygons_data ax)).
Proof.
  pose proof (maps_are_zero_filled_left_joins sample_state (Ref 0%nat) sample_disasters
                eq_refl ltac:(decide_it)) as H.
  cbv zeta in H. destruct H as [Hstatic Hdash]. split.
  - destruct Hstatic as (p & s' & Hrun & _ & Hjoin);
      [decide_it | decide_it | decide_it | split; decide_it |].
    by exists p, s'.
  - destruct (Hdash (mkDatetime 2000 1 1) (mkDatetime 2000 12 31) "# Deaths"
                (mkOpt "Total Deaths" "TD_2" "# Deaths" "sum"))
      as (ax & bar & s' & Hrun & _ & Hjoin);
      [decide_it | split; decide_it | decide_it | split; decide_it | reflexivity |].
    by exists ax, bar, s'.
Defined.

(** ** The dashboard's deaths in one year *)

Lemma bars_entries_top10 c f kd vd size x y :
  (x, y) ∈ bars_entries (mkBars (top10 c f) ("inde", kd) (c, vd) size) →
  x ∈ group_keys "ISO" f ∧ y = cell c (country_var_cells f x).
Proof.
  unfold bars_entries. cbn [bars_data bars_kdim bars_vdim fst].
  intros (r & [= -> ->] & Hr%elem_of_rows_top10)%list_elem_of_fmap.
  apply elem_of_rows_country_var in Hr as [Hk ->]. done.
Qed.

Lemma rows_top10_sorted c f :
  ∃ sorted,
    sorted ≡ₚ rows (country_var_frame f)
    ∧ Sorted (desc_le c) sorted
    ∧ rows (top10 c f) = take 10 sorted.
Proof.
  exists (merge_sort (desc_le c) (rows (country_var_frame f))).
  split; [apply merge_sort_Permutation|]. split; [|apply rows_top10].
  apply Sorted_merge_sort. apply _.
Qed.

(** C1.  On a typed table whose sums stay within 2^53, with both ends of the
    date range in 2000 and the selector on "# Deaths", the callback builds
    both visuals from the per-country table of the rows with [Year == 2000]:
    one row per country code found in those rows, whose [TD_2] is the sum of
    [Total Deaths] over the country's rows of that year (missing values
    skipped).  The bars are the first ten rows of that table in descending
    order of [TD_2], whatever the order among equal values, and the same sums
    are what the bars and the polygons show.  In general the date filter
    keeps a row iff [start.year <= Year <= end.year]. *)
Theorem deaths_of_2000_by_country s df f start_time end_time :
  deref s df = Some f →
  "Year" ∈ columns f → dashboard_columns ⊆ columns f →
  typed f → bounded f →
  geo_ok (naturalearth_lowres s) country_var_columns →
  coded (naturalearth_lowres s) →
  year start_time = 2000 → year end_time = 2000 →
  let geo := naturalearth_lowres s in
  let slice := rows_in_year 2000 f in
  let table := country_var_frame slice in
  let deaths k := Num (column_sum "Total Deaths" (rows_of k slice)) in
  ∃ ax bar s',
    major_disaster_map df start_time end_time (Some "# Deaths") s = (inr (ax, bar), s')
    ∧ polygons_data ax = fillna (Num 0) (merge_left geo table ["iso_a3"] ["inde"])
    ∧ (∃ sorted,
          sorted ≡ₚ rows table
          ∧ Sorted (desc_le "TD_2") sorted
          ∧ rows (bars_data bar) = take 10 sorted)
    ∧ (∀ k, k ∈ index table ↔
            k ≠ NaN ∧ ∃ r, r ∈ rows f ∧ cell "Year" r.2 = Num 2000 ∧ cell "ISO" r.2 = k)
    ∧ NoDup (index table)
    ∧ (∀ r, r ∈ rows table → cell "inde" r.2 = r.1 ∧ cell "TD_2" r.2 = deaths r.1)
    ∧ (∀ x y, (x, y) ∈ bars_entries bar → y = deaths x)
    ∧ (∀ i g, rows geo !! i = Some g → cell "iso_a3" g.2 ≠ NaN →
         ∃ r, rows (polygons_data ax) !! i = Some r
              ∧ cell "TD_2" r.2 = deaths (cell "iso_a3" g.2))
    ∧ (∀ a b r, r ∈ rows (restricted a b f) ↔ r ∈ rows f ∧ in_range a b r).
Proof.
  intros Hdf HYear Hcols Htyped _ Hgeo Hcoded Hstart Hend geo slice table deaths.
  eexists _, _, _. split.
  { eapply (major_disaster_map_typed _ _ _ _ _ "# Deaths"); eauto;
      first [apply Hgeo | reflexivity]. }
  rewrite Hstart, Hend, restricted_point. fold slice.
  cbn [polygons_data bars_data dep_var_2 feature_name].
  split; [done|]. split; [apply rows_top10_sorted|]. split.
  { intros k. unfold table. rewrite index_country_var_frame, elem_of_group_keys.
    unfold slice, rows_in_year. cbn [rows]. split.
    - intros [? (r & [? ?]%list_elem_of_filter & ?)]. eauto 6.
    - intros [? (r & ? & ? & ?)]. split; [done|]. exists r.
      by rewrite list_elem_of_filter. }
  split. { unfold table. rewrite index_country_var_frame. apply NoDup_group_keys. }
  split. { by intros r [_ ->]%elem_of_rows_country_var. }
  split. { by intros x y [_ ->]%bars_entries_top10. }
  split.
  { intros i g Hg Hk.
    destruct (dashboard_polygon geo slice i g Hgeo Hg) as (r & Hr & _ & _ & Hm).
    exists r. split; [done|]. rewrite Hm by (done || in_list). done. }
  intros a b r. apply elem_of_rows_restricted.
Qed.

Lemma deaths_of_2000_by_country_witness :
  ∃ ax bar s',
    major_disaster_map (Ref 0%nat) (mkDatetime 2000 1 1) (mkDatetime 2000 12 31)
                       (Some "# Deaths") sample_state = (inr (ax, bar), s')
    ∧ ∀ x y, (x, y) ∈ bars_entries bar →
             y = Num (column_sum "Total Deaths" (rows_of x (rows_in_year 2000 sample_disasters))).
Proof.
  pose proof (deaths_of_2000_by_country sample_state (Ref 0%nat) sample_disasters
                (mkDatetime 2000 1 1) (mkDatetime 2000 12 31)
                eq_refl ltac:(decide_it) ltac:(decide_it)
                ltac:(split; decide_it) ltac:(decide_it)
                ltac:(split; decide_it) ltac:(decide_it)
                eq_refl eq_refl) as H.
  cbv zeta in H. destruct H as (ax & bar & s' & Hrun & _ & _ & _ & _ & _ & Hbars & _).
  by exists ax, bar, s'.
Defined.

Example deaths_of_2000_sample :
  bar_chart (major_disaster_map (Ref 0%nat) (mkDatetime 2000 1 1) (mkDatetime 2000 12 31)
                                (Some "# Deaths") sample_state).1
  = [(Str "HTI", Num 6000); (Str "USA", Num 3002); (Str "CHN", Num 0)].
Proof. vm_compute. reflexivity. Qed.

(** ** The bar chart *)

(** C2 (amended).  For every typed table whose sums stay within 2^53, every
    date range and every metric of the selector, the bar chart holds the
    first 10 rows of the per-country table sorted by the selected metric,
    largest first: at most 10 bars, whose values never increase from one bar
    to the next (equal values may follow each other). *)
Theorem bars_are_top10_descending s df f start_time end_time vis o :
  deref s df = Some f →
  "Year" ∈ columns f → dashboard_columns ⊆ columns f →
  typed f → bounded f →
  "iso_a3" ∈ columns (naturalearth_lowres s) → coded (naturalearth_lowres s) →
  dict_get vis selector_opts = Some o →
  let table := country_var_frame (restricted (year start_time) (year end_time) f) in
  ∃ ax bar s',
    major_disaster_map df start_time end_time (Some vis) s = (inr (ax, bar), s')
    ∧ bars_kdim bar = ("inde", "Country")
    ∧ bars_vdim bar = (dep_var_2 o, feature_name o)
    ∧ (∃ sorted,
          sorted ≡ₚ rows table
          ∧ Sorted (desc_le (dep_var_2 o)) sorted
          ∧ rows (bars_data bar) = take 10 sorted)
    ∧ (length (bars_values bar) ≤ 10)%nat
    ∧ descending (bars_values bar).
Proof.
  intros Hdf HYear Hcols Htyped _ Hgeo Hcoded Hvis table.
  eexists _, _, _. split. { eapply major_disaster_map_typed; eauto. }
  cbn [bars_kdim bars_vdim bars_data]. split; [done|]. split; [done|]. split.
  { apply rows_top10_sorted. }
  unfold bars_values. cbn [bars_data bars_vdim fst]. split.
  - rewrite length_map, rows_top10, length_take. lia.
  - apply top10_descending. by eapply alias_is_metric.
Qed.

Lemma bars_are_top10_descending_witness :
  ∃ ax bar s',
    major_disaster_map (Ref 0%nat) (mkDatetime 2000 1 1) (mkDatetime 2001 1 1)
                       (Some "# Injured") sample_state = (inr (ax, bar), s')
    ∧ (length (bars_values bar) ≤ 10)%nat
    ∧ descending (bars_values bar).
Proof.
  pose proof (bars_are_top10_descending sample_state (Ref 0%nat) sample_disasters
                (mkDatetime 2000 1 1) (mkDatetime 2001 1 1) "# Injured"
                (mkOpt "No Injured" "num_inj" "# Injured" "sum")
                eq_refl ltac:(decide_it) ltac:(decide_it)
                ltac:(split; decide_it) ltac:(decide_it)
                ltac:(decide_it) ltac:(decide_it) eq_refl) as H.
  cbv zeta in H. destruct H as (ax & bar & s' & Hrun & _ & _ & _ & Hlen & Hdesc).
  by exists ax, bar, s'.
Defined.

Lemma not_strictly_descending_tie z : ¬ strictly_descending [Num z; Num z].
Proof.
  intros H. apply Sorted_inv in H as [_ H]. apply HdRel_inv in H. simpl in H. lia.
Qed.

(** C2, as stated, fails when two countries tie: both bars are drawn with
    the same value. *)
Lemma bars_of_tied_countries_not_strict :
  let values :=
    map snd (bar_chart (major_disaster_map (Ref 0%nat) (mkDatetime 2000 1 1)
                          (mkDatetime 2000 1 1) (Some "# Deaths")
                          (state_of tied_disasters)).1) in
  values = [Num 5; Num 5] ∧ ¬ strictly_descending values.
Proof.
  assert (map snd (bar_chart (major_disaster_map (Ref 0%nat) (mkDatetime 2000 1 1)
                                (mkDatetime 2000 1 1) (Some "# Deaths")
                                (state_of tied_disasters)).1) = [Num 5; Num 5]) as E
    by (vm_compute; reflexivity).
  cbv zeta. rewrite E. split; [done|apply not_strictly_descending_tie].
Qed.

(** ** Missing values and zero *)

Lemma sum_metric_cell vis o f k :
  dict_get vis selector_opts = Some o → group_op o = "sum" →
  cell (dep_var_2 o) (country_var_cells f k) = Num (column_sum (dep_var o) (rows_of k f)).
Proof.
  intros H%selector_opts_cases Hop. apply list_elem_of_In in H. simpl in H.
  repeat (destruct H as [[= <- <-]|H]; [first [discriminate Hop | reflexivity]|]).
  done.
Qed.

(** C10.  In the dashboard, on a typed table whose sums stay within 2^53, a
    sum-aggregated metric skips the missing values of its source column.  A
    country all of whose rows in the date range miss that column gets 0: in
    the per-country table, in its bar, and on its polygon, exactly as a
    country whose recorded values add up to zero. *)
Theorem missing_values_count_as_zero s df f start_time end_time vis o k :
  deref s df = Some f →
  "Year" ∈ columns f → dashboard_columns ⊆ columns f →
  typed f → bounded f →
  geo_ok (naturalearth_lowres s) country_var_columns →
  coded (naturalearth_lowres s) →
  dict_get vis selector_opts = Some o → group_op o = "sum" →
  let slice := restricted (year start_time) (year end_time) f in
  let table := country_var_frame slice in
  k ∈ index table →
  Forall (λ r : row, cell (dep_var o) r.2 = NaN) (rows_of k slice) →
  ∃ ax bar s',
    major_disaster_map df start_time end_time (Some vis) s = (inr (ax, bar), s')
    ∧ (∀ r, r ∈ rows table →
            cell (dep_var_2 o) r.2 = Num (column_sum (dep_var o) (rows_of r.1 slice)))
    ∧ (∀ r, r ∈ rows table → r.1 = k → cell (dep_var_2 o) r.2 = Num 0)
    ∧ (∀ y, (k, y) ∈ bars_entries bar → y = Num 0)
    ∧ (∀ i g, rows (naturalearth_lowres s) !! i = Some g → cell "iso_a3" g.2 = k →
         ∃ r, rows (polygons_data ax) !! i = Some r ∧ cell (dep_var_2 o) r.2 = Num 0)
    ∧ (∀ k', column_sum (dep_var o) (rows_of k' slice) = 0 →
         cell (dep_var_2 o) (country_var_cells slice k')
         = cell (dep_var_2 o) (country_var_cells slice k)).
Proof.
  intros Hdf HYear Hcols Htyped _ Hgeo Hcoded Hvis Hop slice table Hk Hmissing.
  assert (Hzero : cell (dep_var_2 o) (country_var_cells slice k) = Num 0).
  { erewrite sum_metric_cell by done. by rewrite column_sum_missing. }
  assert (Hnan : k ≠ NaN).
  { unfold table in Hk. rewrite index_country_var_frame in Hk.
    by apply elem_of_group_keys in Hk as [? _]. }
  eexists _, _, _. split. { eapply major_disaster_map_typed; eauto. apply Hgeo. }
  fold slice. cbn [polygons_data]. split.
  { intros r [_ ->]%elem_of_rows_country_var. by eapply sum_metric_cell. }
  split. { intros r [_ ->]%elem_of_rows_country_var ->. done. }
  split. { intros y [_ ->]%bars_entries_top10. done. }
  split.
  { intros i g Hg Hiso.
    destruct (dashboard_polygon _ slice i g Hgeo Hg) as (r & Hr & _ & _ & Hm).
    exists r. split; [done|]. rewrite Hm, Hiso; [done|congruence|].
    by eapply alias_is_metric. }
  intros k' Hk'. rewrite Hzero. erewrite sum_metric_cell by done. by rewrite Hk'.
Qed.

Lemma missing_values_count_as_zero_witness :
  ∃ ax bar s',
    major_disaster_map (Ref 0%nat) (mkDatetime 2000 1 1) (mkDatetime 2000 12 31)
                       (Some "# Deaths") sample_state = (inr (ax, bar), s')
    ∧ ∀ y, (Str "CHN", y) ∈ bars_entries bar → y = Num 0.
Proof.
  pose proof (missing_values_count_as_zero sample_state (Ref 0%nat) sample_disasters
                (mkDatetime 2000 1 1) (mkDatetime 2000 12 31) "# Deaths"
                (mkOpt "Total Deaths" "TD_2" "# Deaths" "sum") (Str "CHN")
                eq_refl ltac:(decide_it) ltac:(decide_it)
                ltac:(split; decide_it) ltac:(decide_it)
                ltac:(split; decide_it) ltac:(decide_it)
                eq_refl eq_refl ltac:(decide_it) ltac:(decide_it)) as H.
  destruct H as (ax & bar & s' & Hrun & _ & _ & Hbar & _).
  by exists ax, bar, s'.
Defined.

(** ** The scatter plot *)

Lemma rows_major nd gdp :
  rows (major nd gdp) = filter (exceeds "Total Deaths" 5000) (rows (joined nd gdp)).
Proof.
  unfold major, getitem_mask, truth, column. cbn [rows].
  rewrite map_map. cbn [snd].
  rewrite (select_map (λ r : row, from_option (λ z, bool_decide (5000 < z)) false
                                    (num_of (cell "Total Deaths" r.2)))).
  apply list_filter_iff. intros r. unfold exceeds.
  destruct (num_of (cell "Total Deaths" r.2)); simpl; [|tauto].
  by rewrite bool_decide_spec.
Qed.

Lemma complete_projection (r : cells) :
  complete ["Total Deaths"; "GDP per capita"]
           (map (λ c, (c, cell c r)) ["Total Deaths"; "GDP per capita"])
  ↔ cell "Total Deaths" r ≠ NaN ∧ cell "GDP per capita" r ≠ NaN.
Proof.
  unfold complete. rewrite !list.Forall_cons, list.Forall_nil. cbn. tauto.
Qed.

Lemma filter_map_comm {A B} (P : B → Prop) (Q : A → Prop)
    `{!∀ y, Decision (P y)} `{!∀ x, Decision (Q x)} (h : A → B) (l : list A) :
  (∀ x, P (h x) ↔ Q x) → filter P (map h l) = map h (filter Q l).
Proof.
  intros HPQ. induction l as [|x l IH]; [done|]. cbn [map].
  rewrite !filter_cons, IH. destruct (decide (Q x)) as [HQ|HQ].
  - by rewrite decide_True by by apply HPQ.
  - by rewrite decide_False by by rewrite HPQ.
Qed.

Lemma points_deaths_gdp nd gdp :
  points "Total Deaths" "GDP per capita" (deaths_gdp nd gdp)
  = map (λ r : row, (cell "Total Deaths" r.2, cell "GDP per capita" r.2))
        (major_complete nd gdp).
Proof.
  unfold points, deaths_gdp, dropna, getitem_columns, major_complete.
  cbn [rows columns]. rewrite rows_major.
  rewrite (filter_map_comm _ (λ r : row, cell "Total Deaths" r.2 ≠ NaN
                                        ∧ cell "GDP per capita" r.2 ≠ NaN)).
  2:{ intros r. apply complete_projection. }
  rewrite map_map, list_filter_filter. cbn.
  f_equal. apply list_filter_iff. intros r. tauto.
Qed.

(** Every row of the join is a disaster row, with the GDP of a GDP row of the
    same code and year, or without GDP. *)
Lemma joined_rows_origin nd gdp j :
  "Total Deaths" ∈ columns nd → "Total Deaths" ∉ columns gdp →
  "GDP per capita" ∈ columns gdp → "GDP per capita" ∉ columns nd →
  j ∈ rows (joined nd gdp) →
  ∃ d, d ∈ rows nd
       ∧ cell "Total Deaths" j.2 = cell "Total Deaths" d.2
       ∧ (cell "GDP per capita" j.2 = NaN
          ∨ ∃ g, g ∈ rows gdp
                 ∧ cell "Code" g.2 = cell "ISO" d.2 ∧ cell "Year" g.2 = cell "Year" d.2
                 ∧ cell "GDP per capita" j.2 = cell "GDP per capita" g.2).
Proof.
  intros Hd Hdg Hg Hgd. unfold joined, merge_left, range_index. cbn [rows].
  intros (i & Hi)%list_elem_of_lookup_1. rewrite list_lookup_imap in Hi.
  destruct (_ !! i) as [c|] eqn:Hc; [|done]. injection Hi as <-. cbn [snd].
  apply list_elem_of_lookup_2, list_elem_of_bind in Hc as (d & Hc & Hdin).
  exists d. split; [done|].
  set (lcols := filter _ (columns nd)) in *. set (rcols := filter _ (columns gdp)) in *.
  assert (Hl : "Total Deaths" ∈ lcols) by (apply list_elem_of_filter; tauto).
  assert (Hr : "GDP per capita" ∈ rcols) by (by apply list_elem_of_filter).
  assert (Hnl : "GDP per capita" ∉ lcols) by (intros [_ ?]%list_elem_of_filter; done).
  destruct (filter _ (rows gdp)) as [|g ms] eqn:Hms.
  - apply list_elem_of_singleton in Hc as ->.
    rewrite cell_merge_left, cell_merge_right by done. auto.
  - apply list_elem_of_fmap in Hc as (g' & -> & Hin).
    rewrite cell_merge_left, cell_merge_right by done. split; [done|]. right.
    rewrite <- Hms in Hin. apply list_elem_of_filter in Hin as [Hkey Hin].
    injection Hkey as ? ?. by exists g'.
Qed.

(** C4.  On tables typed as the datasets are (codes are text, years,
    deaths and GDP per capita are numbers), [death_vs_gdp] plots exactly the
    rows of the left join of the disaster table with the GDP table on
    (ISO, Year) = (Code, Year) whose [Total Deaths] exceeds 5000 and whose
    [Total Deaths] and [GDP per capita] are both on record.  Of the sample's
    joined rows (6000 deaths, GDP 500) and (3000 deaths, GDP 700), only the
    first is plotted. *)
Theorem scatter_plots_major_complete_rows s v1 v2 nd gdp :
  deref s v1 = Some nd → deref s v2 = Some gdp →
  ["ISO"; "Year"; "Total Deaths"] ⊆ columns nd →
  ["Code"; "Year"; "GDP per capita"] ⊆ columns gdp →
  "Total Deaths" ∉ columns gdp → "GDP per capita" ∉ columns nd →
  joinable nd gdp →
  (∃ s',
     death_vs_gdp v1 v2 s = (inr tt, s')
     ∧ figures s'
       = figures s
         ++ [Scatter "Total Deaths" "GDP per capita"
               (map (λ r : row, (cell "Total Deaths" r.2, cell "GDP per capita" r.2))
                    (major_complete nd gdp))])
  ∧ (∀ j, j ∈ rows (joined nd gdp) →
       ∃ d, d ∈ rows nd
            ∧ cell "Total Deaths" j.2 = cell "Total Deaths" d.2
            ∧ (cell "GDP per capita" j.2 = NaN
               ∨ ∃ g, g ∈ rows gdp
                      ∧ cell "Code" g.2 = cell "ISO" d.2
                      ∧ cell "Year" g.2 = cell "Year" d.2
                      ∧ cell "GDP per capita" j.2 = cell "GDP per capita" g.2))
  ∧ shown (figures (death_vs_gdp (Ref 0%nat) (Ref 1%nat) sample_state).2)
    = [[(Num 6000, Num 500)]].
Proof.
  intros H1 H2 Hnd Hgdp Hd Hg Hj. split; [|split].
  - eexists. split.
    { apply death_vs_gdp_run; try done;
        [by apply not_refused_joinable|by apply number_column_joined]. }
    cbn [figures show push]. by rewrite points_deaths_gdp.
  - intros j. apply joined_rows_origin; try done; [apply Hnd|apply Hgdp]; in_list.
  - vm_compute. reflexivity.
Qed.

Lemma scatter_plots_major_complete_rows_witness :
  ∃ s',
    death_vs_gdp (Ref 0%nat) (Ref 1%nat) sample_state = (inr tt, s')
    ∧ figures s'
      = [Scatter "Total Deaths" "GDP per capita"
           (map (λ r : row, (cell "Total Deaths" r.2, cell "GDP per capita" r.2))
                (major_complete sample_disasters sample_gdp))].
Proof.
  apply (scatter_plots_major_complete_rows sample_state (Ref 0%nat) (Ref 1%nat)
           sample_disasters sample_gdp);
    [reflexivity | reflexivity | decide_it | decide_it | decide_it | decide_it
    | repeat split; decide_it].
Defined.

(** ** Empty tables and empty date ranges *)

Lemma group_keys_empty key f : rows f = [] → group_keys key f = [].
Proof. intros H. unfold group_keys. by rewrite H. Qed.

Lemma rows_country_var_empty f : rows f = [] → rows (country_var_frame f) = [].
Proof. intros H. by rewrite rows_country_var_frame, group_keys_empty. Qed.

Lemma rows_country_count_empty f : rows f = [] → rows (country_count_frame f) = [].
Proof. intros H. by rewrite rows_country_count_frame, group_keys_empty. Qed.

Lemma rows_restricted_empty a b f :
  (∀ r, r ∈ rows f → ¬ in_range a b r) → rows (restricted a b f) = [].
Proof. intros H. rewrite rows_restricted. by apply filter_none. Qed.

Lemma rows_joined_empty nd gdp : rows nd = [] → rows (joined nd gdp) = [].
Proof. intros H. unfold joined, merge_left. cbn [rows]. by rewrite H. Qed.

Lemma left_join_all_zero geo agg filled out :
  rows agg = [] → left_join_zero_filled geo agg filled out →
  ∀ r, r ∈ rows out → ∀ c, c ∈ filled → cell c r.2 = Num 0.
Proof.
  intros Hagg (Hlen & _ & Hrow) r (i & Hi)%list_elem_of_lookup_1 c Hc.
  destruct (rows geo !! i) as [g|] eqn:Hg.
  - destruct (Hrow i g Hg) as (r' & Hr' & _ & _ & Hz).
    assert (r' = r) as -> by congruence. apply Hz; [|done].
    intros a Ha. rewrite Hagg in Ha. by apply elem_of_nil in Ha.
  - apply lookup_ge_None in Hg. apply lookup_lt_Some in Hi. lia.
Qed.

Lemma map_distribution_cases_empty s df f b :
  deref s df = Some f → "Year" ∈ columns f → rows f = [] →
  map_distribution_cases df (PyBool b) s = (inl TypeError, s).
Proof.
  intros Hdf HYear Hrows. unfold map_distribution_cases.
  run isinstance_DataFrame_run. run (@eq_refl _ (assert true s)).
  erewrite bind_run by reflexivity.
  run pd_getitem_run.
  erewrite bind_fail; [done|]. unfold column. by rewrite Hrows.
Qed.

(** C5 (amended).  An empty disaster table makes [death_vs_gdp] plot no
    point and [major_disaster_distribution] aggregate no country and show 0
    on every polygon, both without raising; a recompute of the dashboard over
    a date range that holds no row of a table whose years are numbers
    aggregates no country, draws no bar and shows 0 for every metric on every
    polygon.  [map_distribution_cases] itself raises on an empty table: the
    year it asks datetime to build the slider's lower bound from is NaN. *)
Theorem empty_slices_are_zero_filled s df f :
  deref s df = Some f →
  "Year" ∈ columns f → dashboard_columns ⊆ columns f →
  geo_ok (naturalearth_lowres s) country_var_columns →
  (rows f = [] →
   ∀ v2 gdp, deref s v2 = Some gdp →
     ["Code"; "Year"; "GDP per capita"] ⊆ columns gdp →
     "Total Deaths" ∉ columns gdp → "GDP per capita" ∉ columns f →
     ∃ s', death_vs_gdp df v2 s = (inr tt, s')
           ∧ figures s' = figures s ++ [Scatter "Total Deaths" "GDP per capita" []])
  ∧ (rows f = [] →
     ∃ p s', major_disaster_distribution df s = (inr p, s')
             ∧ rows (country_count_frame f) = []
             ∧ length (rows (polygons_data p)) = length (rows (naturalearth_lowres s))
             ∧ ∀ r, r ∈ rows (polygons_data p) → cell "Year_2" r.2 = Num 0)
  ∧ (∀ start_time end_time vis o,
       number_column "Year" f →
       dict_get vis selector_opts = Some o →
       (∀ r, r ∈ rows f → ¬ in_range (year start_time) (year end_time) r) →
       ∃ ax bar s',
         recompute (mkDashboard start_time end_time (start_time, end_time)
                                (dict_keys selector_opts) df true)
                   start_time end_time (Some vis) s = (inr (ax, bar), s')
         ∧ rows (country_var_frame (restricted (year start_time) (year end_time) f)) = []
         ∧ bars_entries bar = []
         ∧ length (rows (polygons_data ax)) = length (rows (naturalearth_lowres s))
         ∧ ∀ r, r ∈ rows (polygons_data ax) →
                ∀ c, c ∈ metric_columns → cell c r.2 = Num 0)
  ∧ (rows f = [] →
     ∀ b, map_distribution_cases df (PyBool b) s = (inl TypeError, s)).
Proof.
  intros Hdf HYear Hcols Hgeo.
  assert (HISO : "ISO" ∈ columns f) by (apply Hcols; in_list).
  assert (HTD : "Total Deaths" ∈ columns f) by (apply Hcols; in_list).
  assert (Hgeo' : geo_ok (naturalearth_lowres s) country_count_columns).
  { eapply geo_ok_weaken; [apply country_count_in_country_var|done]. }
  split; [|split; [|split]].
  - intros Hrows v2 gdp H2 Hgdp Hd Hg. eexists. split.
    { apply death_vs_gdp_run; try done.
      - by has_columns.
      - apply not_refused_no_rows. by left.
      - unfold number_column. by rewrite rows_joined_empty. }
    cbn [figures show push]. rewrite points_deaths_gdp.
    unfold major_complete. by rewrite rows_joined_empty.
  - intros Hrows. eexists _, _. split.
    { apply major_disaster_distribution_run; try done; [apply Hgeo|].
      apply not_refused_no_rows. right. by apply rows_country_count_empty. }
    cbn [polygons_data]. split; [by apply rows_country_count_empty|].
    pose proof (distribution_world_left_join (naturalearth_lowres s) f Hgeo') as Hj.
    split; [apply Hj|].
    intros r Hr. eapply left_join_all_zero; [|apply Hj|done|in_list].
    by apply rows_country_count_empty.
  - intros start_time end_time vis o Hnum Hvis Hnone. unfold recompute. cbn [captured_df].
    pose proof (rows_restricted_empty _ _ _ Hnone) as Hrows.
    eexists _, _, _. split.
    { eapply major_disaster_map_run; eauto.
      - apply Hgeo.
      - intros c _. by apply no_text_no_rows.
      - apply not_refused_no_rows. right. by apply rows_country_var_empty. }
    cbn [polygons_data]. split; [by apply rows_country_var_empty|].
    split.
    { unfold bars_entries. cbn [bars_data]. rewrite rows_top10.
      by rewrite rows_country_var_empty. }
    pose proof (dashboard_world_left_join (naturalearth_lowres s)
                  (restricted (year start_time) (year end_time) f) Hgeo) as Hj.
    split; [apply Hj|].
    intros r Hr c Hc. eapply left_join_all_zero; [|apply Hj|done|].
    + by apply rows_country_var_empty.
    + by apply metric_in_country_var.
  - intros Hrows b. by apply (map_distribution_cases_empty s df f).
Qed.

Lemma empty_slices_are_zero_filled_witness :
  ∃ ax bar s',
    recompute (mkDashboard (mkDatetime 1990 1 1) (mkDatetime 1995 1 1)
                           (mkDatetime 1990 1 1, mkDatetime 1995 1 1)
                           (dict_keys selector_opts) (Ref 0%nat) true)
              (mkDatetime 1990 1 1) (mkDatetime 1995 1 1) (Some "# Disasters") sample_state
    = (inr (ax, bar), s')
    ∧ bars_entries bar = []
    ∧ ∀ r, r ∈ rows (polygons_data ax) → ∀ c, c ∈ metric_columns → cell c r.2 = Num 0.
Proof.
  pose proof (empty_slices_are_zero_filled sample_state (Ref 0%nat) sample_disasters
                eq_refl ltac:(decide_it) ltac:(decide_it) ltac:(split; decide_it))
    as (_ & _ & H & _).
  destruct (H (mkDatetime 1990 1 1) (mkDatetime 1995 1 1) "# Disasters"
              (mkOpt "Year" "Year_2" "# Disasters" "count") ltac:(decide_it) eq_refl)
    as (ax & bar & s' & Hrun & _ & Hbars & _ & Hzero).
  { apply list.Forall_forall. decide_it. }
  by exists ax, bar, s'.
Defined.

(** C5, as stated, fails for [map_distribution_cases]: on an empty table it
    raises a TypeError instead of completing. *)
Lemma dashboard_rejects_empty_table :
  is_DataFrame (state_of empty_disasters) (Ref 0%nat) = true
  ∧ rows empty_disasters = []
  ∧ columns empty_disasters = disaster_columns
  ∧ map_distribution_cases (Ref 0%nat) (PyBool true) (state_of empty_disasters)
    = (inl TypeError, state_of empty_disasters).
Proof. repeat split; vm_compute; reflexivity. Qed.

(** ** Which failures are assertion failures *)

Lemma never_asserts_ret {A} (a : A) : never_asserts (ret a).
Proof. by intros s. Qed.

Lemma never_asserts_raise {A} e : e ≠ AssertionError → never_asserts (@raise A e).
Proof. intros He s [= ?]. done. Qed.

Lemma never_asserts_bind {A B} (m : M A) (k : A → M B) :
  never_asserts m → (∀ a, never_asserts (k a)) → never_asserts (bind m k).
Proof.
  intros Hm Hk s. unfold bind. specialize (Hm s).
  destruct (m s) as [[e|a] s']; [|apply Hk]. simpl in *. congruence.
Qed.

Lemma never_asserts_frame_of v : never_asserts (frame_of v).
Proof. intros s. unfold frame_of. by destruct (deref s v). Qed.

Lemma never_asserts_alloc f : never_asserts (alloc f).
Proof. by intros s. Qed.

Lemma never_asserts_require_columns cs f : never_asserts (require_columns cs f).
Proof. intros s. unfold require_columns. by case_decide. Qed.

Lemma never_asserts_dict_getitem {V} (d : list (string * V)) k :
  never_asserts (dict_getitem d k).
Proof. intros s. unfold dict_getitem. by repeat case_match. Qed.

Lemma never_asserts_dt_datetime y m d : never_asserts (lift (dt_datetime y m d)).
Proof. intros s. unfold dt_datetime. by repeat case_match. Qed.

Lemma never_asserts_compare p c : never_asserts (lift (compare p c)).
Proof. intros s. unfold compare. by case_decide. Qed.

Lemma never_asserts_scalar_le_series a c : never_asserts (lift (scalar_le_series a c)).
Proof. apply never_asserts_compare. Qed.

Lemma never_asserts_series_le_scalar c a : never_asserts (lift (series_le_scalar c a)).
Proof. apply never_asserts_compare. Qed.

Lemma never_asserts_series_gt_scalar c a : never_asserts (lift (series_gt_scalar c a)).
Proof. apply never_asserts_compare. Qed.

Create HintDb asserts discriminated.
#[local] Hint Resolve never_asserts_ret never_asserts_frame_of never_asserts_alloc
  never_asserts_require_columns never_asserts_dict_getitem never_asserts_dt_datetime
  never_asserts_scalar_le_series never_asserts_series_le_scalar
  never_asserts_series_gt_scalar
  : asserts.

Ltac never_asserts :=
  repeat first
    [ apply never_asserts_bind; [|intros ?]
    | solve [auto with asserts]
    | solve [apply never_asserts_raise; discriminate]
    | solve [intros ?; simpl; repeat case_match; simpl; discriminate]
    | case_decide
    | case_match ].

Ltac unfold_pandas :=
  unfold pd_getitem, pd_getitem_mask, pd_getitem_columns, pd_dropna, pd_fillna, pd_merge,
         pd_groupby, groupby_sum, groupby_count, pd_DataFrame, pd_rename, pd_index,
         setitem, pd_sort_values_desc, pd_iloc_head, read_naturalearth_lowres,
         plot_scatter, gv_Polygons, hv_Bars.

Lemma never_asserts_pd_getitem df c : never_asserts (pd_getitem df c).
Proof. unfold_pandas; never_asserts. Qed.

Lemma never_asserts_pd_getitem_mask df m : never_asserts (pd_getitem_mask df m).
Proof. unfold_pandas; never_asserts. Qed.

Lemma never_asserts_pd_getitem_columns df cs : never_asserts (pd_getitem_columns df cs).
Proof. unfold_pandas; never_asserts. Qed.

Lemma never_asserts_pd_dropna df : never_asserts (pd_dropna df).
Proof. unfold_pandas; never_asserts. Qed.

Lemma never_asserts_pd_fillna df v : never_asserts (pd_fillna df v).
Proof. unfold_pandas; never_asserts. Qed.

Lemma never_asserts_pd_merge l r lo ro : never_asserts (pd_merge l r lo ro).
Proof. unfold_pandas; never_asserts. Qed.

Lemma never_asserts_pd_groupby df key : never_asserts (pd_groupby df key).
Proof. unfold_pandas; never_asserts. Qed.

Lemma never_asserts_groupby_sum g c : never_asserts (groupby_sum g c).
Proof. unfold_pandas; never_asserts. Qed.

Lemma never_asserts_groupby_count g c : never_asserts (groupby_count g c).
Proof. unfold_pandas; never_asserts. Qed.

Lemma never_asserts_pd_DataFrame d : never_asserts (pd_DataFrame d).
Proof. unfold_pandas; never_asserts. Qed.

Lemma never_asserts_pd_rename df m : never_asserts (pd_rename df m).
Proof. unfold_pandas; never_asserts. Qed.

Lemma never_asserts_pd_index df : never_asserts (pd_index df).
Proof. unfold_pandas; never_asserts. Qed.

Lemma never_asserts_setitem df c vals : never_asserts (setitem df c vals).
Proof. unfold_pandas; never_asserts. Qed.

Lemma never_asserts_pd_sort_values_desc df c : never_asserts (pd_sort_values_desc df c).
Proof. unfold_pandas; never_asserts. Qed.

Lemma never_asserts_pd_iloc_head df n : never_asserts (pd_iloc_head df n).
Proof. unfold_pandas; never_asserts. Qed.

Lemma never_asserts_read_naturalearth_lowres : never_asserts (read_naturalearth_lowres).
Proof. unfold_pandas; never_asserts. Qed.

Lemma never_asserts_plot_scatter df x y : never_asserts (plot_scatter df x y).
Proof. unfold_pandas; never_asserts. Qed.

Lemma never_asserts_gv_Polygons df vd ci sz : never_asserts (gv_Polygons df vd ci sz).
Proof. unfold_pandas; never_asserts. Qed.

Lemma never_asserts_hv_Bars df kd vd sz : never_asserts (hv_Bars df kd vd sz).
Proof. unfold_pandas; never_asserts. Qed.

#[local] Hint Resolve
  never_asserts_pd_getitem
  never_asserts_pd_getitem_mask
  never_asserts_pd_getitem_columns
  never_asserts_pd_dropna
  never_asserts_pd_fillna
  never_asserts_pd_merge
  never_asserts_pd_groupby
  never_asserts_groupby_sum
  never_asserts_groupby_count
  never_asserts_pd_DataFrame
  never_asserts_pd_rename
  never_asserts_pd_index
  never_asserts_setitem
  never_asserts_pd_sort_values_desc
  never_asserts_pd_iloc_head
  never_asserts_read_naturalearth_lowres
  never_asserts_plot_scatter
  never_asserts_gv_Polygons
  never_asserts_hv_Bars
  : asserts.

Lemma never_asserts_aggregate g keys d : never_asserts (aggregate g keys d).
Proof.
  revert d. induction keys as [|i keys IH]; intros d; cbn [aggregate]; never_asserts.
Qed.

#[local] Hint Resolve never_asserts_aggregate : asserts.

Lemma never_asserts_major_disaster_map df start_time end_time vis :
  never_asserts (major_disaster_map df start_time end_time vis).
Proof. unfold major_disaster_map. never_asserts. Qed.

Lemma assert_cases (b : bool) s :
  assert b s = if b then (inr tt, s) else (inl AssertionError, s).
Proof. by destruct b. Qed.

Lemma death_vs_gdp_asserts s v1 v2 :
  if is_DataFrame s v1 && is_DataFrame s v2
  then (death_vs_gdp v1 v2 s).1 ≠ inl AssertionError
  else death_vs_gdp v1 v2 s = (inl AssertionError, s).
Proof.
  unfold death_vs_gdp, isinstance_DataFrame.
  rewrite (bind_run _ _ s (is_DataFrame s v1) s) by done.
  destruct (is_DataFrame s v1); [|done].
  rewrite (bind_run _ _ s tt s) by done.
  rewrite (bind_run _ _ s (is_DataFrame s v2) s) by done.
  destruct (is_DataFrame s v2); [|done].
  rewrite (bind_run _ _ s tt s) by done. cbn [andb].
  revert s. never_asserts.
Qed.

Lemma major_disaster_distribution_asserts s v :
  if is_DataFrame s v
  then (major_disaster_distribution v s).1 ≠ inl AssertionError
  else major_disaster_distribution v s = (inl AssertionError, s).
Proof.
  unfold major_disaster_distribution, isinstance_DataFrame.
  rewrite (bind_run _ _ s (is_DataFrame s v) s) by done.
  destruct (is_DataFrame s v); [|done].
  rewrite (bind_run _ _ s tt s) by done.
  revert s. never_asserts.
Qed.

Lemma map_distribution_cases_asserts s v voila :
  if is_DataFrame s v && isinstance_bool voila
  then (map_distribution_cases v voila s).1 ≠ inl AssertionError
  else map_distribution_cases v voila s = (inl AssertionError, s).
Proof.
  unfold map_distribution_cases, isinstance_DataFrame.
  rewrite (bind_run _ _ s (is_DataFrame s v) s) by done.
  destruct (is_DataFrame s v); [|done].
  rewrite (bind_run _ _ s tt s) by done.
  destruct (isinstance_bool voila); [|done].
  rewrite (bind_run _ _ s tt s) by done. cbn [andb].
  revert s. never_asserts.
Qed.

(** C7.  Each entry point raises its AssertionError, before doing anything
    else, exactly when an argument has the wrong type: a frame argument that
    is no DataFrame, or a [voila] that is no bool.  No other failure of an
    entry point, and no failure of the dashboard callback, is an
    AssertionError: whatever else goes wrong comes out of pandas or datetime
    as a KeyError, TypeError, ValueError or OverflowError. *)
Theorem only_wrong_types_are_asserted s :
  (∀ v1 v2,
     if is_DataFrame s v1 && is_DataFrame s v2
     then (death_vs_gdp v1 v2 s).1 ≠ inl AssertionError
     else death_vs_gdp v1 v2 s = (inl AssertionError, s))
  ∧ (∀ v,
       if is_DataFrame s v
       then (major_disaster_distribution v s).1 ≠ inl AssertionError
       else major_disaster_distribution v s = (inl AssertionError, s))
  ∧ (∀ v voila,
       if is_DataFrame s v && isinstance_bool voila
       then (map_distribution_cases v voila s).1 ≠ inl AssertionError
       else map_distribution_cases v voila s = (inl AssertionError, s))
  ∧ (∀ v start_time end_time vis,
       (major_disaster_map v start_time end_time vis s).1 ≠ inl AssertionError).
Proof.
  split; [|split; [|split]].
  - apply death_vs_gdp_asserts.
  - apply major_disaster_distribution_asserts.
  - apply map_distribution_cases_asserts.
  - intros. apply never_asserts_major_disaster_map.
Qed.

(** ** What a call leaves untouched *)

Section frame.
Context (s0 : state).

Lemma kept_refl : kept s0 s0.
Proof. split; [by apply take_ge|done]. Qed.

Lemma kept_length s : kept s0 s → (length (heap s0) ≤ length (heap s))%nat.
Proof. intros [H _]. rewrite <- H at 1. rewrite length_take. lia. Qed.

Lemma kept_push f s : kept s0 s → kept s0 (push f s).
Proof.
  intros H. pose proof (kept_length s H). destruct H as [H ?]. split; [|done].
  cbn [push heap]. by rewrite take_app_le.
Qed.

Lemma kept_update l f s : (length (heap s0) ≤ l)%nat → kept s0 s → kept s0 (update l f s).
Proof. intros ? [H ?]. split; [|done]. cbn [update heap]. by rewrite take_insert_ge. Qed.

Lemma kept_show g s : kept s0 s → kept s0 (show g s).
Proof. by intros [? ?]. Qed.

Lemma kept_deref s v f : kept s0 s → deref s0 v = Some f → deref s v = Some f.
Proof.
  intros [H _]. destruct v as [l| | | |]; try done. cbn [deref]. intros Hl.
  rewrite <- H in Hl. rewrite lookup_take_Some in Hl. tauto.
Qed.

Lemma keeps_ret {A} (a : A) (Q : A → Prop) : Q a → keeps s0 (ret a) Q.
Proof. intros ? s ?. split; [done|]. by intros ? [= <-]. Qed.

Lemma keeps_raise {A} e (Q : A → Prop) : keeps s0 (raise e) Q.
Proof. intros s ?. by split. Qed.

Lemma keeps_bind {A B} (m : M A) (k : A → M B) (Q : A → Prop) (R : B → Prop) :
  keeps s0 m Q → (∀ a, Q a → keeps s0 (k a) R) → keeps s0 (bind m k) R.
Proof.
  intros Hm Hk s Hs. unfold bind. destruct (Hm s Hs) as [Hs' HQ].
  destruct (m s) as [[e|a] s']; [by split|]. apply Hk; auto.
Qed.

Lemma keeps_weaken {A} (m : M A) (Q Q' : A → Prop) :
  keeps s0 m Q → (∀ a, Q a → Q' a) → keeps s0 m Q'.
Proof. intros Hm HQ s Hs. destruct (Hm s Hs). split; auto. Qed.

Lemma keeps_frame_of v : keeps s0 (frame_of v) (λ _, True).
Proof. intros s ?. unfold frame_of. by destruct (deref s v). Qed.

Lemma keeps_alloc f : keeps s0 (alloc f) (fresh s0).
Proof.
  intros s Hs. split; [by apply kept_push|].
  intros a [= <-]. by apply kept_length.
Qed.

Lemma keeps_require_columns cs f : keeps s0 (require_columns cs f) (λ _, True).
Proof. intros s ?. unfold require_columns. by case_decide. Qed.

Lemma keeps_dict_getitem {V} (d : list (string * V)) k :
  keeps s0 (dict_getitem d k) (λ _, True).
Proof. intros s ?. unfold dict_getitem. by repeat case_match. Qed.

Lemma keeps_lift {A} (r : exn + A) : keeps s0 (lift r) (λ _, True).
Proof. intros s ?. by destruct r. Qed.

Lemma keeps_assert b : keeps s0 (assert b) (λ _, True).
Proof. intros s ?. by destruct b. Qed.

Lemma keeps_isinstance_DataFrame v : keeps s0 (isinstance_DataFrame v) (λ _, True).
Proof. by intros s ?. Qed.

Lemma keeps_setitem df c vals : fresh s0 df → keeps s0 (setitem df c vals) (λ _, True).
Proof.
  intros Hf s Hs. unfold setitem, bind, frame_of.
  destruct df as [l| | | |]; try done.
  destruct (deref s (Ref l)); [|by split]. split; [|done].
  cbn [snd]. by apply kept_update.
Qed.

Lemma keeps_read_naturalearth_lowres : keeps s0 read_naturalearth_lowres (fresh s0).
Proof. intros s Hs. by apply keeps_alloc. Qed.

Create HintDb frame discriminated.
#[local] Hint Resolve keeps_frame_of keeps_alloc keeps_require_columns keeps_dict_getitem
  keeps_lift keeps_assert keeps_isinstance_DataFrame keeps_read_naturalearth_lowres
  keeps_raise keeps_setitem : frame.

Ltac keeps :=
  repeat first
    [ eapply keeps_bind; [solve [eauto with frame]|intros ? ?]
    | solve [eauto with frame]
    | solve [apply keeps_ret; auto]
    | solve [eapply keeps_weaken; [eauto with frame|auto]]
    | case_decide ].

Lemma keeps_pd_getitem df c : keeps s0 (pd_getitem df c) (λ _, True).
Proof. unfold_pandas; keeps. Qed.

Lemma keeps_pd_getitem_mask df m : keeps s0 (pd_getitem_mask df m) (fresh s0).
Proof. unfold_pandas; keeps. Qed.

Lemma keeps_pd_getitem_columns df cs : keeps s0 (pd_getitem_columns df cs) (fresh s0).
Proof. unfold_pandas; keeps. Qed.

Lemma keeps_pd_dropna df : keeps s0 (pd_dropna df) (fresh s0).
Proof. unfold_pandas; keeps. Qed.

Lemma keeps_pd_fillna df v : keeps s0 (pd_fillna df v) (fresh s0).
Proof. unfold_pandas; keeps. Qed.

Lemma keeps_pd_merge l r lo ro : keeps s0 (pd_merge l r lo ro) (fresh s0).
Proof. unfold_pandas; keeps. Qed.

Lemma keeps_pd_groupby df key : keeps s0 (pd_groupby df key) (λ _, True).
Proof. unfold_pandas; keeps. Qed.

Lemma keeps_groupby_sum g c : keeps s0 (groupby_sum g c) (λ _, True).
Proof. unfold_pandas; keeps. Qed.

Lemma keeps_groupby_count g c : keeps s0 (groupby_count g c) (λ _, True).
Proof. unfold_pandas; keeps. Qed.

Lemma keeps_pd_DataFrame d : keeps s0 (pd_DataFrame d) (fresh s0).
Proof. unfold_pandas; keeps. Qed.

Lemma keeps_pd_rename df m : keeps s0 (pd_rename df m) (fresh s0).
Proof. unfold_pandas; keeps. Qed.

Lemma keeps_pd_index df : keeps s0 (pd_index df) (λ _, True).
Proof. unfold_pandas; keeps. Qed.

Lemma keeps_pd_sort_values_desc df c : keeps s0 (pd_sort_values_desc df c) (fresh s0).
Proof. unfold_pandas; keeps. Qed.

Lemma keeps_pd_iloc_head df n : keeps s0 (pd_iloc_head df n) (fresh s0).
Proof. unfold_pandas; keeps. Qed.

Lemma keeps_plot_scatter df x y : keeps s0 (plot_scatter df x y) (λ _, True).
Proof. unfold plot_scatter. eapply keeps_bind; [apply keeps_frame_of|intros f _].
  eapply keeps_bind; [apply keeps_require_columns|intros _ _].
  intros s Hs. split; [by apply kept_show|done]. Qed.

Lemma keeps_gv_Polygons df vd ci sz : keeps s0 (gv_Polygons df vd ci sz) (λ _, True).
Proof. unfold_pandas; keeps. Qed.

Lemma keeps_hv_Bars df kd vd sz : keeps s0 (hv_Bars df kd vd sz) (λ _, True).
Proof. unfold_pandas; keeps. Qed.

#[local] Hint Resolve
  keeps_pd_getitem
  keeps_pd_getitem_mask
  keeps_pd_getitem_columns
  keeps_pd_dropna
  keeps_pd_fillna
  keeps_pd_merge
  keeps_pd_groupby
  keeps_groupby_sum
  keeps_groupby_count
  keeps_pd_DataFrame
  keeps_pd_rename
  keeps_pd_index
  keeps_pd_sort_values_desc
  keeps_pd_iloc_head
  keeps_plot_scatter
  keeps_gv_Polygons
  keeps_hv_Bars
  : frame.

Lemma keeps_aggregate g keys d : keeps s0 (aggregate g keys d) (λ _, True).
Proof.
  revert d. induction keys as [|i keys IH]; intros d; cbn [aggregate]; [keeps|].
  eapply keeps_bind; [apply keeps_dict_getitem|intros o _].
  eapply keeps_bind with (Q := λ _, True); [|intros d' _; apply IH].
  repeat case_decide; keeps.
Qed.

#[local] Hint Resolve keeps_aggregate : frame.

Lemma keeps_death_vs_gdp v1 v2 : keeps s0 (death_vs_gdp v1 v2) (λ _, True).
Proof. unfold death_vs_gdp. keeps. Qed.

Lemma keeps_major_disaster_distribution v :
  keeps s0 (major_disaster_distribution v) (λ _, True).
Proof. unfold major_disaster_distribution. keeps. Qed.

Lemma keeps_major_disaster_map v start_time end_time vis :
  keeps s0 (major_disaster_map v start_time end_time vis) (λ _, True).
Proof. unfold major_disaster_map. keeps. Qed.

#[local] Hint Resolve keeps_major_disaster_map : frame.

Lemma keeps_map_distribution_cases v voila :
  keeps s0 (map_distribution_cases v voila) (λ _, True).
Proof. unfold map_distribution_cases. keeps. repeat case_match; keeps. Qed.
End frame.

Lemma kept_recomputes d events s0 s : kept s0 s → kept s0 (recomputes d events s).
Proof.
  revert s. induction events as [|e events IH]; intros s Hs; [done|].
  cbn [recomputes foldl]. apply IH. by apply (keeps_major_disaster_map s0 _ _ _ _ s Hs).
Qed.

Example setitem_writes_in_place :
  deref (setitem (Ref 0%nat) "inde" [] (state_of empty_disasters)).2 (Ref 0%nat)
  ≠ deref (state_of empty_disasters) (Ref 0%nat).
Proof. vm_compute. discriminate. Qed.

(** C9.  Whatever arguments it is given and however it ends, no entry point
    and no recompute of the dashboard changes an object that existed before
    the call: every DataFrame of the store, the disaster table and the GDP
    table among them, is found afterwards at its reference with the same
    content, and so is the country table on disk.  The same holds after any
    number of recomputes. *)
Theorem inputs_are_never_mutated s :
  (∀ v1 v2, kept s (death_vs_gdp v1 v2 s).2)
  ∧ (∀ v, kept s (major_disaster_distribution v s).2)
  ∧ (∀ v voila, kept s (map_distribution_cases v voila s).2)
  ∧ (∀ v start_time end_time vis, kept s (major_disaster_map v start_time end_time vis s).2)
  ∧ (∀ d events, kept s (recomputes d events s))
  ∧ (∀ s', kept s s' → ∀ v f, deref s v = Some f → deref s' v = Some f).
Proof.
  pose proof (kept_refl s) as Hs.
  split; [|split; [|split; [|split; [|split]]]].
  - intros v1 v2. apply (keeps_death_vs_gdp s v1 v2 s Hs).
  - intros v. apply (keeps_major_disaster_distribution s v s Hs).
  - intros v voila. apply (keeps_map_distribution_cases s v voila s Hs).
  - intros v a b vis. apply (keeps_major_disaster_map s v a b vis s Hs).
  - intros d events. by apply kept_recomputes.
  - intros s' Hs' v f. by apply kept_deref.
Qed.

(** ** Calling twice *)

Section twice.
Context (n0 : nat) (b1 b2 : state).
Hypothesis Hn1 : (n0 ≤ length (heap b1))%nat.
Hypothesis Hn2 : (n0 ≤ length (heap b2))%nat.

Abbreviation sim := (sim n0 b1 b2).
Abbreviation vsim := (vsim n0 b1 b2).
Abbreviation vfresh := (vfresh b1 b2).
Abbreviation gsim := (gsim n0 b1 b2).
Abbreviation rel := (rel n0 b1 b2).

Lemma vfresh_vsim v1 v2 : vfresh v1 v2 → vsim v1 v2.
Proof. by right. Qed.

Lemma sim_deref s1 s2 v1 v2 : sim s1 s2 → vsim v1 v2 → deref s1 v1 = deref s2 v2.
Proof.
  intros (Ht1 & Ht2 & Hd & _) [[<- Hold]|(i & -> & ->)].
  - destruct v1 as [l| | | |]; try done. cbn [deref].
    rewrite <- (lookup_take_lt (heap s1) n0 l), <- (lookup_take_lt (heap s2) n0 l) by done.
    by rewrite Ht1, Ht2.
  - cbn [deref]. by rewrite <- !lookup_drop, Hd.
Qed.

Lemma rel_ret {A} (R : A → A → Prop) a1 a2 : R a1 a2 → rel R (ret a1) (ret a2).
Proof. by intros ? s1 s2 ?. Qed.

Lemma rel_raise {A} (R : A → A → Prop) e : rel R (raise e) (raise e).
Proof. by intros s1 s2 ?. Qed.

Lemma rel_bind {A B} (Q : A → A → Prop) (R : B → B → Prop) m1 m2 k1 k2 :
  rel Q m1 m2 → (∀ a1 a2, Q a1 a2 → rel R (k1 a1) (k2 a2)) → rel R (bind m1 k1) (bind m2 k2).
Proof.
  intros Hm Hk s1 s2 Hs. unfold bind. destruct (Hm s1 s2 Hs) as [Hs' HQ].
  destruct (m1 s1) as [[e1|a1] s1'], (m2 s2) as [[e2|a2] s2']; cbn in *; try done.
  by apply Hk.
Qed.

Lemma rel_frame_of v1 v2 : vsim v1 v2 → rel eq (frame_of v1) (frame_of v2).
Proof.
  intros Hv s1 s2 Hs. unfold frame_of. rewrite (sim_deref s1 s2 v1 v2) by done.
  by destruct (deref s2 v2).
Qed.

Lemma sim_push f s1 s2 : sim s1 s2 → sim (push f s1) (push f s2).
Proof.
  intros (Ht1 & Ht2 & Hd & Hl1 & Hl2 & Hg & Hf & Hfl1 & Hfl2).
  repeat split; cbn [push heap naturalearth_lowres figures]; try done.
  - by rewrite take_app_le by lia.
  - by rewrite take_app_le by lia.
  - rewrite !drop_app_le by lia. by rewrite Hd.
  - rewrite length_app. lia.
  - rewrite length_app. lia.
Qed.

Lemma rel_alloc f : rel vfresh (alloc f) (alloc f).
Proof.
  intros s1 s2 Hs. split; [apply sim_push; exact Hs|].
  destruct Hs as (_ & _ & Hd & Hl1 & Hl2 & _). cbn.
  apply (f_equal length) in Hd. rewrite !length_drop in Hd.
  exists (length (heap s1) - length (heap b1))%nat. split; f_equal; lia.
Qed.

Lemma rel_read_naturalearth_lowres :
  rel vfresh read_naturalearth_lowres read_naturalearth_lowres.
Proof.
  intros s1 s2 Hs. unfold read_naturalearth_lowres.
  assert (naturalearth_lowres s1 = naturalearth_lowres s2) as -> by apply Hs.
  by apply rel_alloc.
Qed.

Lemma rel_require_columns cs f : rel eq (require_columns cs f) (require_columns cs f).
Proof. intros s1 s2 ?. unfold require_columns. by case_decide. Qed.

Lemma rel_dict_getitem {V} (d : list (string * V)) k :
  rel eq (dict_getitem d k) (dict_getitem d k).
Proof.
  intros s1 s2 ?. unfold dict_getitem.
  destruct k as [k|]; [destruct (dict_get k d)|]; by split.
Qed.

Lemma rel_lift {A} (r : exn + A) : rel eq (lift r) (lift r).
Proof. intros s1 s2 ?. by destruct r. Qed.

Lemma rel_assert b : rel eq (assert b) (assert b).
Proof. intros s1 s2 ?. by destruct b. Qed.

Lemma rel_isinstance_DataFrame v1 v2 :
  vsim v1 v2 → rel eq (isinstance_DataFrame v1) (isinstance_DataFrame v2).
Proof.
  intros Hv s1 s2 Hs. split; [done|]. cbn. unfold is_DataFrame.
  by rewrite (sim_deref s1 s2 v1 v2).
Qed.

Lemma rel_setitem df1 df2 c vals :
  vfresh df1 df2 → rel eq (setitem df1 c vals) (setitem df2 c vals).
Proof.
  intros Hv s1 s2 Hs. unfold setitem, bind, frame_of.
  rewrite (sim_deref s1 s2 df1 df2) by (done || by apply vfresh_vsim).
  destruct Hv as (i & -> & ->). destruct (deref s2 _) as [f|]; [|by split].
  split; [|done]. cbn [snd].
  destruct Hs as (Ht1 & Ht2 & Hd & Hl1 & Hl2 & Hg & Hf & Hfl1 & Hfl2).
  repeat split; cbn [update heap naturalearth_lowres figures]; try done.
  - by rewrite take_insert_ge by lia.
  - by rewrite take_insert_ge by lia.
  - rewrite !drop_insert_ge by lia.
    replace (length (heap b1) + i - length (heap b1))%nat with i by lia.
    replace (length (heap b2) + i - length (heap b2))%nat with i by lia.
    by rewrite Hd.
  - by rewrite length_insert.
  - by rewrite length_insert.
Qed.

Lemma sim_show g s1 s2 : sim s1 s2 → sim (show g s1) (show g s2).
Proof.
  intros (Ht1 & Ht2 & Hd & Hl1 & Hl2 & Hg & Hf & Hfl1 & Hfl2).
  repeat split; cbn [show heap naturalearth_lowres figures]; try done.
  - rewrite !drop_app_le by lia. by rewrite Hf.
  - rewrite length_app. lia.
  - rewrite length_app. lia.
Qed.

Create HintDb sim discriminated.
#[local] Hint Resolve vfresh_vsim rel_frame_of rel_alloc rel_read_naturalearth_lowres
  rel_require_columns rel_dict_getitem rel_lift rel_assert rel_isinstance_DataFrame
  rel_setitem rel_raise : sim.

Ltac rels :=
  repeat first
    [ solve [eauto with sim]
    | eapply rel_bind; [solve [eauto with sim]|intros ? ? ?; try subst]
    | solve [apply rel_ret; auto with sim]
    | case_decide ].

Lemma rel_pd_getitem v1 v2 c :
  vsim v1 v2 → rel eq (pd_getitem v1 c) (pd_getitem v2 c).
Proof. intros Hv. unfold_pandas. rels. Qed.

Lemma rel_pd_getitem_mask v1 v2 m :
  vsim v1 v2 → rel vfresh (pd_getitem_mask v1 m) (pd_getitem_mask v2 m).
Proof. intros Hv. unfold_pandas. rels. Qed.

Lemma rel_pd_getitem_columns v1 v2 cs :
  vsim v1 v2 → rel vfresh (pd_getitem_columns v1 cs) (pd_getitem_columns v2 cs).
Proof. intros Hv. unfold_pandas. rels. Qed.

Lemma rel_pd_dropna v1 v2 :
  vsim v1 v2 → rel vfresh (pd_dropna v1) (pd_dropna v2).
Proof. intros Hv. unfold_pandas. rels. Qed.

Lemma rel_pd_fillna v1 v2 v :
  vsim v1 v2 → rel vfresh (pd_fillna v1 v) (pd_fillna v2 v).
Proof. intros Hv. unfold_pandas. rels. Qed.

Lemma rel_pd_rename v1 v2 m :
  vsim v1 v2 → rel vfresh (pd_rename v1 m) (pd_rename v2 m).
Proof. intros Hv. unfold_pandas. rels. Qed.

Lemma rel_pd_index v1 v2 :
  vsim v1 v2 → rel eq (pd_index v1) (pd_index v2).
Proof. intros Hv. unfold_pandas. rels. Qed.

Lemma rel_pd_sort_values_desc v1 v2 c :
  vsim v1 v2 → rel vfresh (pd_sort_values_desc v1 c) (pd_sort_values_desc v2 c).
Proof. intros Hv. unfold_pandas. rels. Qed.

Lemma rel_pd_iloc_head v1 v2 n :
  vsim v1 v2 → rel vfresh (pd_iloc_head v1 n) (pd_iloc_head v2 n).
Proof. intros Hv. unfold_pandas. rels. Qed.

Lemma rel_gv_Polygons v1 v2 vd ci sz :
  vsim v1 v2 → rel eq (gv_Polygons v1 vd ci sz) (gv_Polygons v2 vd ci sz).
Proof. intros Hv. unfold_pandas. rels. Qed.

Lemma rel_hv_Bars v1 v2 kd vd sz :
  vsim v1 v2 → rel eq (hv_Bars v1 kd vd sz) (hv_Bars v2 kd vd sz).
Proof. intros Hv. unfold_pandas. rels. Qed.

Lemma rel_pd_merge l1 l2 r1 r2 lo ro :
  vsim l1 l2 → vsim r1 r2 → rel vfresh (pd_merge l1 r1 lo ro) (pd_merge l2 r2 lo ro).
Proof. intros Hl Hr. unfold_pandas. rels. Qed.

Lemma rel_pd_DataFrame d : rel vfresh (pd_DataFrame d) (pd_DataFrame d).
Proof. unfold_pandas. rels. Qed.

Lemma rel_pd_groupby v1 v2 key :
  vsim v1 v2 → rel gsim (pd_groupby v1 key) (pd_groupby v2 key).
Proof.
  intros Hv. unfold pd_groupby.
  eapply rel_bind; [by apply rel_frame_of|intros f ? <-].
  eapply rel_bind; [apply rel_require_columns|intros _ _ _].
  by apply rel_ret.
Qed.

Lemma rel_groupby_sum g1 g2 c : gsim g1 g2 → rel eq (groupby_sum g1 c) (groupby_sum g2 c).
Proof.
  intros [Hv Hk]. unfold groupby_sum. rewrite Hk.
  eapply rel_bind; [by apply rel_frame_of|intros f ? <-]. rels.
Qed.

Lemma rel_groupby_count g1 g2 c :
  gsim g1 g2 → rel eq (groupby_count g1 c) (groupby_count g2 c).
Proof.
  intros [Hv Hk]. unfold groupby_count. rewrite Hk.
  eapply rel_bind; [by apply rel_frame_of|intros f ? <-]. rels.
Qed.

Lemma rel_plot_scatter v1 v2 x y :
  vsim v1 v2 → rel eq (plot_scatter v1 x y) (plot_scatter v2 x y).
Proof.
  intros Hv. unfold plot_scatter.
  eapply rel_bind; [by apply rel_frame_of|intros f ? <-].
  eapply rel_bind; [apply rel_require_columns|intros _ _ _].
  intros s1 s2 Hs. split; [apply sim_show; exact Hs|done].
Qed.

#[local] Hint Resolve
  rel_pd_getitem
  rel_pd_getitem_mask
  rel_pd_getitem_columns
  rel_pd_dropna
  rel_pd_fillna
  rel_pd_rename
  rel_pd_index
  rel_pd_sort_values_desc
  rel_pd_iloc_head
  rel_gv_Polygons
  rel_hv_Bars
  rel_pd_merge rel_pd_DataFrame rel_pd_groupby rel_groupby_sum rel_groupby_count
  rel_plot_scatter : sim.

Lemma rel_aggregate g1 g2 keys d :
  gsim g1 g2 → rel eq (aggregate g1 keys d) (aggregate g2 keys d).
Proof.
  intros Hg. revert d. induction keys as [|i keys IH]; intros d; cbn [aggregate]; [rels|].
  eapply rel_bind; [apply rel_dict_getitem|intros o ? <-].
  eapply rel_bind with (Q := eq); [|intros d' ? <-; apply IH].
  repeat case_decide; rels.
Qed.

#[local] Hint Resolve rel_aggregate : sim.

Lemma rel_death_vs_gdp v1 v2 :
  vsim v1 v1 → vsim v2 v2 → rel eq (death_vs_gdp v1 v2) (death_vs_gdp v1 v2).
Proof. intros H1 H2. unfold death_vs_gdp. rels. Qed.

Lemma rel_major_disaster_distribution v :
  vsim v v → rel eq (major_disaster_distribution v) (major_disaster_distribution v).
Proof. intros Hv. unfold major_disaster_distribution. rels. Qed.

Lemma rel_major_disaster_map v start_time end_time vis :
  vsim v v →
  rel eq (major_disaster_map v start_time end_time vis)
         (major_disaster_map v start_time end_time vis).
Proof. intros Hv. unfold major_disaster_map. rels. Qed.

#[local] Hint Resolve rel_major_disaster_map : sim.

Lemma rel_map_distribution_cases v voila :
  vsim v v → rel eq (map_distribution_cases v voila) (map_distribution_cases v voila).
Proof. intros Hv. unfold map_distribution_cases. rels. repeat case_match; rels. Qed.
End twice.

Lemma same_again_fixed {A} (m : M A) s : (m s).2 = s → same_again m s.
Proof. intros H. unfold same_again. cbv zeta. by rewrite !H. Qed.

Lemma same_again_rel {A} (m : M A) s :
  kept s (m s).2 →
  rel (length (heap s)) s (m s).2 eq m m →
  same_again m s.
Proof.
  intros Hk Hrel. pose proof (kept_length _ _ Hk) as Hlen. destruct Hk as [Hk Hg].
  destruct (Hrel s (m s).2) as [Hs Hr].
  { repeat split; try done; try lia.
    - by rewrite Hk, take_ge.
    - by rewrite !drop_ge.
    - by rewrite !drop_ge. }
  unfold same_again, derived, drawn. cbv zeta.
  destruct Hs as (_ & _ & Hd & _ & _ & _ & Hf & _). split; [|by split].
  destruct (m s).1, (m (m s).2).1; try done; congruence.
Qed.

Lemma vsim_old n0 b1 b2 s v f :
  deref s v = Some f → n0 = length (heap s) → vsim n0 b1 b2 v v.
Proof.
  intros Hv ->. left. split; [done|]. destruct v; try done.
  by apply lookup_lt_Some in Hv.
Qed.

Lemma not_DataFrame s v : deref s v = None → is_DataFrame s v = false.
Proof.
  intros H. unfold is_DataFrame. rewrite H. apply bool_decide_eq_false.
  by intros [? ?].
Qed.

Lemma major_disaster_map_dangling s v start_time end_time vis :
  deref s v = None →
  major_disaster_map v start_time end_time vis s = (inl TypeError, s).
Proof.
  intros H. unfold major_disaster_map, pd_getitem.
  erewrite bind_fail; [done|]. erewrite bind_fail; [done|].
  unfold frame_of. by rewrite H.
Qed.

(** C8.  Every reporter is a function of the tables it is given and of the
    country table: called a second time with the same arguments, in the store
    the first call left behind, it returns the same result (or fails the same
    way), derives the same tables in the same order and draws the same
    figures. *)
Theorem reporters_repeat_themselves s :
  (∀ v1 v2, same_again (death_vs_gdp v1 v2) s)
  ∧ (∀ v, same_again (major_disaster_distribution v) s)
  ∧ (∀ v voila, same_again (map_distribution_cases v voila) s)
  ∧ (∀ v start_time end_time vis,
       same_again (major_disaster_map v start_time end_time vis) s).
Proof.
  pose proof (kept_refl s) as Hs.
  split; [|split; [|split]].
  - intros v1 v2. destruct (deref s v1) as [f1|] eqn:H1.
    + destruct (deref s v2) as [f2|] eqn:H2.
      * apply same_again_rel; [apply (keeps_death_vs_gdp s v1 v2 s Hs)|].
        apply rel_death_vs_gdp; first [lia | by eapply vsim_old | apply (kept_length s), (keeps_death_vs_gdp s v1 v2 s Hs)].
      * apply same_again_fixed.
        pose proof (death_vs_gdp_asserts s v1 v2) as H.
        rewrite (not_DataFrame s v2), andb_false_r in H by done. by rewrite H.
    + apply same_again_fixed.
      pose proof (death_vs_gdp_asserts s v1 v2) as H.
      rewrite (not_DataFrame s v1) in H by done. by rewrite H.
  - intros v. destruct (deref s v) as [f|] eqn:Hv.
    + apply same_again_rel; [apply (keeps_major_disaster_distribution s v s Hs)|].
      apply rel_major_disaster_distribution; first [lia | by eapply vsim_old | apply (kept_length s), (keeps_major_disaster_distribution s v s Hs)].
    + apply same_again_fixed.
      pose proof (major_disaster_distribution_asserts s v) as H.
      rewrite (not_DataFrame s v) in H by done. by rewrite H.
  - intros v voila. destruct (deref s v) as [f|] eqn:Hv.
    + apply same_again_rel; [apply (keeps_map_distribution_cases s v voila s Hs)|].
      apply rel_map_distribution_cases; first [lia | by eapply vsim_old | apply (kept_length s), (keeps_map_distribution_cases s v voila s Hs)].
    + apply same_again_fixed.
      pose proof (map_distribution_cases_asserts s v voila) as H.
      rewrite (not_DataFrame s v) in H by done. by rewrite H.
  - intros v a b vis. destruct (deref s v) as [f|] eqn:Hv.
    + apply same_again_rel; [apply (keeps_major_disaster_map s v a b vis s Hs)|].
      apply rel_major_disaster_map; first [lia | by eapply vsim_old | apply (kept_length s), (keeps_major_disaster_map s v a b vis s Hs)].
    + apply same_again_fixed. by rewrite major_disaster_map_dangling.
Qed.

(** * More on the reporters

    Outcomes of the entry points and of the callback on every DataFrame,
    sums and counts across the date filter, the bar chart against the table
    it is cut from, and the scatter plot as a join of its two arguments.

    Where a property needs the reporter to get through pandas, the tables
    are typed as the dataset is: country codes are text, years and measures
    are integers or missing, and the sums stay within 2^53. *)

(** ** The slider's bounds *)

Lemma foldr_min_spec z zs :
  foldr Z.min z zs ∈ z :: zs ∧ ∀ y, y ∈ z :: zs → foldr Z.min z zs ≤ y.
Proof.
  induction zs as [|x zs [Hin Hle]]; cbn [foldr].
  - split; [apply list_elem_of_here|]. intros y ->%list_elem_of_singleton. lia.
  - split.
    + destruct (Z.min_spec x (foldr Z.min z zs)) as [[_ ->]|[_ ->]].
      * apply list_elem_of_further, list_elem_of_here.
      * apply elem_of_cons in Hin as [->|Hin];
          [apply list_elem_of_here|by do 2 apply list_elem_of_further].
    + intros y Hy. assert (y = x ∨ y ∈ z :: zs) as [->|Hy'].
      { rewrite !elem_of_cons in Hy. rewrite elem_of_cons. tauto. }
      * lia.
      * specialize (Hle y Hy'). lia.
Qed.

Lemma foldr_max_spec z zs :
  foldr Z.max z zs ∈ z :: zs ∧ ∀ y, y ∈ z :: zs → y ≤ foldr Z.max z zs.
Proof.
  induction zs as [|x zs [Hin Hle]]; cbn [foldr].
  - split; [apply list_elem_of_here|]. intros y ->%list_elem_of_singleton. lia.
  - split.
    + destruct (Z.max_spec x (foldr Z.max z zs)) as [[_ ->]|[_ ->]].
      * apply elem_of_cons in Hin as [->|Hin];
          [apply list_elem_of_here|by do 2 apply list_elem_of_further].
      * apply list_elem_of_further, list_elem_of_here.
    + intros y Hy. assert (y = x ∨ y ∈ z :: zs) as [->|Hy'].
      { rewrite !elem_of_cons in Hy. rewrite elem_of_cons. tauto. }
      * lia.
      * specialize (Hle y Hy'). lia.
Qed.

Lemma years_column f :
  omap (λ x : value * value, num_of x.2) (column "Year" f) = years f.
Proof.
  unfold column, years. induction (rows f) as [|r l IH]; [done|].
  cbn. by rewrite IH.
Qed.

Lemma numeric_column f :
  Forall (λ x : value * value, is_Some (num_of x.2)) (column "Year" f) ↔ numeric_years f.
Proof. unfold column, numeric_years. by rewrite Forall_fmap. Qed.

Lemma elem_of_years f y :
  y ∈ years f ↔ ∃ r, r ∈ rows f ∧ cell "Year" r.2 = Num y.
Proof.
  unfold years. rewrite list_elem_of_omap. split.
  - intros (r & Hr & Hy). exists r. split; [done|].
    destruct (cell "Year" r.2); simplify_eq/=. done.
  - intros (r & Hr & Hy). exists r. by rewrite Hy.
Qed.

Lemma years_nil f : years f = [] ↔ ∀ r, r ∈ rows f → num_of (cell "Year" r.2) = None.
Proof.
  unfold years. induction (rows f) as [|r l IH].
  - split; [by intros _ r ?%elem_of_nil|done].
  - cbn. destruct (num_of (cell "Year" r.2)) eqn:E.
    + split; [done|]. intros H. specialize (H r (list_elem_of_here _ _)). congruence.
    + rewrite IH. split.
      * intros H r' [->|?]%elem_of_cons; auto.
      * intros H r' ?. apply H. by apply list_elem_of_further.
Qed.

(** The year the slider's bounds are built from. *)
Lemma series_extremum op f :
  extremum op (column "Year" f)
  = match years f with
    | [] => FloatS None
    | z :: zs => if bool_decide (numeric_years f) then IntS (foldr op z zs)
                 else FloatS (Some (foldr op z zs))
    end.
Proof.
  unfold extremum. rewrite years_column. destruct (years f); [done|].
  by rewrite (bool_decide_ext _ _ (numeric_column f)).
Qed.

(** [map_distribution_cases] on a table with a [Year] column: the slider's
    bounds, and with [voila] the first run of the callback. *)
Lemma map_distribution_cases_run s df f b :
  deref s df = Some f → "Year" ∈ columns f →
  map_distribution_cases df (PyBool b) s
  = match slider_bounds f with
    | inl e => (inl e, s)
    | inr (min_date, max_date) =>
        let d := mkDashboard min_date max_date (min_date, max_date)
                             (dict_keys selector_opts) df b in
        if b then
          let first := major_disaster_map df min_date max_date (Some "# Disasters") s in
          (match first.1 with inl e => inl e | inr _ => inr d end, first.2)
        else (inr d, s)
    end.
Proof.
  intros Hdf HYear. unfold map_distribution_cases, slider_bounds.
  run isinstance_DataFrame_run. run (@eq_refl _ (assert true s)).
  erewrite bind_run by reflexivity.
  run pd_getitem_run.
  destruct (dt_datetime (series_min _) 1 1) as [e|lo] eqn:Hlo.
  { by erewrite bind_fail. }
  erewrite bind_run by reflexivity.
  run pd_getitem_run.
  destruct (dt_datetime (scalar_add _ 1) 1 1) as [e|hi] eqn:Hhi.
  { by erewrite bind_fail. }
  erewrite bind_run by reflexivity. cbv zeta.
  destruct b; [|done]. unfold bind. cbn [head dict_keys selector_opts map fst].
  by destruct (major_disaster_map df lo hi (Some "# Disasters") s) as [[e|r] s'].
Qed.


Lemma slider_bounds_cases f :
  match slider_bounds f with
  | inl KeyError | inl AssertionError => False
  | inl TypeError => years f = [] ∨ ¬ numeric_years f
  | inl ValueError =>
      years f ≠ [] ∧ numeric_years f
      ∧ ∃ y, y ∈ years f ∧ ¬ (MINYEAR ≤ y ≤ MAXYEAR - 1) ∧ - 2 ^ 31 ≤ y < 2 ^ 31
  | inl OverflowError =>
      years f ≠ [] ∧ numeric_years f ∧ ∃ y, y ∈ years f ∧ ¬ (- 2 ^ 31 ≤ y < 2 ^ 31 - 1)
  | inr (min_date, max_date) =>
      numeric_years f
      ∧ min_date = mkDatetime (year min_date) 1 1
      ∧ max_date = mkDatetime (year max_date) 1 1
      ∧ year min_date ∈ years f ∧ year max_date - 1 ∈ years f
      ∧ (∀ y, y ∈ years f → year min_date ≤ y ≤ year max_date - 1)
      ∧ MINYEAR ≤ year min_date ∧ year max_date - 1 ≤ MAXYEAR - 1
  end.
Proof.
  unfold slider_bounds, series_min, series_max. rewrite !series_extremum.
  destruct (years f) as [|z zs] eqn:Hys; [by left|].
  case_bool_decide as Hnum; [|by right].
  destruct (foldr_min_spec z zs) as [Hmin Hle].
  destruct (foldr_max_spec z zs) as [Hmax Hge].
  cbn [dt_datetime scalar_add].
  case_bool_decide as Hlo.
  - case_bool_decide as Hhi.
    + cbn [year]. replace (foldr Z.max z zs + 1 - 1) with (foldr Z.max z zs) by lia.
      repeat split; try done; try lia.
      * by apply Hle.
      * by apply Hge.
    + specialize (Hle _ Hmax). case_bool_decide as Hc.
      * split; [done|]. split; [done|]. exists (foldr Z.max z zs). split; [done|].
        unfold MINYEAR, MAXYEAR in *. lia.
      * split; [done|]. split; [done|]. exists (foldr Z.max z zs). split; [done|].
        unfold MINYEAR, MAXYEAR in *. lia.
  - case_bool_decide as Hc.
    + split; [done|]. split; [done|]. exists (foldr Z.min z zs). split; [done|].
      unfold MINYEAR, MAXYEAR in *. lia.
    + split; [done|]. split; [done|]. exists (foldr Z.min z zs). split; [done|]. lia.
Qed.

Lemma filter_all {A} (P : A → Prop) `{!∀ x, Decision (P x)} (l : list A) :
  (∀ x, x ∈ l → P x) → filter P l = l.
Proof.
  induction l as [|x l IH]; [done|]. intros Hl.
  rewrite filter_cons_True by apply Hl, list_elem_of_here.
  f_equal. apply IH. intros y Hy. by apply Hl, list_elem_of_further.
Qed.

Lemma in_range_numeric a b f :
  Forall (in_range a b) (rows f) → numeric_years f.
Proof.
  apply Forall_impl. intros r. unfold in_range.
  destruct (num_of (cell "Year" r.2)); [by eexists|done].
Qed.

Lemma in_range_years a b f :
  Forall (in_range a b) (rows f) ↔ numeric_years f ∧ ∀ y, y ∈ years f → a ≤ y ≤ b.
Proof.
  unfold numeric_years. rewrite !list.Forall_forall. split.
  - intros H. split.
    + intros r Hr. specialize (H r Hr). unfold in_range in H.
      destruct (num_of (cell "Year" r.2)); [by eexists|done].
    + intros y (r & Hr & Hy)%elem_of_years. specialize (H r Hr).
      unfold in_range in H. by rewrite Hy in H.
  - intros [Hnum Hy] r Hr. destruct (Hnum r Hr) as [y Hry]. unfold in_range.
    rewrite Hry. apply Hy, elem_of_years. exists r. split; [done|].
    by destruct (cell "Year" r.2); simplify_eq/=.
Qed.

Lemma years_nonempty f : rows f ≠ [] → numeric_years f → years f ≠ [].
Proof.
  intros Hrows Hnum Hys. destruct (rows f) as [|r l] eqn:E; [done|].
  rewrite years_nil in Hys. unfold numeric_years in Hnum. rewrite E in *.
  apply Forall_cons_1 in Hnum as [[y Hy] _].
  rewrite (Hys r) in Hy by apply list_elem_of_here. done.
Qed.

Lemma slider_bounds_valid f :
  rows f ≠ [] → Forall (in_range MINYEAR (MAXYEAR - 1)) (rows f) →
  ∃ lo hi,
    slider_bounds f = inr (mkDatetime lo 1 1, mkDatetime (hi + 1) 1 1)
    ∧ lo ∈ years f ∧ hi ∈ years f ∧ ∀ y, y ∈ years f → lo ≤ y ≤ hi.
Proof.
  intros Hrows [Hnum Hall]%in_range_years.
  pose proof (years_nonempty f Hrows Hnum) as Hys.
  pose proof (slider_bounds_cases f) as H.
  destruct (slider_bounds f) as [[]|[lo hi]]; try done.
  - by destruct H.
  - destruct H as (_ & _ & y & Hy & Hout & _). destruct Hout. by apply Hall.
  - destruct H as (_ & _ & y & Hy & Hout). destruct Hout.
    specialize (Hall y Hy). unfold MINYEAR, MAXYEAR in *. lia.
  - destruct H as (_ & -> & -> & Hlo & Hhi & Hle & _). cbn [year] in *.
    exists (year lo), (year hi - 1).
    replace (year hi - 1 + 1) with (year hi) by lia. done.
Qed.

Lemma restricted_covering a b f :
  Forall (in_range a b) (rows f) → restricted a b f = f.
Proof.
  intros H. transitivity (mkFrame (columns (restricted a b f)) (rows (restricted a b f)));
    [by destruct (restricted a b f)|].
  rewrite rows_restricted, columns_restricted, filter_all; [by destruct f|].
  by apply list.Forall_forall.
Qed.

(** X1.  On a table that has rows and whose every [Year] is an integer from
    1 to 9998, [map_distribution_cases] builds a dashboard whose slider runs
    from 1 January of the earliest year in the table to 1 January of the year
    after the latest, starts out at that full range, and whose selector
    offers the seven metric labels.  With [voila=False] it returns that
    dashboard without touching the store.  With [voila=True] it also draws
    the first view: on a typed table whose sums stay within 2^53 the callback
    runs, at the full range and the first metric, and the dashboard is
    returned in the store that run leaves behind.  Filtering by the initial
    range keeps every row of the table. *)
Theorem slider_spans_the_table s df f :
  deref s df = Some f → "Year" ∈ columns f →
  rows f ≠ [] → Forall (in_range MINYEAR (MAXYEAR - 1)) (rows f) →
  ∃ lo hi,
    let dashboard :=
      mkDashboard (mkDatetime lo 1 1) (mkDatetime (hi + 1) 1 1)
                  (mkDatetime lo 1 1, mkDatetime (hi + 1) 1 1)
                  ["# Disasters"; "# Deaths"; "# Injured"; "# Affected"; "# Homeless";
                   "Reconstruction Costs"; "Total Damanges"]
                  df in
    map_distribution_cases df (PyBool false) s = (inr (dashboard false), s)
    ∧ (dashboard_columns ⊆ columns f → typed f → bounded f →
       "iso_a3" ∈ columns (naturalearth_lowres s) → coded (naturalearth_lowres s) →
       ∃ ax bar s',
         major_disaster_map df (mkDatetime lo 1 1) (mkDatetime (hi + 1) 1 1)
                            (Some "# Disasters") s = (inr (ax, bar), s')
         ∧ map_distribution_cases df (PyBool true) s = (inr (dashboard true), s'))
    ∧ lo ∈ years f ∧ hi ∈ years f
    ∧ (∀ y, y ∈ years f → lo ≤ y ≤ hi)
    ∧ restricted lo (hi + 1) f = f.
Proof.
  intros Hdf HYear Hrows Hall.
  destruct (slider_bounds_valid f Hrows Hall) as (lo & hi & Hb & Hlo & Hhi & Hle).
  exists lo, hi. cbv zeta. split.
  { rewrite (map_distribution_cases_run s df f) by done. by rewrite Hb. }
  split.
  { intros Hcols Htyped _ Hgeo Hcoded.
    pose proof (major_disaster_map_typed s df f (mkDatetime lo 1 1) (mkDatetime (hi + 1) 1 1)
                  "# Disasters" (mkOpt "Year" "Year_2" "# Disasters" "count")
                  Hdf Hcols Htyped Hgeo Hcoded eq_refl) as Hrun.
    cbv zeta in Hrun. eexists _, _, _. split; [exact Hrun|].
    rewrite (map_distribution_cases_run s df f) by done. rewrite Hb.
    cbv zeta. by rewrite Hrun. }
  split; [done|]. split; [done|]. split; [done|].
  apply restricted_covering, in_range_years. split; [by eapply in_range_numeric|].
  intros y Hy. specialize (Hle y Hy). lia.
Qed.

Lemma slider_spans_the_table_witness :
  ∃ lo hi,
    map_distribution_cases (Ref 0%nat) (PyBool false) sample_state
    = (inr (mkDashboard (mkDatetime lo 1 1) (mkDatetime (hi + 1) 1 1)
                        (mkDatetime lo 1 1, mkDatetime (hi + 1) 1 1)
                        ["# Disasters"; "# Deaths"; "# Injured"; "# Affected"; "# Homeless";
                         "Reconstruction Costs"; "Total Damanges"]
                        (Ref 0%nat) false), sample_state)
    ∧ (∃ s',
         map_distribution_cases (Ref 0%nat) (PyBool true) sample_state
         = (inr (mkDashboard (mkDatetime lo 1 1) (mkDatetime (hi + 1) 1 1)
                             (mkDatetime lo 1 1, mkDatetime (hi + 1) 1 1)
                             ["# Disasters"; "# Deaths"; "# Injured"; "# Affected";
                              "# Homeless"; "Reconstruction Costs"; "Total Damanges"]
                             (Ref 0%nat) true), s'))
    ∧ restricted lo (hi + 1) sample_disasters = sample_disasters.
Proof.
  destruct (slider_spans_the_table sample_state (Ref 0%nat) sample_disasters)
    as (lo & hi & Hfalse & Htrue & _ & _ & _ & Hall);
    [reflexivity | decide_it | discriminate | decide_it |].
  destruct Htrue as (ax & bar & s' & _ & Htrue);
    [decide_it | split; decide_it | decide_it | decide_it | decide_it |].
  exists lo, hi. split; [exact Hfalse|]. split; [by exists s'|exact Hall].
Defined.






(** ** Failing lookups *)

Lemma not_subseteq_singleton (c : string) (l : list string) : c ∉ l → ¬ [c] ⊆ l.
Proof. intros Hc H. apply Hc, H, list_elem_of_here. Qed.

Lemma not_subseteq_missing (cs l : list string) : ¬ cs ⊆ l → ∃ c, c ∈ cs ∧ c ∉ l.
Proof.
  induction cs as [|c cs IH]; intros H.
  - destruct H. by intros x ?%elem_of_nil.
  - destruct (decide (c ∈ l)) as [Hc|Hc].
    + destruct IH as (c' & ? & ?).
      { intros Hcs. by apply H, subseteq_cons_list. }
      exists c'. split; [by apply list_elem_of_further|done].
    + exists c. split; [apply list_elem_of_here|done].
Qed.

Section missing.
Context (s : state) (df : pyval) (f : Frame).
Hypothesis Hdf : deref s df = Some f.

Lemma pd_getitem_missing c : c ∉ columns f → pd_getitem df c s = (inl KeyError, s).
Proof.
  intros Hc. unfold pd_getitem. erewrite bind_run by by apply frame_of_run.
  erewrite bind_fail; [done|]. by apply require_columns_fail, not_subseteq_singleton.
Qed.

Lemma pd_groupby_missing key : key ∉ columns f → pd_groupby df key s = (inl KeyError, s).
Proof.
  intros Hc. unfold pd_groupby. erewrite bind_run by by apply frame_of_run.
  erewrite bind_fail; [done|]. by apply require_columns_fail, not_subseteq_singleton.
Qed.

Lemma groupby_sum_missing key c :
  c ∉ columns f → groupby_sum (mkGroupBy df key) c s = (inl KeyError, s).
Proof.
  intros Hc. unfold groupby_sum. erewrite bind_run by by apply frame_of_run.
  erewrite bind_fail; [done|]. by apply require_columns_fail, not_subseteq_singleton.
Qed.

Lemma groupby_count_missing key c :
  c ∉ columns f → groupby_count (mkGroupBy df key) c s = (inl KeyError, s).
Proof.
  intros Hc. unfold groupby_count. erewrite bind_run by by apply frame_of_run.
  erewrite bind_fail; [done|]. by apply require_columns_fail, not_subseteq_singleton.
Qed.

Lemma pd_merge_missing right r left_on right_on :
  deref s right = Some r → ¬ (left_on ⊆ columns f ∧ right_on ⊆ columns r) →
  pd_merge df right left_on right_on s = (inl KeyError, s).
Proof.
  intros Hr Hc. unfold pd_merge.
  do 2 erewrite bind_run by by apply frame_of_run.
  destruct (decide (right_on ⊆ columns r)) as [Hro|Hro].
  - erewrite bind_run by by apply require_columns_run.
    erewrite bind_fail; [done|]. apply require_columns_fail. tauto.
  - erewrite bind_fail; [done|]. by apply require_columns_fail.
Qed.

Lemma pd_getitem_columns_missing cs :
  ¬ cs ⊆ columns f → pd_getitem_columns df cs s = (inl KeyError, s).
Proof.
  intros Hc. unfold pd_getitem_columns. erewrite bind_run by by apply frame_of_run.
  erewrite bind_fail; [done|]. by apply require_columns_fail.
Qed.

Lemma aggregate_missing keys d :
  (∀ i, i ∈ keys → ∃ o, dict_get i selector_opts = Some o
                        ∧ (group_op o = "sum" ∨ group_op o = "count")) →
  (∀ i o, i ∈ keys → dict_get i selector_opts = Some o → ¬ holds_text (dep_var o) f) →
  (∃ i o, i ∈ keys ∧ dict_get i selector_opts = Some o ∧ dep_var o ∉ columns f) →
  aggregate (mkGroupBy df "ISO") keys d s = (inl KeyError, s).
Proof.
  revert d. induction keys as [|i keys IH]; intros d Hops Htext Hmiss.
  { destruct Hmiss as (? & ? & []%elem_of_nil & _). }
  destruct (Hops i (list_elem_of_here _ _)) as (o & Ho & Hop).
  assert (Hnt : ¬ holds_text (dep_var o) f).
  { apply (Htext i o); [apply list_elem_of_here|done]. }
  assert (Htext' : ∀ i' o', i' ∈ keys → dict_get i' selector_opts = Some o' →
                            ¬ holds_text (dep_var o') f).
  { intros i' o' Hi'. by apply Htext, list_elem_of_further. }
  cbn [aggregate].
  erewrite bind_run; [|unfold dict_getitem; by rewrite Ho].
  destruct (decide (dep_var o ∈ columns f)) as [Hc|Hc].
  - assert (Hrest : ∃ i' o', i' ∈ keys ∧ dict_get i' selector_opts = Some o'
                             ∧ dep_var o' ∉ columns f).
    { destruct Hmiss as (i' & o' & [->|Hi']%elem_of_cons & Ho' & Hc'); [|by eauto].
      congruence. }
    assert (Htail : ∀ i, i ∈ keys → ∃ o, dict_get i selector_opts = Some o
                                        ∧ (group_op o = "sum" ∨ group_op o = "count")).
    { intros i' Hi'. by apply Hops, list_elem_of_further. }
    destruct (decide (group_op o = "sum")) as [Hsum|Hsum].
    + erewrite bind_run; [by apply IH|].
      erewrite bind_run by by apply groupby_sum_run. done.
    + destruct (decide (group_op o = "count")) as [Hcount|Hcount]; [|by destruct Hop].
      erewrite bind_run; [by apply IH|].
      erewrite bind_run by by apply groupby_count_run. done.
  - destruct (decide (group_op o = "sum")) as [Hsum|Hsum].
    + erewrite bind_fail; [done|]. erewrite bind_fail; [done|].
      by apply groupby_sum_missing.
    + destruct (decide (group_op o = "count")) as [Hcount|Hcount]; [|by destruct Hop].
      erewrite bind_fail; [done|]. erewrite bind_fail; [done|].
      by apply groupby_count_missing.
Qed.
End missing.

Lemma selector_opts_ops i :
  i ∈ dict_keys selector_opts →
  ∃ o, dict_get i selector_opts = Some o ∧ (group_op o = "sum" ∨ group_op o = "count").
Proof.
  intros H%list_elem_of_In. simpl in H.
  repeat (destruct H as [<-|H]; [eexists; split; [reflexivity|]; cbn; tauto|]). done.
Qed.

Lemma selector_opts_lookup e :
  e ∈ selector_opts → dict_get e.1 selector_opts = Some e.2 ∧ e.1 ∈ dict_keys selector_opts.
Proof.
  intros H%list_elem_of_In. simpl in H.
  repeat (destruct H as [<-|H]; [split; [reflexivity|in_list]|]). done.
Qed.

Lemma dashboard_columns_missing (cols : list string) :
  ¬ dashboard_columns ⊆ cols →
  "ISO" ∉ cols
  ∨ ∃ i o, i ∈ dict_keys selector_opts ∧ dict_get i selector_opts = Some o ∧ dep_var o ∉ cols.
Proof.
  intros (c & Hc & Hmiss)%not_subseteq_missing.
  apply elem_of_cons in Hc as [->|Hc]; [by left|]. right.
  apply list_elem_of_fmap in Hc as (e & -> & He).
  destruct (selector_opts_lookup e He) as [Hget Hkey]. by exists e.1, e.2.
Qed.

Lemma year_is_read : "Year" ∈ dashboard_columns.
Proof. in_list. Qed.

Lemma iso_is_read : "ISO" ∈ dashboard_columns.
Proof. in_list. Qed.

Lemma measure_of_option i o : dict_get i selector_opts = Some o → dep_var o ∈ measures.
Proof.
  intros H%selector_opts_cases. unfold measures. apply list_elem_of_fmap.
  by exists (i, o).
Qed.

(** The callback on a typed table that lacks a column it reads. *)
Lemma major_disaster_map_missing s df f start_time end_time vis :
  deref s df = Some f → typed f → ¬ dashboard_columns ⊆ columns f →
  (major_disaster_map df start_time end_time vis s).1 = inl KeyError.
Proof.
  intros Hdf Ht Hmiss. unfold major_disaster_map.
  destruct (decide ("Year" ∈ columns f)) as [HYear|HYear].
  2:{ erewrite bind_fail; [done|]. by eapply pd_getitem_missing. }
  pose proof (typed_year f Ht) as Hnum.
  run pd_getitem_run. erewrite bind_run by by apply compare_run.
  run pd_getitem_run. erewrite bind_run by by apply compare_run.
  run pd_getitem_mask_run.
  destruct (decide ("ISO" ∈ columns f)) as [HISO|HISO].
  2:{ erewrite bind_fail; [done|]. eapply pd_groupby_missing; eauto with store. }
  run pd_groupby_run.
  destruct (dashboard_columns_missing _ Hmiss) as [?|Hdep]; [done|].
  erewrite bind_fail; [done|].
  eapply aggregate_missing; eauto with store; [apply selector_opts_ops|].
  intros i o _ Ho. apply no_text_getitem_mask, number_column_no_text, typed_measure; [done|].
  by eapply measure_of_option.
Qed.

Lemma dict_get_keys {V} (d : list (string * V)) k :
  is_Some (dict_get k d) ↔ k ∈ dict_keys d.
Proof.
  induction d as [|[k' v] d IH]; cbn.
  - split; [by intros [? ?]|by intros ?%elem_of_nil].
  - rewrite elem_of_cons. destruct (decide (k' = k)) as [->|Hne].
    + split; [by left|by eexists].
    + rewrite IH. cbn. split; [by right|]. by intros [?|?].
Qed.

Lemma dict_getitem_cases {V} (d : list (string * V)) vis :
  (∃ v o, vis = Some v ∧ v ∈ dict_keys d ∧ dict_get v d = Some o)
  ∨ ((∀ v, vis = Some v → v ∉ dict_keys d)
     ∧ ∀ s, dict_getitem d vis s = (inl KeyError, s)).
Proof.
  destruct vis as [v|]; [|by right].
  destruct (dict_get v d) as [o|] eqn:E.
  - left. exists v, o. split; [done|]. split; [|done]. apply dict_get_keys. by eexists.
  - right. split.
    + intros ? [= <-] [o Ho]%dict_get_keys. congruence.
    + intros s. unfold dict_getitem. by rewrite E.
Qed.

Lemma major_disaster_map_no_code s df f start_time end_time vis :
  deref s df = Some f → typed f → dashboard_columns ⊆ columns f →
  "iso_a3" ∉ columns (naturalearth_lowres s) →
  (major_disaster_map df start_time end_time vis s).1 = inl KeyError.
Proof.
  intros Hdf Ht Hcols Hgeo. unfold major_disaster_map.
  assert (HYear : "Year" ∈ columns f) by apply Hcols, year_is_read.
  pose proof (typed_year f Ht) as Hnum.
  run pd_getitem_run. erewrite bind_run by by apply compare_run.
  run pd_getitem_run. erewrite bind_run by by apply compare_run.
  run pd_getitem_mask_run.
  erewrite bind_run; cycle 1.
  { eapply pd_groupby_run; eauto with store. apply Hcols, iso_is_read. }
  erewrite bind_run; cycle 1.
  { eapply aggregate_run; eauto with store.
    intros c Hc. apply no_text_getitem_mask. by apply typed_summed. }
  run read_naturalearth_lowres_run. run pd_DataFrame_run.
  run pd_rename_run. run pd_index_run. run setitem_last_run.
  erewrite bind_fail; [done|].
  eapply pd_merge_missing; eauto with store.
  intros [H _]. apply Hgeo, H, list_elem_of_here.
Qed.

Lemma major_disaster_map_unknown s df f start_time end_time vis :
  deref s df = Some f → typed f → dashboard_columns ⊆ columns f →
  "iso_a3" ∈ columns (naturalearth_lowres s) → coded (naturalearth_lowres s) →
  (∀ s', dict_getitem selector_opts vis s' = (inl KeyError, s')) →
  (major_disaster_map df start_time end_time vis s).1 = inl KeyError.
Proof.
  intros Hdf Ht Hcols Hgeo Hcoded Hvis. unfold major_disaster_map.
  assert (HYear : "Year" ∈ columns f) by apply Hcols, year_is_read.
  pose proof (typed_year f Ht) as Hnum.
  run pd_getitem_run. erewrite bind_run by by apply compare_run.
  run pd_getitem_run. erewrite bind_run by by apply compare_run.
  run pd_getitem_mask_run.
  erewrite bind_run; cycle 1.
  { eapply pd_groupby_run; eauto with store. apply Hcols, iso_is_read. }
  erewrite bind_run; cycle 1.
  { eapply aggregate_run; eauto with store.
    intros c Hc. apply no_text_getitem_mask. by apply typed_summed. }
  run read_naturalearth_lowres_run. run pd_DataFrame_run.
  run pd_rename_run. run pd_index_run. run setitem_last_run.
  erewrite bind_run; cycle 1.
  { eapply pd_merge_run; eauto with store; [has_columns|].
    apply not_refused_country_var; [done|]. apply Forall_select, Ht. }
  run pd_fillna_run.
  erewrite bind_fail; [done|]. apply Hvis.
Qed.

(** X3.  On a typed table, with a country table whose codes are text, the
    callback either returns its two visuals or raises KeyError.  It returns
    them exactly when the table has [ISO] and the source column of every
    metric, the country table has [iso_a3], and [vis_type] is one of the keys
    of [selector_opts], the labels the selector offers.  Any other
    [vis_type], the signature's default [None] included, is a KeyError. *)
Theorem callback_succeeds_or_raises_KeyError s df f start_time end_time vis :
  deref s df = Some f → typed f → coded (naturalearth_lowres s) →
  let out := (major_disaster_map df start_time end_time vis s).1 in
  let accepted :=
    dashboard_columns ⊆ columns f
    ∧ "iso_a3" ∈ columns (naturalearth_lowres s)
    ∧ ∃ v, vis = Some v ∧ v ∈ dict_keys selector_opts in
  ((∃ r, out = inr r) ↔ accepted) ∧ (¬ accepted ↔ out = inl KeyError).
Proof.
  intros Hdf Ht Hcoded out accepted. subst out accepted.
  destruct (decide (dashboard_columns ⊆ columns f)) as [Hcols|Hcols].
  2:{ rewrite (major_disaster_map_missing s df f) by done.
      split; [split; [by intros [? ?]|tauto]|]. split; [done|tauto]. }
  destruct (decide ("iso_a3" ∈ columns (naturalearth_lowres s))) as [Hgeo|Hgeo].
  2:{ rewrite (major_disaster_map_no_code s df f) by done.
      split; [split; [by intros [? ?]|tauto]|]. split; [done|tauto]. }
  destruct (dict_getitem_cases selector_opts vis) as [(v & o & -> & Hv & Ho)|[Hv Hfail]].
  - erewrite major_disaster_map_typed; eauto.
    cbn [fst]. split; [split; [eauto|by eexists]|].
    split; [|done]. intros []. eauto.
  - rewrite (major_disaster_map_unknown s df f) by done.
    split; [split; [by intros [? ?]|]|split; [done|]].
    + intros (_ & _ & v & -> & Hin). by destruct (Hv v).
    + intros _ (_ & _ & v & -> & Hin). by destruct (Hv v).
Qed.

Lemma callback_succeeds_or_raises_KeyError_witness :
  (major_disaster_map (Ref 0%nat) (mkDatetime 2000 1 1) (mkDatetime 2001 1 1) None
                      sample_state).1 = inl KeyError.
Proof.
  pose proof (callback_succeeds_or_raises_KeyError sample_state (Ref 0%nat) sample_disasters
                (mkDatetime 2000 1 1) (mkDatetime 2001 1 1) None eq_refl
                ltac:(split; decide_it) ltac:(decide_it)) as H.
  cbv zeta in H. destruct H as [_ H]. apply H. by intros (_ & _ & v & ? & _).
Defined.

(** X4.  [map_distribution_cases] itself looks at the [Year] column only.
    With [voila=False], a typed table with usable years that lacks [ISO] or
    the source column of some metric is accepted, and the dashboard it
    returns raises KeyError at every recompute, whatever the date range and
    the metric, and however many recomputes came before.  With [voila=True]
    the first view is drawn at once, and the KeyError comes out of
    [map_distribution_cases]. *)
Theorem dashboard_defers_column_lookups s df f :
  deref s df = Some f → "Year" ∈ columns f →
  rows f ≠ [] → Forall (in_range MINYEAR (MAXYEAR - 1)) (rows f) →
  typed f → ¬ dashboard_columns ⊆ columns f →
  (∃ d, map_distribution_cases df (PyBool false) s = (inr d, s)
        ∧ ∀ events start_time end_time vis,
            (recompute d start_time end_time vis (recomputes d events s)).1 = inl KeyError)
  ∧ (map_distribution_cases df (PyBool true) s).1 = inl KeyError.
Proof.
  intros Hdf HYear Hrows Hall Ht Hmiss.
  destruct (slider_bounds_valid f Hrows Hall) as (lo & hi & Hb & _).
  split.
  - eexists. split.
    { rewrite (map_distribution_cases_run s df f) by done. by rewrite Hb. }
    intros events start_time end_time vis. unfold recompute. cbn [captured_df].
    apply (major_disaster_map_missing _ _ f); [|done|done].
    eapply kept_deref; [|done]. apply kept_recomputes, kept_refl.
  - rewrite (map_distribution_cases_run s df f) by done. rewrite Hb. cbv zeta.
    cbn [fst]. by rewrite (major_disaster_map_missing s df f).
Qed.

Lemma dashboard_defers_column_lookups_witness :
  (∃ d, map_distribution_cases (Ref 0%nat) (PyBool false)
          (mkState [bare_disasters] sample_world [])
        = (inr d, mkState [bare_disasters] sample_world [])
        ∧ ∀ events start_time end_time vis,
            (recompute d start_time end_time vis
               (recomputes d events (mkState [bare_disasters] sample_world []))).1
            = inl KeyError)
  ∧ (map_distribution_cases (Ref 0%nat) (PyBool true)
       (mkState [bare_disasters] sample_world [])).1 = inl KeyError.
Proof.
  apply (dashboard_defers_column_lookups (mkState [bare_disasters] sample_world [])
           (Ref 0%nat) bare_disasters);
    [reflexivity | decide_it | discriminate | decide_it | split; decide_it | decide_it].
Defined.

(** ** The store beyond the arguments *)

Lemma sim_kept s s' : kept s s' → sim (length (heap s)) s s' s s'.
Proof.
  intros Hk. pose proof (kept_length _ _ Hk) as Hlen. destruct Hk as [Hk Hg].
  repeat split; try done; try lia.
  - by rewrite Hk, take_ge.
  - by rewrite !drop_ge.
  - by rewrite !drop_ge.
Qed.

Lemma rel_kept {A} (m : M A) s s' :
  kept s s' →
  rel (length (heap s)) s s' eq m m →
  (m s').1 = (m s).1 ∧ derived s' (m s').2 = derived s (m s).2
  ∧ drawn s' (m s').2 = drawn s (m s).2.
Proof.
  intros Hk Hrel. destruct (Hrel s s' (sim_kept s s' Hk)) as [Hs Hr].
  unfold derived, drawn.
  destruct Hs as (_ & _ & Hd & _ & _ & _ & Hf & _). split; [|by split].
  destruct (m s).1, (m s').1; try done; congruence.
Qed.

Lemma vsim_given n0 b1 b2 s v :
  is_Some (deref s v) → n0 = length (heap s) → vsim n0 b1 b2 v v.
Proof. intros [f Hf]. by eapply vsim_old. Qed.

(** X5.  What a reporter returns and draws depends on the tables it is
    passed and on the country table only, not on the rest of the store: in
    any store that still holds the objects of [s] unchanged, each entry point
    and the callback give what they give in [s].  In particular a recompute
    of the dashboard shows the same after any sequence of earlier
    recomputes. *)
Theorem results_depend_on_the_arguments_only s s' :
  kept s s' →
  (∀ v1 v2, is_Some (deref s v1) → is_Some (deref s v2) →
     (death_vs_gdp v1 v2 s').1 = (death_vs_gdp v1 v2 s).1
     ∧ drawn s' (death_vs_gdp v1 v2 s').2 = drawn s (death_vs_gdp v1 v2 s).2)
  ∧ (∀ v, is_Some (deref s v) →
       (major_disaster_distribution v s').1 = (major_disaster_distribution v s).1)
  ∧ (∀ v voila, is_Some (deref s v) →
       (map_distribution_cases v voila s').1 = (map_distribution_cases v voila s).1)
  ∧ (∀ v start_time end_time vis, is_Some (deref s v) →
       (major_disaster_map v start_time end_time vis s').1
       = (major_disaster_map v start_time end_time vis s).1)
  ∧ (∀ d events start_time end_time vis, is_Some (deref s (captured_df d)) →
       (recompute d start_time end_time vis (recomputes d events s)).1
       = (recompute d start_time end_time vis s).1).
Proof.
  intros Hk. pose proof (kept_length _ _ Hk) as Hlen.
  assert (Hmap : ∀ s', kept s s' → ∀ v start_time end_time vis, is_Some (deref s v) →
            (major_disaster_map v start_time end_time vis s').1
            = (major_disaster_map v start_time end_time vis s).1).
  { clear s' Hk Hlen. intros s' Hk v a b vis Hv.
    pose proof (kept_length _ _ Hk).
    apply rel_kept; [done|]. apply rel_major_disaster_map; first [lia | done | by eapply vsim_given]. }
  split; [|split; [|split; [|split]]].
  - intros v1 v2 H1 H2.
    destruct (rel_kept (death_vs_gdp v1 v2) s s' Hk) as (? & _ & ?); [|done].
    apply rel_death_vs_gdp; first [lia | done | by eapply vsim_given].
  - intros v Hv. apply rel_kept; [done|].
    apply rel_major_disaster_distribution; first [lia | done | by eapply vsim_given].
  - intros v voila Hv. apply rel_kept; [done|].
    apply rel_map_distribution_cases; first [lia | done | by eapply vsim_given].
  - by apply Hmap.
  - intros d events a b vis Hd. unfold recompute. apply Hmap; [|done].
    apply kept_recomputes, kept_refl.
Qed.

Lemma results_depend_on_the_arguments_only_witness :
  (major_disaster_distribution (Ref 0%nat)
     (death_vs_gdp (Ref 0%nat) (Ref 1%nat) sample_state).2).1
  = (major_disaster_distribution (Ref 0%nat) sample_state).1.
Proof.
  destruct (results_depend_on_the_arguments_only sample_state
              (death_vs_gdp (Ref 0%nat) (Ref 1%nat) sample_state).2)
    as (_ & H & _); [split; vm_compute; reflexivity|].
  apply H. by eexists.
Defined.

(** ** Sums over rows *)

Lemma sumZ_cons x l : sumZ (x :: l) = x + sumZ l.
Proof. done. Qed.

Lemma sumZ_Permutation l1 l2 : l1 ≡ₚ l2 → sumZ l1 = sumZ l2.
Proof. induction 1; rewrite ?sumZ_cons; lia. Qed.

Lemma column_sum_weights c (l : list row) :
  column_sum c l = sumZ (map (λ r : row, default 0 (num_of (cell c r.2))) l).
Proof.
  unfold column_sum. induction l as [|r l IH]; [done|]. cbn [map omap list_omap].
  destruct (num_of (cell c r.2)); cbn [default]; rewrite !sumZ_cons, IH; done.
Qed.

Lemma column_count_weights c (l : list row) :
  column_count c l
  = sumZ (map (λ r : row, if decide (cell c r.2 ≠ NaN) then 1 else 0) l).
Proof.
  unfold column_count. induction l as [|r l IH]; [done|].
  rewrite filter_cons. cbn [map]. rewrite sumZ_cons, <- IH.
  destruct (decide (cell c r.2 ≠ NaN)); cbn [length]; lia.
Qed.

Lemma metric_of_weights o l : metric_of o l = sumZ (map (weight o) l).
Proof.
  unfold metric_of, weight. destruct (decide (group_op o = "sum")).
  - apply column_sum_weights.
  - apply column_count_weights.
Qed.

Lemma metric_of_Permutation o l1 l2 : l1 ≡ₚ l2 → metric_of o l1 = metric_of o l2.
Proof. intros H. rewrite !metric_of_weights. apply sumZ_Permutation. by rewrite H. Qed.

Lemma filter_ext_in {A} (P Q : A → Prop) `{!∀ x, Decision (P x)} `{!∀ x, Decision (Q x)}
    (l : list A) :
  (∀ x, x ∈ l → P x ↔ Q x) → filter P l = filter Q l.
Proof.
  induction l as [|x l IH]; [done|]. intros Hl. rewrite !filter_cons.
  rewrite IH by (intros y Hy; by apply Hl, list_elem_of_further).
  pose proof (Hl x (list_elem_of_here _ _)) as Hx.
  destruct (decide (P x)) as [HP|HP].
  - rewrite decide_True; [done|tauto].
  - rewrite decide_False; [done|tauto].
Qed.

(** A sum over the rows satisfying one of two exclusive conditions. *)
Lemma sum_filter_split {A} (h : A → Z) (R R1 R2 : A → Prop)
    `{!∀ x, Decision (R x)} `{!∀ x, Decision (R1 x)} `{!∀ x, Decision (R2 x)} (l : list A) :
  (∀ x, R x ↔ R1 x ∨ R2 x) → (∀ x, ¬ (R1 x ∧ R2 x)) →
  sumZ (map h (filter R l)) = sumZ (map h (filter R1 l)) + sumZ (map h (filter R2 l)).
Proof.
  intros HR Hex. induction l as [|x l IH]; [done|]. rewrite !filter_cons.
  specialize (HR x). specialize (Hex x).
  destruct (decide (R x)), (decide (R1 x)), (decide (R2 x));
    cbn [map]; rewrite ?sumZ_cons; try tauto; lia.
Qed.

(** A sum taken group by group. *)
Lemma sum_by_groups {A} (h : A → Z) (key : A → value) (keys : list value) (l : list A) :
  NoDup keys →
  sumZ (map (λ k, sumZ (map h (filter (λ x, key x = k) l))) keys)
  = sumZ (map h (filter (λ x, key x ∈ keys) l)).
Proof.
  induction 1 as [|k keys Hk Hnd IH].
  - cbn. rewrite filter_none; [done|]. intros x _ []%elem_of_nil.
  - cbn [map]. rewrite sumZ_cons, IH. symmetry. apply sum_filter_split.
    + intros x. apply elem_of_cons.
    + intros x [-> ?]. done.
Qed.

Lemma metric_cell vis o f k :
  dict_get vis selector_opts = Some o →
  cell (dep_var_2 o) (country_var_cells f k) = Num (metric_of o (rows_of k f)).
Proof.
  intros H%selector_opts_cases. apply list_elem_of_In in H. simpl in H.
  repeat (destruct H as [[= <- <-]|H]; [reflexivity|]). done.
Qed.

Lemma column_sum_country_var vis o f :
  dict_get vis selector_opts = Some o →
  column_sum (dep_var_2 o) (rows (country_var_frame f))
  = metric_of o (filter (λ r : row, cell "ISO" r.2 ≠ NaN) (rows f)).
Proof.
  intros Hvis. rewrite rows_country_var_frame, column_sum_weights, map_map. cbn [snd].
  erewrite map_ext; [|intros k; by rewrite (metric_cell vis o)].
  cbn [num_of default]. unfold rows_of.
  erewrite map_ext; [|intros k; apply metric_of_weights].
  rewrite (sum_by_groups (weight o) (λ r : row, cell "ISO" r.2)) by apply NoDup_group_keys.
  rewrite metric_of_weights. do 2 f_equal. apply filter_ext_in.
  intros r Hr. rewrite elem_of_group_keys. split; [by intros [? _]|eauto].
Qed.

Lemma column_sum_Permutation c (l1 l2 : list row) :
  l1 ≡ₚ l2 → column_sum c l1 = column_sum c l2.
Proof. intros H. rewrite !column_sum_weights. apply sumZ_Permutation. by rewrite H. Qed.

Lemma rows_top10_all c f :
  (length (rows (country_var_frame f)) ≤ 10)%nat →
  rows (top10 c f) ≡ₚ rows (country_var_frame f).
Proof.
  intros Hlen. rewrite rows_top10, take_ge.
  - apply merge_sort_Permutation.
  - by rewrite merge_sort_Permutation.
Qed.

(** X6.  On a typed table whose sums stay within 2^53: over the per-country
    table of the callback, the selected metric adds up to the metric taken
    over all rows in the date range that carry a country code: rows in range
    are counted once, rows without [ISO] not at all.  When at most ten
    countries are hit, the bars are the rows of that table in some order, and
    add up to the same total. *)
Theorem countries_add_up_to_the_slice s df f start_time end_time vis o :
  deref s df = Some f → dashboard_columns ⊆ columns f →
  typed f → bounded f →
  "iso_a3" ∈ columns (naturalearth_lowres s) → coded (naturalearth_lowres s) →
  dict_get vis selector_opts = Some o →
  let slice := restricted (year start_time) (year end_time) f in
  let table := country_var_frame slice in
  let with_code := filter (λ r : row, cell "ISO" r.2 ≠ NaN) (rows slice) in
  ∃ ax bar s',
    major_disaster_map df start_time end_time (Some vis) s = (inr (ax, bar), s')
    ∧ column_sum (dep_var_2 o) (rows table) = metric_of o with_code
    ∧ ((length (rows table) ≤ 10)%nat →
       rows (bars_data bar) ≡ₚ rows table
       ∧ column_sum (dep_var_2 o) (rows (bars_data bar)) = metric_of o with_code).
Proof.
  intros Hdf Hcols Htyped _ Hgeo Hcoded Hvis slice table with_code.
  eexists _, _, _. split.
  { eapply major_disaster_map_typed; eauto. }
  cbn [bars_data]. split.
  - by apply (column_sum_country_var vis).
  - intros Hlen. split; [by apply rows_top10_all|].
    rewrite (column_sum_Permutation _ _ _ (rows_top10_all _ _ Hlen)).
    by apply (column_sum_country_var vis).
Qed.

Lemma countries_add_up_to_the_slice_witness :
  ∃ ax bar s',
    major_disaster_map (Ref 0%nat) (mkDatetime 2000 1 1) (mkDatetime 2001 1 1)
                       (Some "# Deaths") sample_state = (inr (ax, bar), s')
    ∧ column_sum "TD_2" (rows (bars_data bar)) = 9042.
Proof.
  pose proof (countries_add_up_to_the_slice sample_state (Ref 0%nat) sample_disasters
                (mkDatetime 2000 1 1) (mkDatetime 2001 1 1) "# Deaths"
                (mkOpt "Total Deaths" "TD_2" "# Deaths" "sum")
                eq_refl ltac:(decide_it) ltac:(split; decide_it) ltac:(decide_it)
                ltac:(decide_it) ltac:(decide_it) eq_refl) as H.
  cbv zeta in H. destruct H as (ax & bar & s' & Hrun & _ & Hbars).
  exists ax, bar, s'. split; [done|]. cbn [dep_var_2] in Hbars.
  destruct Hbars as [_ ->]; [decide_it|]. vm_compute. reflexivity.
Defined.

Lemma rows_of_restricted k a b f :
  rows_of k (restricted a b f)
  = filter (λ r : row, cell "ISO" r.2 = k ∧ in_range a b r) (rows f).
Proof. unfold rows_of. by rewrite rows_restricted, list_filter_filter. Qed.

Lemma metric_of_adjacent o k a b c f :
  a ≤ b + 1 → b ≤ c →
  metric_of o (rows_of k (restricted a c f))
  = metric_of o (rows_of k (restricted a b f))
    + metric_of o (rows_of k (restricted (b + 1) c f)).
Proof.
  intros Hab Hbc. rewrite !rows_of_restricted, !metric_of_weights.
  apply sum_filter_split.
  - intros r. unfold in_range. destruct (num_of (cell "Year" r.2)); [|tauto].
    split; [intros [? ?]|intros [[? ?]|[? ?]]]; try (split; [done|lia]).
    destruct (decide (z ≤ b)); [left|right]; (split; [done|lia]).
  - intros r [[_ H1] [_ H2]]. unfold in_range in *.
    destruct (num_of (cell "Year" r.2)); [lia|done].
Qed.

(** X7.  On a typed table whose sums stay within 2^53, the dashboard's map
    is additive over adjacent date ranges: for every polygon with a country
    code, the value shown for years [a..c] is the sum of the values shown for
    [a..b] and for [b+1..c].  This holds for the sums and for the disaster
    count alike. *)
Theorem adjacent_ranges_add_up s df f vis o start1 end1 start2 end2 :
  deref s df = Some f → dashboard_columns ⊆ columns f →
  typed f → bounded f →
  geo_ok (naturalearth_lowres s) country_var_columns →
  coded (naturalearth_lowres s) →
  dict_get vis selector_opts = Some o →
  year start2 = year end1 + 1 → year start1 ≤ year start2 → year end1 ≤ year end2 →
  ∃ ax1 bar1 s1 ax2 bar2 s2 ax bar s',
    major_disaster_map df start1 end1 (Some vis) s = (inr (ax1, bar1), s1)
    ∧ major_disaster_map df start2 end2 (Some vis) s = (inr (ax2, bar2), s2)
    ∧ major_disaster_map df start1 end2 (Some vis) s = (inr (ax, bar), s')
    ∧ ∀ i g, rows (naturalearth_lowres s) !! i = Some g → cell "iso_a3" g.2 ≠ NaN →
        ∃ r1 r2 r x y,
          rows (polygons_data ax1) !! i = Some r1
          ∧ rows (polygons_data ax2) !! i = Some r2
          ∧ rows (polygons_data ax) !! i = Some r
          ∧ cell (dep_var_2 o) r1.2 = Num x
          ∧ cell (dep_var_2 o) r2.2 = Num y
          ∧ cell (dep_var_2 o) r.2 = Num (x + y).
Proof.
  intros Hdf Hcols Htyped _ Hgeo Hcoded Hvis H2 Hab Hbc.
  assert (Hm : dep_var_2 o ∈ metric_columns) by by eapply alias_is_metric.
  eexists _, _, _, _, _, _, _, _, _.
  split; [eapply major_disaster_map_typed; eauto; apply Hgeo|].
  split; [eapply major_disaster_map_typed; eauto; apply Hgeo|].
  split; [eapply major_disaster_map_typed; eauto; apply Hgeo|].
  cbn [polygons_data]. intros i g Hg Hk.
  destruct (dashboard_polygon _ (restricted (year start1) (year end1) f) i g Hgeo Hg)
    as (r1 & Hr1 & _ & _ & Hm1).
  destruct (dashboard_polygon _ (restricted (year start2) (year end2) f) i g Hgeo Hg)
    as (r2 & Hr2 & _ & _ & Hm2).
  destruct (dashboard_polygon _ (restricted (year start1) (year end2) f) i g Hgeo Hg)
    as (r & Hr & _ & _ & Hm3).
  exists r1, r2, r. eexists _, _.
  split; [done|]. split; [done|]. split; [done|].
  rewrite Hm1, Hm2, Hm3 by done. rewrite !(metric_cell vis o) by done.
  split; [done|]. split; [done|]. f_equal. rewrite H2.
  apply metric_of_adjacent; lia.
Qed.

Lemma adjacent_ranges_add_up_witness :
  ∃ ax1 bar1 s1 ax2 bar2 s2 ax bar s',
    major_disaster_map (Ref 0%nat) (mkDatetime 2000 1 1) (mkDatetime 2000 12 31)
                       (Some "# Deaths") sample_state = (inr (ax1, bar1), s1)
    ∧ major_disaster_map (Ref 0%nat) (mkDatetime 2001 1 1) (mkDatetime 2001 12 31)
                         (Some "# Deaths") sample_state = (inr (ax2, bar2), s2)
    ∧ major_disaster_map (Ref 0%nat) (mkDatetime 2000 1 1) (mkDatetime 2001 12 31)
                         (Some "# Deaths") sample_state = (inr (ax, bar), s').
Proof.
  destruct (adjacent_ranges_add_up sample_state (Ref 0%nat) sample_disasters "# Deaths"
              (mkOpt "Total Deaths" "TD_2" "# Deaths" "sum")
              (mkDatetime 2000 1 1) (mkDatetime 2000 12 31)
              (mkDatetime 2001 1 1) (mkDatetime 2001 12 31))
    as (ax1 & bar1 & s1 & ax2 & bar2 & s2 & ax & bar & s' & H1 & H2 & H3 & _);
    [reflexivity | decide_it | split; decide_it | decide_it | split; decide_it
    | decide_it | reflexivity | reflexivity | cbn; lia | cbn; lia |].
  by exists ax1, bar1, s1, ax2, bar2, s2, ax, bar, s'.
Defined.

(** X8.  In the dashboard, on a typed table, the count of the [Year] column
    is an exact row count: under "# Disasters" every bar and every polygon
    with a country code shows the number of the country's rows in the date
    range.  The date filter has already dropped the rows without a year. *)
Theorem dashboard_counts_every_row_in_range s df f start_time end_time :
  deref s df = Some f → dashboard_columns ⊆ columns f → typed f →
  geo_ok (naturalearth_lowres s) country_var_columns →
  coded (naturalearth_lowres s) →
  let slice := restricted (year start_time) (year end_time) f in
  let number k := Num (Z.of_nat (length (rows_of k slice))) in
  ∃ ax bar s',
    major_disaster_map df start_time end_time (Some "# Disasters") s = (inr (ax, bar), s')
    ∧ (∀ x y, (x, y) ∈ bars_entries bar → y = number x)
    ∧ (∀ i g, rows (naturalearth_lowres s) !! i = Some g → cell "iso_a3" g.2 ≠ NaN →
         ∃ r, rows (polygons_data ax) !! i = Some r
              ∧ cell "Year_2" r.2 = number (cell "iso_a3" g.2))
    ∧ (∀ k r, r ∈ rows_of k slice ↔
              r ∈ rows f ∧ cell "ISO" r.2 = k
              ∧ in_range (year start_time) (year end_time) r).
Proof.
  intros Hdf Hcols Htyped Hgeo Hcoded slice number.
  assert (Hcount : ∀ k, cell "Year_2" (country_var_cells slice k) = number k).
  { intros k. cbn. unfold number. f_equal. apply column_count_populated.
    apply list.Forall_forall. intros r [_ Hr]%list_elem_of_filter.
    apply elem_of_rows_restricted in Hr as [_ Hr]. unfold in_range in Hr.
    by destruct (cell "Year" r.2). }
  eexists _, _, _. split.
  { eapply (major_disaster_map_typed _ _ _ _ _ "# Disasters"); eauto;
      first [apply Hgeo | reflexivity]. }
  cbn [polygons_data dep_var_2 feature_name]. fold slice. split; [|split].
  - intros x y [_ ->]%bars_entries_top10. apply Hcount.
  - intros i g Hg Hk.
    destruct (dashboard_polygon _ slice i g Hgeo Hg) as (r & Hr & _ & _ & Hm).
    exists r. split; [done|]. rewrite Hm by (done || in_list). apply Hcount.
  - intros k r. unfold slice. rewrite rows_of_restricted, list_elem_of_filter. tauto.
Qed.

Lemma dashboard_counts_every_row_in_range_witness :
  ∃ ax bar s',
    major_disaster_map (Ref 0%nat) (mkDatetime 2000 1 1) (mkDatetime 2001 1 1)
                       (Some "# Disasters") sample_state = (inr (ax, bar), s')
    ∧ ∀ x y, (x, y) ∈ bars_entries bar →
        y = Num (Z.of_nat (length (rows_of x (restricted 2000 2001 sample_disasters)))).
Proof.
  pose proof (dashboard_counts_every_row_in_range sample_state (Ref 0%nat) sample_disasters
                (mkDatetime 2000 1 1) (mkDatetime 2001 1 1)
                eq_refl ltac:(decide_it) ltac:(split; decide_it)
                ltac:(split; decide_it) ltac:(decide_it)) as H.
  cbv zeta in H. destruct H as (ax & bar & s' & Hrun & Hbars & _).
  by exists ax, bar, s'.
Defined.

(** ** The bar chart against the table *)

Lemma value_ge_desc_le c f r1 r2 :
  c ∈ metric_columns →
  r1 ∈ rows (country_var_frame f) → r2 ∈ rows (country_var_frame f) →
  desc_le c r1 r2 → value_ge (cell c r1.2) (cell c r2.2).
Proof.
  intros Hc [_ H1]%elem_of_rows_country_var [_ H2]%elem_of_rows_country_var.
  unfold desc_le. rewrite H1, H2.
  destruct (metric_is_number f r1.1 c Hc) as [x ->].
  destruct (metric_is_number f r2.1 c Hc) as [y ->]. done.
Qed.

(** X9.  On a typed table whose sums stay within 2^53, the bars are the
    countries with the largest values: the rows of the per-country table
    split into the rows drawn and the rows left out, and no row left out has
    a larger value than a row drawn.  Nothing is left out when the table has
    at most ten rows, and ten bars are drawn when it has ten or more. *)
Theorem bars_are_the_largest s df f start_time end_time vis o :
  deref s df = Some f → dashboard_columns ⊆ columns f →
  typed f → bounded f →
  "iso_a3" ∈ columns (naturalearth_lowres s) → coded (naturalearth_lowres s) →
  dict_get vis selector_opts = Some o →
  let table := country_var_frame (restricted (year start_time) (year end_time) f) in
  ∃ ax bar s' rest,
    major_disaster_map df start_time end_time (Some vis) s = (inr (ax, bar), s')
    ∧ rows (bars_data bar) ++ rest ≡ₚ rows table
    ∧ (∀ shown left_out, shown ∈ rows (bars_data bar) → left_out ∈ rest →
         value_ge (cell (dep_var_2 o) shown.2) (cell (dep_var_2 o) left_out.2))
    ∧ ((length (rows table) ≤ 10)%nat → rest = [])
    ∧ ((10 ≤ length (rows table))%nat → length (bars_entries bar) = 10%nat).
Proof.
  intros Hdf Hcols Htyped _ Hgeo Hcoded Hvis table.
  assert (Hm : dep_var_2 o ∈ metric_columns) by by eapply alias_is_metric.
  set (sorted := merge_sort (desc_le (dep_var_2 o)) (rows table)).
  assert (Hperm : sorted ≡ₚ rows table) by apply merge_sort_Permutation.
  assert (Hsorted : StronglySorted (desc_le (dep_var_2 o)) (take 10 sorted ++ drop 10 sorted)).
  { rewrite take_drop. apply StronglySorted_merge_sort; apply _. }
  eexists _, _, _, (drop 10 sorted). split.
  { eapply major_disaster_map_typed; eauto. }
  unfold bars_entries. cbn [bars_data]. rewrite rows_top10. fold table sorted.
  split; [by rewrite take_drop|]. split; [|split].
  - intros r1 r2 H1 H2.
    apply (value_ge_desc_le _ (restricted (year start_time) (year end_time) f)); [done|..].
    + fold table. rewrite <- Hperm. by apply (subseteq_take 10).
    + fold table. rewrite <- Hperm. by apply (subseteq_drop 10).
    + by eapply StronglySorted_app_1_elem_of.
  - intros Hlen. apply drop_ge. by rewrite Hperm.
  - intros Hlen. rewrite length_map, length_take_le; [done|]. by rewrite Hperm.
Qed.

Lemma bars_are_the_largest_witness :
  ∃ ax bar s' (rest : list row),
    major_disaster_map (Ref 0%nat) (mkDatetime 2000 1 1) (mkDatetime 2001 1 1)
                       (Some "# Deaths") sample_state = (inr (ax, bar), s')
    ∧ rest = [].
Proof.
  pose proof (bars_are_the_largest sample_state (Ref 0%nat) sample_disasters
                (mkDatetime 2000 1 1) (mkDatetime 2001 1 1) "# Deaths"
                (mkOpt "Total Deaths" "TD_2" "# Deaths" "sum")
                eq_refl ltac:(decide_it) ltac:(split; decide_it) ltac:(decide_it)
                ltac:(decide_it) ltac:(decide_it) eq_refl) as H.
  cbv zeta in H. destruct H as (ax & bar & s' & rest & Hrun & _ & _ & Hall & _).
  exists ax, bar, s', rest. split; [done|]. apply Hall. decide_it.
Defined.

Lemma inde_is_the_label f r :
  r ∈ rows (country_var_frame f) → cell "inde" r.2 = r.1.
Proof. by intros [_ ->]%elem_of_rows_country_var. Qed.

Lemma bar_countries c f kd vd size :
  map fst (bars_entries (mkBars (top10 c f) ("inde", kd) (c, vd) size))
  = take 10 (map fst (merge_sort (desc_le c) (rows (country_var_frame f)))).
Proof.
  unfold bars_entries. cbn [bars_data bars_kdim bars_vdim fst].
  rewrite map_map. cbn [fst]. rewrite rows_top10, <- fmap_take.
  apply map_ext_in. intros r Hr%list_elem_of_In. apply (inde_is_the_label f).
  apply (subseteq_take 10) in Hr. by rewrite merge_sort_Permutation in Hr.
Qed.

(** X10.  On a typed table, no country has two bars.  Every bar stands for
    a country code found in some row of the date range, and a polygon
    carrying that code shows, in the selected metric's column, the value of
    the bar. *)
Theorem bars_name_countries_of_the_slice s df f start_time end_time vis o :
  deref s df = Some f → dashboard_columns ⊆ columns f →
  typed f → bounded f →
  geo_ok (naturalearth_lowres s) country_var_columns →
  coded (naturalearth_lowres s) →
  dict_get vis selector_opts = Some o →
  ∃ ax bar s',
    major_disaster_map df start_time end_time (Some vis) s = (inr (ax, bar), s')
    ∧ NoDup (map fst (bars_entries bar))
    ∧ (∀ x y, (x, y) ∈ bars_entries bar →
         x ≠ NaN
         ∧ (∃ r, r ∈ rows f ∧ in_range (year start_time) (year end_time) r
                 ∧ cell "ISO" r.2 = x)
         ∧ ∀ i g, rows (naturalearth_lowres s) !! i = Some g → cell "iso_a3" g.2 = x →
             ∃ r, rows (polygons_data ax) !! i = Some r ∧ cell (dep_var_2 o) r.2 = y).
Proof.
  intros Hdf Hcols Htyped _ Hgeo Hcoded Hvis.
  assert (Hm : dep_var_2 o ∈ metric_columns) by by eapply alias_is_metric.
  eexists _, _, _. split.
  { eapply major_disaster_map_typed; eauto. apply Hgeo. }
  cbn [polygons_data]. split.
  - rewrite bar_countries. eapply sublist_NoDup; [|apply sublist_take].
    rewrite merge_sort_Permutation.
    change (NoDup (index (country_var_frame (restricted (year start_time) (year end_time) f)))).
    rewrite index_country_var_frame. apply NoDup_group_keys.
  - intros x y [Hk ->]%bars_entries_top10.
    apply elem_of_group_keys in Hk as [Hx (r & [Hr Hin]%elem_of_rows_restricted & Hiso)].
    split; [done|]. split; [by exists r|].
    intros i g Hg Hcode. 
    destruct (dashboard_polygon _ (restricted (year start_time) (year end_time) f) i g Hgeo Hg)
      as (r' & Hr' & _ & _ & Hcell).
    exists r'. split; [done|]. rewrite Hcell, Hcode by (done || congruence). done.
Qed.

Lemma bars_name_countries_of_the_slice_witness :
  ∃ ax bar s',
    major_disaster_map (Ref 0%nat) (mkDatetime 2000 1 1) (mkDatetime 2001 1 1)
                       (Some "# Deaths") sample_state = (inr (ax, bar), s')
    ∧ NoDup (map fst (bars_entries bar)).
Proof.
  destruct (bars_name_countries_of_the_slice sample_state (Ref 0%nat) sample_disasters
              (mkDatetime 2000 1 1) (mkDatetime 2001 1 1) "# Deaths"
              (mkOpt "Total Deaths" "TD_2" "# Deaths" "sum"))
    as (ax & bar & s' & Hrun & Hnd & _);
    [reflexivity | decide_it | split; decide_it | decide_it | split; decide_it
    | decide_it | reflexivity |].
  by exists ax, bar, s'.
Defined.

(** ** What the map carries *)

Lemma columns_fillna v f : columns (fillna v f) = columns f.
Proof. done. Qed.

Lemma columns_dashboard_world geo f c :
  geo_ok geo country_var_columns →
  c ∈ columns (dashboard_world geo f) ↔ c ∈ columns geo ∨ c ∈ country_var_columns.
Proof.
  intros [_ Hgeo]. rewrite list.Forall_forall in Hgeo.
  unfold dashboard_world. rewrite columns_fillna, columns_merge_left.
  rewrite country_var_frame_columns. fold country_var_columns.
  split.
  - intros [[? _]|[? _]]; auto.
  - intros [Hc|Hc].
    + left. split; [done|]. left. by apply Hgeo.
    + right. split; [done|]. intros Hg. by apply (Hgeo c).
Qed.

(** X11.  On a typed table, the frame handed to the map does not depend on
    the metric selected: it holds all seven aggregates, and the hover
    dimensions are the country name and all seven metrics, each naming a
    column of that frame.  The selection only picks the colour column, which
    is one of these dimensions, and the value column of the bar chart, which
    like [inde] is a column of the frame the bars are drawn from. *)
Theorem every_metric_rides_on_the_map s df f start_time end_time :
  deref s df = Some f → dashboard_columns ⊆ columns f → typed f →
  geo_ok (naturalearth_lowres s) country_var_columns →
  coded (naturalearth_lowres s) →
  "name" ∈ columns (naturalearth_lowres s) →
  ∃ world,
    (∀ vis o, dict_get vis selector_opts = Some o →
       ∃ bar s',
         major_disaster_map df start_time end_time (Some vis) s
         = (inr (mkPolygons world keyDims (Some (dep_var_2 o)) (Some (width, height)), bar), s')
         ∧ (dep_var_2 o, feature_name o) ∈ keyDims
         ∧ bars_kdim bar = ("inde", "Country")
         ∧ bars_vdim bar = (dep_var_2 o, feature_name o)
         ∧ "inde" ∈ columns (bars_data bar)
         ∧ dep_var_2 o ∈ columns (bars_data bar))
    ∧ keyDims = [("name", "Country"); ("Year_2", "# Disasters"); ("TD_2", "# Deaths");
                 ("num_inj", "# Injured"); ("num_aff", "# Affected");
                 ("num_homeless", "# Homeless");
                 ("num_recon_costs", "Reconstruction Costs");
                 ("num_damages", "Total Damanges")]
    ∧ ∀ d, d ∈ keyDims → d.1 ∈ columns world.
Proof.
  intros Hdf Hcols Htyped Hgeo Hcoded Hname.
  exists (dashboard_world (naturalearth_lowres s)
            (restricted (year start_time) (year end_time) f)).
  split; [|split; [done|]].
  - intros vis o Hvis. eexists _, _. split.
    { eapply major_disaster_map_typed; eauto. apply Hgeo. }
    cbn [bars_kdim bars_vdim bars_data]. split.
    { apply list_elem_of_further, list_elem_of_fmap.
      exists (vis, o). split; [done|]. by apply selector_opts_cases. }
    split; [done|]. split; [done|].
    change (columns (top10 ?c ?f)) with (columns (country_var_frame f)).
    split; [in_list|]. by eapply alias_in_country_var.
  - intros d Hd. apply columns_dashboard_world; [done|].
    apply elem_of_cons in Hd as [->|Hd]; [by left|]. right.
    apply list_elem_of_fmap in Hd as (e & -> & He). cbn [fst].
    apply metric_in_country_var, list_elem_of_fmap. by exists e.
Qed.

Lemma every_metric_rides_on_the_map_witness :
  ∃ world, ∀ d, d ∈ keyDims → d.1 ∈ columns world.
Proof.
  destruct (every_metric_rides_on_the_map sample_state (Ref 0%nat) sample_disasters
              (mkDatetime 2000 1 1) (mkDatetime 2001 1 1))
    as (world & _ & _ & H);
    [reflexivity | decide_it | split; decide_it | split; decide_it | decide_it
    | decide_it |].
  by exists world.
Defined.

(** ** The first view and the static map *)

Lemma year_count_agrees geo f :
  geo_ok geo country_var_columns →
  points "iso_a3" "Year_2" (dashboard_world geo f)
  = points "iso_a3" "Year_2" (distribution_world geo f).
Proof.
  intros Hgeo.
  assert (Hgeo' : geo_ok geo country_count_columns).
  { eapply geo_ok_weaken; [apply country_count_in_country_var|done]. }
  unfold points. apply list_eq. intros i. rewrite !list_lookup_fmap.
  destruct (rows geo !! i) as [g|] eqn:Hg.
  - destruct (world_row geo (country_var_frame f) (country_var_cells f)
                (group_keys "ISO" f) (rows_country_var_frame f)
                (NoDup_group_keys "ISO" f) (λ _ _, eq_refl) Hgeo i g Hg)
      as (r1 & Hr1 & Hleft1 & Hright1).
    destruct (world_row geo (country_count_frame f) (country_count_cells f)
                (group_keys "ISO" f) (rows_country_count_frame f)
                (NoDup_group_keys "ISO" f) (λ _ _, eq_refl) Hgeo' i g Hg)
      as (r2 & Hr2 & Hleft2 & Hright2).
    unfold dashboard_world, distribution_world. rewrite Hr1, Hr2. cbn [fmap option_fmap option_map].
    rewrite Hleft1, Hleft2 by apply Hgeo.
    rewrite Hright1, Hright2 by in_list.
    unfold partner. by destruct (decide (cell "iso_a3" g.2 ∈ group_keys "ISO" f)).
  - apply lookup_ge_None in Hg.
    rewrite !(proj2 (lookup_ge_None _ _)); [done|..].
    + pose proof (distribution_world_left_join geo f Hgeo') as [-> _]. done.
    + by rewrite length_dashboard_world.
Qed.

(** X12.  On a typed table with usable years: at the slider's initial range
    and the selector's first option, "# Disasters", the dashboard's map shows
    for every polygon the count that [major_disaster_distribution] computes
    for it from the same table.  With [voila=True] that first view is the one
    [map_distribution_cases] draws itself before it returns. *)
Theorem first_view_agrees_with_the_static_map s df f :
  deref s df = Some f → dashboard_columns ⊆ columns f → typed f →
  geo_ok (naturalearth_lowres s) country_var_columns →
  coded (naturalearth_lowres s) →
  rows f ≠ [] → Forall (in_range MINYEAR (MAXYEAR - 1)) (rows f) →
  ∃ d p s1 ax bar s2,
    map_distribution_cases df (PyBool false) s = (inr d, s)
    ∧ major_disaster_distribution df s = (inr p, s1)
    ∧ recompute d (dateslider_value d).1 (dateslider_value d).2 (Some "# Disasters") s
      = (inr (ax, bar), s2)
    ∧ points "iso_a3" "Year_2" (polygons_data ax)
      = points "iso_a3" "Year_2" (polygons_data p)
    ∧ ∃ d', map_distribution_cases df (PyBool true) s = (inr d', s2)
            ∧ dateslider_value d' = dateslider_value d.
Proof.
  intros Hdf Hcols Htyped Hgeo Hcoded Hrows Hall.
  assert (HYear : "Year" ∈ columns f) by apply Hcols, year_is_read.
  destruct (slider_bounds_valid f Hrows Hall) as (lo & hi & Hb & _ & _ & Hle).
  pose proof (major_disaster_map_typed s df f (mkDatetime lo 1 1) (mkDatetime (hi + 1) 1 1)
                "# Disasters" (mkOpt "Year" "Year_2" "# Disasters" "count")
                Hdf Hcols Htyped (proj1 Hgeo) Hcoded eq_refl) as Hrun.
  cbv zeta in Hrun.
  eexists _, _, _, _, _, _. split.
  { rewrite (map_distribution_cases_run s df f) by done. by rewrite Hb. }
  split.
  { apply major_disaster_distribution_run; try done;
      [apply Hcols, iso_is_read|apply Hgeo|].
    apply not_refused_country_count; [done|apply Htyped]. }
  unfold recompute. cbn [captured_df dateslider_value fst snd]. split; [exact Hrun|].
  cbn [polygons_data year]. split.
  - rewrite restricted_covering.
    + by apply year_count_agrees.
    + apply in_range_years. split; [by eapply in_range_numeric|].
      intros y Hy. specialize (Hle y Hy). lia.
  - eexists. rewrite (map_distribution_cases_run s df f) by done. rewrite Hb.
    cbv zeta. rewrite Hrun. cbn [fst snd]. split; reflexivity.
Qed.

Lemma first_view_agrees_with_the_static_map_witness :
  ∃ d p s1 ax bar s2,
    map_distribution_cases (Ref 0%nat) (PyBool false) sample_state = (inr d, sample_state)
    ∧ major_disaster_distribution (Ref 0%nat) sample_state = (inr p, s1)
    ∧ recompute d (dateslider_value d).1 (dateslider_value d).2 (Some "# Disasters")
                sample_state = (inr (ax, bar), s2)
    ∧ points "iso_a3" "Year_2" (polygons_data ax)
      = points "iso_a3" "Year_2" (polygons_data p)
    ∧ ∃ d', map_distribution_cases (Ref 0%nat) (PyBool true) sample_state = (inr d', s2)
            ∧ dateslider_value d' = dateslider_value d.
Proof.
  apply (first_view_agrees_with_the_static_map sample_state (Ref 0%nat) sample_disasters);
    [reflexivity | decide_it | split; decide_it | split; decide_it | decide_it
    | discriminate | decide_it].
Defined.

(** ** The scatter plot as an inner join *)

Lemma imap_forget {B} (pt : row → B) (pt' : cells → B) (P : row → Prop) (P' : cells → Prop)
    `{!∀ r, Decision (P r)} `{!∀ c, Decision (P' c)} (F : nat → value) (L : list cells) :
  (∀ r, P r ↔ P' r.2) → (∀ r, pt r = pt' r.2) →
  map pt (filter P (imap (λ i c, (F i, c)) L)) = map pt' (filter P' L).
Proof.
  intros HP Hpt. revert F. induction L as [|c L IH]; intros F; [done|].
  rewrite imap_cons, !filter_cons.
  specialize (IH (F ∘ S)). unfold compose in *.
  destruct (decide (P' c)) as [Hc|Hc].
  - rewrite decide_True by by apply HP. cbn [map]. by rewrite Hpt, IH.
  - rewrite decide_False by by rewrite HP. apply IH.
Qed.

Lemma map_filter_bind {A B C} (pt : B → C) (P : B → Prop) `{!∀ x, Decision (P x)}
    (g : A → list B) (l : list A) :
  map pt (filter P (l ≫= g)) = l ≫= λ x, map pt (filter P (g x)).
Proof.
  induction l as [|x l IH]; [done|].
  by rewrite !bind_cons, list.filter_app, map_app, IH.
Qed.

Lemma map_filter_map {A B C} (pt : B → C) (P : B → Prop) `{!∀ x, Decision (P x)}
    (h : A → B) (Q : A → Prop) `{!∀ x, Decision (Q x)} (q : A → C) (l : list A) :
  (∀ x, P (h x) ↔ Q x) → (∀ x, pt (h x) = q x) →
  map pt (filter P (map h l)) = l ≫= λ x, if decide (Q x) then [q x] else [].
Proof.
  intros HP Hpt. induction l as [|x l IH]; [done|].
  cbn [map]. rewrite filter_cons, bind_cons, <- IH.
  destruct (decide (Q x)) as [HQ|HQ].
  - rewrite decide_True by by apply HP. cbn. by rewrite Hpt.
  - by rewrite decide_False by by rewrite HP.
Qed.

Lemma bind_ext_in {A B} (g h : A → list B) (l : list A) :
  (∀ x, x ∈ l → g x = h x) → l ≫= g = l ≫= h.
Proof.
  induction l as [|x l IH]; [done|]. intros H. rewrite !bind_cons.
  rewrite (H x) by apply list_elem_of_here.
  by rewrite IH by (intros y Hy; by apply H, list_elem_of_further).
Qed.

Lemma major_complete_points nd gdp :
  "Total Deaths" ∈ columns nd → "Total Deaths" ∉ columns gdp →
  "GDP per capita" ∈ columns gdp → "GDP per capita" ∉ columns nd →
  map (λ r : row, (cell "Total Deaths" r.2, cell "GDP per capita" r.2))
      (major_complete nd gdp)
  = inner_join_points nd gdp.
Proof.
  intros Hd Hdg Hg Hgd. unfold major_complete, joined, merge_left, range_index.
  cbn [rows].
  set (lcols := filter _ (columns nd)). set (rcols := filter _ (columns gdp)).
  assert (Hl : "Total Deaths" ∈ lcols) by (apply list_elem_of_filter; tauto).
  assert (Hr : "GDP per capita" ∈ rcols) by (by apply list_elem_of_filter).
  assert (Hnl : "GDP per capita" ∉ lcols) by (intros [_ ?]%list_elem_of_filter; done).
  rewrite (imap_forget _ (λ c, (cell "Total Deaths" c, cell "GDP per capita" c)) _
             (λ c, exceeds "Total Deaths" 5000 (NaN, c)
                   ∧ cell "Total Deaths" c ≠ NaN ∧ cell "GDP per capita" c ≠ NaN))
    by done.
  rewrite map_filter_bind. unfold inner_join_points. apply bind_ext_in. intros d _.
  destruct (filter _ (rows gdp)) as [|g ms] eqn:Hms.
  - rewrite filter_cons_False; [done|]. intros (_ & _ & H). apply H.
    by rewrite cell_merge_right.
  - apply map_filter_map.
    + intros g'. unfold exceeds. cbn [snd].
      rewrite cell_merge_left, cell_merge_right by done. cbn [from_option].
      split; [tauto|]. intros [He ?]. split; [done|]. split; [|done].
      intros Hn. by rewrite Hn in He.
    + intros g'. cbn [snd]. by rewrite cell_merge_left, cell_merge_right by done.
Qed.

Lemma elem_of_inner_join_points nd gdp x y :
  (x, y) ∈ inner_join_points nd gdp ↔
  ∃ d g, d ∈ rows nd ∧ g ∈ rows gdp
         ∧ cell "Code" g.2 = cell "ISO" d.2 ∧ cell "Year" g.2 = cell "Year" d.2
         ∧ exceeds "Total Deaths" 5000 d ∧ cell "GDP per capita" g.2 ≠ NaN
         ∧ x = cell "Total Deaths" d.2 ∧ y = cell "GDP per capita" g.2.
Proof.
  unfold inner_join_points. rewrite list_elem_of_bind. split.
  - intros (d & (g & Hpt & [Hkey Hg]%list_elem_of_filter)%list_elem_of_bind & Hd).
    case_decide as Hc; [|by apply elem_of_nil in Hpt].
    apply list_elem_of_singleton in Hpt as [= -> ->]. injection Hkey as ? ?.
    exists d, g. tauto.
  - intros (d & g & Hd & Hg & Hcode & Hyear & He & Hgdp & -> & ->).
    exists d. split; [|done]. apply list_elem_of_bind. exists g. split.
    + rewrite decide_True by done. apply list_elem_of_here.
    + apply list_elem_of_filter. split; [|done]. cbn. by rewrite Hcode, Hyear.
Qed.

(** X13.  On tables typed as the datasets are, the left join followed by
    [dropna] acts as an inner join: the points plotted by [death_vs_gdp] are,
    disaster by disaster and in the order of the GDP table, the pairs (total
    deaths, GDP per capita) of a disaster row with more than 5000 deaths and
    a GDP row of the same code and year whose GDP per capita is on record.  A
    disaster without such a GDP row is not plotted. *)
Theorem scatter_is_an_inner_join s v1 v2 nd gdp :
  deref s v1 = Some nd → deref s v2 = Some gdp →
  ["ISO"; "Year"; "Total Deaths"] ⊆ columns nd →
  ["Code"; "Year"; "GDP per capita"] ⊆ columns gdp →
  "Total Deaths" ∉ columns gdp → "GDP per capita" ∉ columns nd →
  joinable nd gdp →
  ∃ s' pts,
    death_vs_gdp v1 v2 s = (inr tt, s')
    ∧ figures s' = figures s ++ [Scatter "Total Deaths" "GDP per capita" pts]
    ∧ pts = inner_join_points nd gdp
    ∧ ∀ x y, (x, y) ∈ pts ↔
        ∃ d g, d ∈ rows nd ∧ g ∈ rows gdp
               ∧ cell "Code" g.2 = cell "ISO" d.2 ∧ cell "Year" g.2 = cell "Year" d.2
               ∧ exceeds "Total Deaths" 5000 d ∧ cell "GDP per capita" g.2 ≠ NaN
               ∧ x = cell "Total Deaths" d.2 ∧ y = cell "GDP per capita" g.2.
Proof.
  intros H1 H2 Hnd Hgdp Hd Hg Hj. eexists _, _. split.
  { apply death_vs_gdp_run; try done;
      [by apply not_refused_joinable|by apply number_column_joined]. }
  cbn [figures show push]. split; [done|].
  rewrite points_deaths_gdp, major_complete_points; try done.
  - split; [done|]. apply elem_of_inner_join_points.
  - apply Hnd. in_list.
  - apply Hgdp. in_list.
Qed.

Lemma scatter_is_an_inner_join_witness :
  ∃ s' pts,
    death_vs_gdp (Ref 0%nat) (Ref 1%nat) sample_state = (inr tt, s')
    ∧ figures s' = [Scatter "Total Deaths" "GDP per capita" pts]
    ∧ pts = inner_join_points sample_disasters sample_gdp.
Proof.
  destruct (scatter_is_an_inner_join sample_state (Ref 0%nat) (Ref 1%nat)
              sample_disasters sample_gdp)
    as (s' & pts & Hrun & Hfig & Hpts & _);
    [reflexivity | reflexivity | decide_it | decide_it | decide_it | decide_it
    | repeat split; decide_it |].
  by exists s', pts.
Defined.

Lemma length_filter_unique {A B} `{EqDecision B} (h : A → B) (y : B) (l : list A) :
  NoDup (map h l) → (length (filter (λ x, h x = y) l) ≤ 1)%nat.
Proof.
  induction l as [|x l IH]; [cbn; lia|]. cbn [map]. intros [Hx Hnd]%list.NoDup_cons.
  rewrite filter_cons. destruct (decide (h x = y)) as [<-|Hne]; [|by apply IH].
  rewrite filter_none; [done|]. intros x' Hx' Heq. apply Hx.
  rewrite <- Heq. apply list_elem_of_fmap. by exists x'.
Qed.

Lemma length_bind_le {A B} (g : A → list B) (Q : A → Prop) `{!∀ x, Decision (Q x)}
    (l : list A) :
  (∀ x, Q x → (length (g x) ≤ 1)%nat) → (∀ x, ¬ Q x → g x = []) →
  (length (l ≫= g) ≤ length (filter Q l))%nat.
Proof.
  intros H1 H0. induction l as [|x l IH]; [done|].
  rewrite bind_cons, length_app, filter_cons.
  destruct (decide (Q x)) as [HQ|HQ].
  - specialize (H1 x HQ). cbn [length]. lia.
  - by rewrite (H0 x HQ).
Qed.

Lemma length_bind_singletons {A B} (g : A → list B) (l : list A) :
  (∀ x, (length (g x) ≤ 1)%nat) → (length (l ≫= g) ≤ length l)%nat.
Proof.
  intros H. induction l as [|x l IH]; [done|].
  rewrite bind_cons, length_app. specialize (H x). cbn [length]. lia.
Qed.

Lemma bind_nil_all {A B} (g : A → list B) (l : list A) :
  (∀ x, g x = []) → l ≫= g = [].
Proof. intros H. induction l as [|x l IH]; [done|]. by rewrite bind_cons, H, IH. Qed.

Lemma length_inner_join_points nd gdp :
  NoDup (map (λ g : row, key_of ["Code"; "Year"] g.2) (rows gdp)) →
  (length (inner_join_points nd gdp)
   ≤ length (filter (exceeds "Total Deaths" 5000) (rows nd)))%nat.
Proof.
  intros Hnd. unfold inner_join_points. apply length_bind_le.
  - intros d Hd. etrans; [apply length_bind_singletons|].
    + intros g. case_decide; cbn; lia.
    + by apply (length_filter_unique (λ g : row, key_of ["Code"; "Year"] g.2)).
  - intros d Hd. apply bind_nil_all. intros g. rewrite decide_False; [done|tauto].
Qed.

(** X14.  On tables typed as the datasets are: when the GDP table has at
    most one row per (code, year), every disaster is plotted at most once:
    the scatter plot has no more points than there are disasters with more
    than 5000 deaths.  (With two GDP rows for a code and year the disaster is
    plotted twice, see the example below.) *)
Theorem unique_gdp_rows_plot_a_disaster_once s v1 v2 nd gdp :
  deref s v1 = Some nd → deref s v2 = Some gdp →
  ["ISO"; "Year"; "Total Deaths"] ⊆ columns nd →
  ["Code"; "Year"; "GDP per capita"] ⊆ columns gdp →
  "Total Deaths" ∉ columns gdp → "GDP per capita" ∉ columns nd →
  joinable nd gdp →
  NoDup (map (λ g : row, key_of ["Code"; "Year"] g.2) (rows gdp)) →
  ∃ s' pts,
    death_vs_gdp v1 v2 s = (inr tt, s')
    ∧ figures s' = figures s ++ [Scatter "Total Deaths" "GDP per capita" pts]
    ∧ (length pts ≤ length (filter (exceeds "Total Deaths" 5000) (rows nd)))%nat.
Proof.
  intros H1 H2 Hnd Hgdp Hd Hg Hj Hunique. eexists _, _. split.
  { apply death_vs_gdp_run; try done;
      [by apply not_refused_joinable|by apply number_column_joined]. }
  cbn [figures show push]. split; [done|].
  rewrite points_deaths_gdp, major_complete_points; try done.
  - by apply length_inner_join_points.
  - apply Hnd. in_list.
  - apply Hgdp. in_list.
Qed.

Lemma unique_gdp_rows_plot_a_disaster_once_witness :
  ∃ s' pts,
    death_vs_gdp (Ref 0%nat) (Ref 1%nat) sample_state = (inr tt, s')
    ∧ figures s' = [Scatter "Total Deaths" "GDP per capita" pts]
    ∧ (length pts ≤ 1)%nat.
Proof.
  apply (unique_gdp_rows_plot_a_disaster_once sample_state (Ref 0%nat) (Ref 1%nat)
           sample_disasters sample_gdp);
    [reflexivity | reflexivity | decide_it | decide_it | decide_it | decide_it
    | repeat split; decide_it | decide_it].
Defined.

Example doubled_gdp_rows_plot_a_disaster_twice :
  shown (figures (death_vs_gdp (Ref 0%nat) (Ref 1%nat)
                    (mkState [sample_disasters; doubled_gdp] sample_world [])).2)
  = [[(Num 6000, Num 500); (Num 6000, Num 510)]].
Proof. vm_compute. reflexivity. Qed.

(** ** Missing columns in the static reporters *)

Lemma in_joined nd gdp c :
  c ≠ "Year" →
  c ∈ columns (joined nd gdp)
  ↔ (c ∈ columns nd ∧ c ∉ columns gdp) ∨ (c ∈ columns gdp ∧ c ∉ columns nd).
Proof.
  intros Hc. unfold joined. rewrite columns_merge_left.
  change (same_keys ["ISO"; "Year"] ["Code"; "Year"]) with ["Year"].
  rewrite list_elem_of_singleton. tauto.
Qed.

Lemma death_vs_gdp_outcome s v1 v2 nd gdp :
  deref s v1 = Some nd → deref s v2 = Some gdp →
  ¬ refused nd gdp ["ISO"; "Year"] ["Code"; "Year"] →
  number_column "Total Deaths" (joined nd gdp) →
  ∃ s', figures s' = figures s
        ∧ death_vs_gdp v1 v2 s
          = if decide (["ISO"; "Year"] ⊆ columns nd ∧ ["Code"; "Year"] ⊆ columns gdp
                       ∧ "Total Deaths" ∈ columns (joined nd gdp)
                       ∧ "GDP per capita" ∈ columns (joined nd gdp))
            then (inr tt, show (Scatter "Total Deaths" "GDP per capita"
                                  (points "Total Deaths" "GDP per capita" (deaths_gdp nd gdp)))
                            s')
            else (inl KeyError, s').
Proof.
  intros H1 H2 Hacc Hnum. unfold death_vs_gdp.
  run isinstance_DataFrame_run. run (@eq_refl _ (assert true s)).
  run isinstance_DataFrame_run. run (@eq_refl _ (assert true s)).
  destruct (decide (["ISO"; "Year"] ⊆ columns nd ∧ ["Code"; "Year"] ⊆ columns gdp))
    as [[Hnd Hgdp]|Hkeys].
  2:{ exists s. split; [done|]. rewrite decide_False by tauto.
      erewrite bind_fail; [done|]. by eapply pd_merge_missing. }
  run pd_merge_run.
  destruct (decide ("Total Deaths" ∈ columns (joined nd gdp))) as [Hjd|Hjd].
  2:{ eexists. split; [|rewrite decide_False by tauto; erewrite bind_fail; [done|];
                         eapply pd_getitem_missing; eauto with store]. done. }
  run pd_getitem_run. erewrite bind_run by by apply compare_run.
  run pd_getitem_mask_run.
  destruct (decide ("GDP per capita" ∈ columns (joined nd gdp))) as [Hjg|Hjg].
  2:{ eexists. split; [|rewrite decide_False by tauto; erewrite bind_fail; [done|];
                         eapply pd_getitem_columns_missing; eauto with store].
      - done.
      - intros H. apply Hjg, H. in_list. }
  erewrite bind_run; cycle 1.
  { eapply pd_getitem_columns_run; eauto with store. }
  run pd_dropna_run. eexists. split; [|rewrite decide_True by done].
  2:{ erewrite plot_scatter_run; eauto with store; by has_columns. }
  done.
Qed.

(** X15.  On two tables typed as the datasets are, whichever of them holds
    the deaths, [death_vs_gdp] completes exactly when the disaster table has
    [ISO] and [Year], the GDP table has [Code] and [Year], and [Total Deaths]
    and [GDP per capita] are each found in one of the two tables and not in
    the other (a column found in both comes out of the merge under suffixed
    names).  Otherwise it raises KeyError and plots nothing. *)
Theorem death_vs_gdp_needs_its_columns s v1 v2 nd gdp :
  deref s v1 = Some nd → deref s v2 = Some gdp →
  joinable nd gdp → number_column "Total Deaths" gdp →
  let out := death_vs_gdp v1 v2 s in
  let in_one c :=
    (c ∈ columns nd ∧ c ∉ columns gdp) ∨ (c ∈ columns gdp ∧ c ∉ columns nd) in
  let plottable :=
    ["ISO"; "Year"] ⊆ columns nd ∧ ["Code"; "Year"] ⊆ columns gdp
    ∧ in_one "Total Deaths" ∧ in_one "GDP per capita" in
  (out.1 = inr tt ↔ plottable)
  ∧ (out.1 = inl KeyError ↔ ¬ plottable)
  ∧ (¬ plottable → figures out.2 = figures s).
Proof.
  intros H1 H2 Hj Hdg out in_one plottable. subst out in_one plottable. cbv beta.
  destruct (death_vs_gdp_outcome s v1 v2 nd gdp H1 H2) as (s' & Hfig & ->).
  { by apply not_refused_joinable. }
  { apply number_column_merge_left; [apply Hj|done]. }
  rewrite <- !in_joined by done.
  case_decide as Hp; cbn [fst snd].
  - split; [done|]. split; [split; [done|tauto]|tauto].
  - split; [split; [done|tauto]|]. split; [done|]. by intros _.
Qed.

Lemma death_vs_gdp_needs_its_columns_witness :
  (death_vs_gdp (Ref 0%nat) (Ref 1%nat) (mkState [bare_disasters; sample_gdp] sample_world [])).1
  = inl KeyError.
Proof.
  pose proof (death_vs_gdp_needs_its_columns
                (mkState [bare_disasters; sample_gdp] sample_world [])
                (Ref 0%nat) (Ref 1%nat) bare_disasters sample_gdp eq_refl eq_refl
                ltac:(repeat split; decide_it) ltac:(decide_it)) as H.
  cbv zeta in H. destruct H as (_ & H & _). apply H.
  intros (_ & _ & [[H1 _]|[H1 _]] & _); revert H1; apply (bool_decide_unpack _); vm_compute; exact I.
Defined.

Lemma major_disaster_distribution_outcome s df f :
  deref s df = Some f → text_column "ISO" f → coded (naturalearth_lowres s) →
  (major_disaster_distribution df s).1
  = if decide ("ISO" ∈ columns f ∧ "Year" ∈ columns f
               ∧ "iso_a3" ∈ columns (naturalearth_lowres s))
    then inr (mkPolygons (distribution_world (naturalearth_lowres s) f)
                [("Year_2", "# disasters"); ("name", "Country")] None (Some (600, 500)))
    else inl KeyError.
Proof.
  intros Hdf Htext Hcoded.
  destruct (decide ("ISO" ∈ columns f)) as [HISO|HISO]; cycle 1.
  { rewrite decide_False by tauto. unfold major_disaster_distribution.
    run isinstance_DataFrame_run. run (@eq_refl _ (assert true s)).
    erewrite bind_fail; [done|]. by eapply pd_groupby_missing. }
  destruct (decide ("Year" ∈ columns f)) as [HYear|HYear]; cycle 1.
  { rewrite decide_False by tauto. unfold major_disaster_distribution.
    run isinstance_DataFrame_run. run (@eq_refl _ (assert true s)).
    run pd_groupby_run.
    erewrite bind_fail; [done|]. by eapply groupby_count_missing. }
  destruct (decide ("iso_a3" ∈ columns (naturalearth_lowres s))) as [Hgeo|Hgeo]; cycle 1.
  { rewrite decide_False by tauto. unfold major_disaster_distribution.
    run isinstance_DataFrame_run. run (@eq_refl _ (assert true s)).
    run pd_groupby_run. run groupby_count_run.
    run read_naturalearth_lowres_run. run pd_DataFrame_run.
    run pd_rename_run. run pd_index_run. run setitem_last_run.
    erewrite bind_fail; [done|].
    eapply pd_merge_missing; eauto with store.
    intros [H _]. apply Hgeo, H, list_elem_of_here. }
  rewrite decide_True by done.
  rewrite (major_disaster_distribution_run s df f); try done.
  by apply not_refused_country_count.
Qed.

(** X16.  On a DataFrame whose country codes are text, with a country table
    whose codes are text, [major_disaster_distribution] returns its map
    exactly when the table has the columns [ISO] and [Year] and the country
    table has [iso_a3]; otherwise it raises KeyError. *)
Theorem distribution_needs_its_columns s df f :
  deref s df = Some f → text_column "ISO" f → coded (naturalearth_lowres s) →
  let out := (major_disaster_distribution df s).1 in
  let accepted :=
    "ISO" ∈ columns f ∧ "Year" ∈ columns f
    ∧ "iso_a3" ∈ columns (naturalearth_lowres s) in
  ((∃ p, out = inr p) ↔ accepted) ∧ (out = inl KeyError ↔ ¬ accepted).
Proof.
  intros Hdf Htext Hcoded out accepted. subst out accepted.
  rewrite (major_disaster_distribution_outcome s df f) by done.
  case_decide as Ha.
  - split; [split; [done|by eexists]|]. split; [done|tauto].
  - split; [split; [by intros [? ?]|tauto]|]. done.
Qed.

Lemma distribution_needs_its_columns_witness :
  (major_disaster_distribution (Ref 1%nat) sample_state).1 = inl KeyError.
Proof.
  pose proof (distribution_needs_its_columns sample_state (Ref 1%nat) sample_gdp eq_refl
                ltac:(decide_it) ltac:(decide_it)) as H.
  cbv zeta in H. destruct H as [_ H]. apply H.
  intros (H1 & _); revert H1; apply (bool_decide_unpack _); vm_compute; exact I.
Defined.
